(** * Highly variable gene selection (scanpy/preprocessing/_highly_variable_genes.py)

    A shallow embedding of the selection logic of the module: the cutoff
    policy ([_Cutoffs], [_subset_genes], [_nth_highest]), the per-bin
    dispersion statistics ([_stats_seurat], [_stats_cell_ranger]), the
    per-batch part of the Seurat v3 flavor and the batch aggregation.

    NumPy's float64 arrays are lists of Rocq's primitive binary64 floats,
    so NaN, the infinities and both zeros behave as they do in the code. *)

From Stdlib Require Import List ZArith Bool Lia Floats Permutation Sorted.
From Stdlib Require Uint63.
From Stdlib Require String.
From Stdlib Require Import Orders Mergesort.
Import ListNotations.

Local Open Scope bool_scope.

(** ** Binary64 comparisons *)

Module F64.

Local Open Scope float_scope.

(** [np.isnan] *)
Definition isnan (x : float) : bool := PrimFloat.is_nan x.

(** Python's [a > b] and [a >= b] on floats. *)
Definition gtb (a b : float) : bool := b <? a.
Definition geb (a b : float) : bool := b <=? a.

(** [np.finfo(np.float64).max] *)
Definition max_float : float := 0x1.fffffffffffffp+1023.

(** [np.nan_to_num] with its default arguments: NaN becomes 0, the
    infinities become the largest finite floats of their sign. *)
Definition nan_to_num (x : float) : float :=
  if isnan x then 0
  else if x =? infinity then max_float
  else if x =? neg_infinity then - max_float
  else x.

(** The assignment [a[np.isnan(a)] = 0], element by element. *)
Definition nan_to_zero (x : float) : float := if isnan x then 0 else x.

Definition notnan (x : float) : bool := negb (isnan x).

(** [np.isinf] and [np.isfinite] *)
Definition isinf (x : float) : bool := (x =? infinity) || (x =? neg_infinity).
Definition isfinite (x : float) : bool := negb (isnan x) && negb (isinf x).

End F64.

(** ** The order of binary64, through an integer key

    The primitive comparisons are specified on [spec_float] by
    [SFcompare].  A non-NaN value is sent to a triple of integers (class,
    exponent, mantissa) on which [SFcompare] is the lexicographic order;
    order facts on floats then reduce to linear arithmetic. *)

Module FOrder.

Definition key (x : spec_float) : Z * Z * Z :=
  match x with
  | S754_nan => (0, 0, 0)
  | S754_zero _ => (0, 0, 0)
  | S754_infinity true => (-2, 0, 0)
  | S754_infinity false => (2, 0, 0)
  | S754_finite true m e => (-1, - e, - Zpos m)
  | S754_finite false m e => (1, e, Zpos m)
  end%Z.

Definition kcmp (a b : Z * Z * Z) : comparison :=
  let '(a1, a2, a3) := a in
  let '(b1, b2, b3) := b in
  match (a1 ?= b1)%Z with
  | Eq => match (a2 ?= b2)%Z with
          | Eq => (a3 ?= b3)%Z
          | c => c
          end
  | c => c
  end.

Definition klt (a b : Z * Z * Z) : Prop :=
  let '(a1, a2, a3) := a in
  let '(b1, b2, b3) := b in
  (a1 < b1 \/ (a1 = b1 /\ (a2 < b2 \/ (a2 = b2 /\ a3 < b3))))%Z.

Definition kle (a b : Z * Z * Z) : Prop :=
  let '(a1, a2, a3) := a in
  let '(b1, b2, b3) := b in
  (a1 < b1 \/ (a1 = b1 /\ (a2 < b2 \/ (a2 = b2 /\ a3 <= b3))))%Z.

Definition keq (a b : Z * Z * Z) : Prop :=
  let '(a1, a2, a3) := a in
  let '(b1, b2, b3) := b in
  (a1 = b1 /\ a2 = b2 /\ a3 = b3)%Z.

Lemma kcmp_Lt a b : kcmp a b = Lt <-> klt a b.
Proof.
  destruct a as [[a1 a2] a3], b as [[b1 b2] b3]; unfold kcmp, klt.
  destruct (Z.compare_spec a1 b1), (Z.compare_spec a2 b2),
    (Z.compare_spec a3 b3); split; intros; try discriminate;
    try reflexivity; lia.
Qed.

Lemma kcmp_Eq a b : kcmp a b = Eq <-> keq a b.
Proof.
  destruct a as [[a1 a2] a3], b as [[b1 b2] b3]; unfold kcmp, keq.
  destruct (Z.compare_spec a1 b1), (Z.compare_spec a2 b2),
    (Z.compare_spec a3 b3); split; intros; try discriminate;
    try reflexivity; lia.
Qed.

Lemma kcmp_Gt a b : kcmp a b = Gt <-> klt b a.
Proof.
  destruct a as [[a1 a2] a3], b as [[b1 b2] b3]; unfold kcmp, klt.
  destruct (Z.compare_spec a1 b1), (Z.compare_spec a2 b2),
    (Z.compare_spec a3 b3); split; intros; try discriminate;
    try reflexivity; lia.
Qed.

Lemma SFcompare_key (x y : spec_float) :
  x <> S754_nan -> y <> S754_nan ->
  SFcompare x y = Some (kcmp (key x) (key y)).
Proof.
  intros Hx Hy.
  destruct x as [sx|sx| |sx mx ex], y as [sy|sy| |sy my ey];
    try congruence; simpl;
    try (destruct sx; reflexivity); try (destruct sy; reflexivity);
    try (destruct sx, sy; reflexivity).
  f_equal.
  destruct sx, sy; try reflexivity.
  unfold kcmp. change (-1 ?= -1)%Z with Eq.
  rewrite (Z.compare_opp ex ey), (Z.compare_antisym ex ey).
  destruct (ex ?= ey)%Z; reflexivity.
Qed.

End FOrder.

(** ** Comparisons of primitive floats as facts on keys *)

Module FFacts.
Import F64 FOrder.
Local Open Scope float_scope.

Definition fkey (x : float) : Z * Z * Z := key (Prim2SF x).

Lemma SFcompare_refl (x : spec_float) :
  x <> S754_nan -> SFcompare x x = Some Eq.
Proof.
  intros H. rewrite SFcompare_key by assumption. f_equal.
  apply kcmp_Eq. destruct (key x) as [[? ?] ?]. simpl. auto.
Qed.

Lemma nan_dec (x : spec_float) : {x = S754_nan} + {x <> S754_nan}.
Proof. destruct x; (left; reflexivity) || (right; discriminate). Qed.

Lemma isnan_spec (x : float) : isnan x = true <-> Prim2SF x = S754_nan.
Proof.
  unfold isnan, is_nan. rewrite FloatAxioms.eqb_spec. unfold SFeqb. split.
  - intros H. destruct (nan_dec (Prim2SF x)) as [E|E]; [exact E|].
    rewrite SFcompare_refl in H by assumption. discriminate.
  - intros ->. reflexivity.
Qed.

Lemma isnan_false (x : float) : isnan x = false <-> Prim2SF x <> S754_nan.
Proof.
  rewrite <- isnan_spec. destruct (isnan x); split; congruence.
Qed.

Lemma SFcompare_nan_r (x : spec_float) : SFcompare x S754_nan = None.
Proof. destruct x; reflexivity. Qed.

Ltac key_finish HL HE HG :=
  let H := fresh "H" in
  split; [intros H; repeat split; try assumption | intros (_ & _ & H)];
  try reflexivity; try discriminate;
  first [ solve [apply proj1 in HE; specialize (HE eq_refl); lia]
        | solve [apply proj1 in HL; specialize (HL eq_refl); lia]
        | solve [apply proj1 in HG; specialize (HG eq_refl); lia] ].

Ltac key_cases :=
  match goal with
  | |- context [kcmp ?a ?b] =>
      let HL := fresh "HL" in
      let HE := fresh "HE" in
      let HG := fresh "HG" in
      pose proof (kcmp_Lt a b) as HL; pose proof (kcmp_Eq a b) as HE;
      pose proof (kcmp_Gt a b) as HG;
      destruct (kcmp a b);
      destruct a as [[?a1 ?a2] ?a3], b as [[?b1 ?b2] ?b3];
      unfold klt, kle, keq in *;
      key_finish HL HE HG
  end.

Ltac nan_cases x y :=
  let Ex := fresh "Ex" in
  let Ey := fresh "Ey" in
  destruct (nan_dec (Prim2SF x)) as [Ex|Ex];
  [ rewrite Ex; simpl; split;
    [discriminate | intros (? & ? & _); congruence]
  | destruct (nan_dec (Prim2SF y)) as [Ey|Ey];
    [ rewrite Ey, SFcompare_nan_r; split;
      [discriminate | intros (? & ? & _); congruence]
    | rewrite SFcompare_key by assumption ] ].

Lemma leb_key (x y : float) :
  (x <=? y) = true <->
  isnan x = false /\ isnan y = false /\ kle (fkey x) (fkey y).
Proof.
  rewrite FloatAxioms.leb_spec. unfold SFleb, fkey. rewrite !isnan_false.
  nan_cases x y.
  generalize (key (Prim2SF x)) (key (Prim2SF y)). intros a b.
  key_cases.
Qed.

Lemma ltb_key (x y : float) :
  (x <? y) = true <->
  isnan x = false /\ isnan y = false /\ klt (fkey x) (fkey y).
Proof.
  rewrite FloatAxioms.ltb_spec. unfold SFltb, fkey. rewrite !isnan_false.
  nan_cases x y.
  generalize (key (Prim2SF x)) (key (Prim2SF y)). intros a b.
  key_cases.
Qed.

Lemma eqb_key (x y : float) :
  (x =? y) = true <->
  isnan x = false /\ isnan y = false /\ keq (fkey x) (fkey y).
Proof.
  rewrite FloatAxioms.eqb_spec. unfold SFeqb, fkey. rewrite !isnan_false.
  nan_cases x y.
  generalize (key (Prim2SF x)) (key (Prim2SF y)). intros a b.
  key_cases.
Qed.

Lemma leb_false_key (x y : float) :
  (x <=? y) = false <->
  isnan x = true \/ isnan y = true \/ klt (fkey y) (fkey x).
Proof.
  rewrite <- not_true_iff_false, leb_key.
  destruct (isnan x), (isnan y); try (split; [auto | intros _ (? & ? & _); discriminate]).
  destruct (fkey x) as [[a1 a2] a3], (fkey y) as [[b1 b2] b3].
  unfold kle, klt. split.
  - intros H. right; right.
    destruct (Z_lt_le_dec b1 a1); [lia|].
    destruct (Z_lt_le_dec b2 a2); [| destruct (Z_lt_le_dec b3 a3)];
      try lia; exfalso; apply H; repeat split; lia.
  - intros [H|[H|H]] (_ & _ & K); try discriminate; lia.
Qed.

Lemma ltb_false_key (x y : float) :
  (x <? y) = false <->
  isnan x = true \/ isnan y = true \/ kle (fkey y) (fkey x).
Proof.
  rewrite <- not_true_iff_false, ltb_key.
  destruct (isnan x), (isnan y); try (split; [auto | intros _ (? & ? & _); discriminate]).
  destruct (fkey x) as [[a1 a2] a3], (fkey y) as [[b1 b2] b3].
  unfold kle, klt. split.
  - intros H. right; right.
    destruct (Z_lt_le_dec b1 a1); [lia|].
    destruct (Z_lt_le_dec b2 a2); [| destruct (Z_lt_le_dec b3 a3)];
      try lia; exfalso; apply H; repeat split; lia.
  - intros [H|[H|H]] (_ & _ & K); try discriminate; lia.
Qed.

(** Keys of the constants the code compares against. *)
Lemma fkey_zero : fkey 0 = (0, 0, 0)%Z.
Proof. vm_compute. reflexivity. Qed.

Lemma fkey_infinity : fkey infinity = (2, 0, 0)%Z.
Proof. vm_compute. reflexivity. Qed.

Lemma fkey_neg_infinity : fkey neg_infinity = (-2, 0, 0)%Z.
Proof. vm_compute. reflexivity. Qed.

Lemma fkey_max_float : fkey max_float = (1, 971, 9007199254740991)%Z.
Proof. vm_compute. reflexivity. Qed.

Lemma fkey_neg_max_float : fkey (- max_float) = (-1, -971, -9007199254740991)%Z.
Proof. vm_compute. reflexivity. Qed.

Lemma isnan_zero : isnan 0 = false.
Proof. reflexivity. Qed.

Lemma isnan_max_float : isnan max_float = false.
Proof. reflexivity. Qed.

Lemma isnan_neg_max_float : isnan (- max_float) = false.
Proof. reflexivity. Qed.

(** Turn every float comparison in the context and the goal into a fact
    on integer keys, then let [lia] decide. *)
Ltac forder_hyps :=
  repeat match goal with
    | H : (_ <=? _) = true |- _ => apply leb_key in H; destruct H as (? & ? & H)
    | H : (_ <? _) = true |- _ => apply ltb_key in H; destruct H as (? & ? & H)
    | H : (_ =? _) = true |- _ => apply eqb_key in H; destruct H as (? & ? & H)
    | H : (_ <=? _) = false |- _ => apply leb_false_key in H
    | H : (_ <? _) = false |- _ => apply ltb_false_key in H
    | H : geb _ _ = _ |- _ => unfold geb in H
    | H : gtb _ _ = _ |- _ => unfold gtb in H
    | H : notnan _ = true |- _ => unfold notnan in H; apply negb_true_iff in H
    | H : notnan _ = false |- _ => unfold notnan in H; apply negb_false_iff in H
    end.

Ltac forder_goal :=
  unfold geb, gtb;
  match goal with
  | |- (_ <=? _) = true => apply leb_key
  | |- (_ <? _) = true => apply ltb_key
  | |- (_ =? _) = true => apply eqb_key
  | |- (_ <=? _) = false => apply leb_false_key
  | |- (_ <? _) = false => apply ltb_false_key
  | |- _ => idtac
  end.

Ltac forder_keys :=
  repeat match goal with
    | H : context [fkey ?x] |- _ =>
        let k := fresh "k" in
        generalize dependent (fkey x); intros [[? ?] ?]; intros
    | |- context [fkey ?x] =>
        let k := fresh "k" in
        generalize dependent (fkey x); intros [[? ?] ?]; intros
    end.

Ltac forder :=
  intros; forder_hyps; forder_goal;
  rewrite ?fkey_zero, ?fkey_infinity, ?fkey_neg_infinity, ?fkey_max_float,
    ?fkey_neg_max_float, ?isnan_zero, ?isnan_max_float,
    ?isnan_neg_max_float in *;
  forder_keys;
  unfold kle, klt, keq in *;
  repeat match goal with
    | H : ?a = true, K : ?a = false |- _ => rewrite H in K; discriminate
    | H : _ \/ _ |- _ => destruct H; try discriminate; try congruence
    end;
  try solve [left; assumption | right; left; assumption | right; right; lia];
  repeat split; try assumption; try congruence; try lia.

Lemma leb_trans (x y z : float) :
  (x <=? y) = true -> (y <=? z) = true -> (x <=? z) = true.
Proof. forder. Qed.

Lemma ltb_leb_trans (x y z : float) :
  (x <? y) = true -> (y <=? z) = true -> (x <? z) = true.
Proof. forder. Qed.

Lemma leb_ltb_trans (x y z : float) :
  (x <=? y) = true -> (y <? z) = true -> (x <? z) = true.
Proof. forder. Qed.

Lemma ltb_leb (x y : float) : (x <? y) = true -> (x <=? y) = true.
Proof. forder. Qed.

Lemma leb_refl (x : float) : isnan x = false -> (x <=? x) = true.
Proof. forder. Qed.

Lemma leb_total_notnan (x y : float) :
  isnan x = false -> isnan y = false ->
  (x <=? y) = true \/ (y <=? x) = true.
Proof.
  intros Hx Hy. destruct (x <=? y) eqn:E; [left; reflexivity|right].
  forder.
Qed.

Lemma leb_false_ltb (x y : float) :
  isnan x = false -> isnan y = false ->
  (x <=? y) = false -> (y <? x) = true.
Proof. forder. Qed.

Lemma ltb_false_leb (x y : float) :
  isnan x = false -> isnan y = false ->
  (x <? y) = false -> (y <=? x) = true.
Proof. forder. Qed.

Lemma ltb_not_leb (x y : float) : (x <? y) = true -> (y <=? x) = false.
Proof. forder. Qed.

Lemma leb_nan_l (x y : float) : isnan x = true -> (x <=? y) = false.
Proof. forder. Qed.

Lemma leb_nan_r (x y : float) : isnan y = true -> (x <=? y) = false.
Proof. forder. Qed.

Lemma ltb_nan_l (x y : float) : isnan x = true -> (x <? y) = false.
Proof. forder. Qed.

Lemma ltb_nan_r (x y : float) : isnan y = true -> (x <? y) = false.
Proof. forder. Qed.

Lemma leb_notnan (x y : float) :
  (x <=? y) = true -> isnan x = false /\ isnan y = false.
Proof. forder. Qed.

(** [np.nan_to_num] keeps a value above a threshold that is not [+inf]. *)
Lemma nan_to_num_ge (t v : float) :
  isnan v = false -> (t <=? max_float) = true -> (t <=? v) = true ->
  geb (nan_to_num v) t = true.
Proof.
  intros Hv Ht Htv. unfold geb, nan_to_num. rewrite Hv.
  destruct (v =? infinity) eqn:E1; [exact Ht|].
  destruct (v =? neg_infinity) eqn:E2; [|exact Htv].
  clear E1 Ht. forder.
Qed.

Lemma nan_to_num_nan (v : float) : isnan v = true -> nan_to_num v = 0.
Proof. intros H. unfold nan_to_num. rewrite H. reflexivity. Qed.

Lemma nan_to_num_finite (v : float) :
  isnan v = false -> isinf v = false -> nan_to_num v = v.
Proof.
  intros Hn Hi. unfold nan_to_num, isinf in *. rewrite Hn.
  apply orb_false_iff in Hi. destruct Hi as [-> ->]. reflexivity.
Qed.

(** Negation reverses the order and keeps NaN. *)
Definition kneg (a : Z * Z * Z) : Z * Z * Z :=
  let '(a1, a2, a3) := a in (- a1, - a2, - a3)%Z.

Lemma fkey_opp (x : float) : fkey (- x) = kneg (fkey x).
Proof.
  unfold fkey. rewrite opp_spec.
  destruct (Prim2SF x) as [[|]|[|]| |[|] m e]; simpl; try reflexivity.
  rewrite Z.opp_involutive. reflexivity.
Qed.

Lemma isnan_opp (x : float) : isnan (- x) = isnan x.
Proof.
  destruct (isnan x) eqn:E.
  - apply isnan_spec. apply isnan_spec in E. rewrite opp_spec, E. reflexivity.
  - apply isnan_false. apply isnan_false in E. rewrite opp_spec.
    destruct (Prim2SF x); simpl; congruence.
Qed.

Lemma opp_leb (x y : float) : (- x <=? - y) = (y <=? x).
Proof.
  apply eq_true_iff_eq. rewrite !leb_key, !fkey_opp, !isnan_opp.
  destruct (fkey x) as [[a1 a2] a3], (fkey y) as [[b1 b2] b3].
  unfold kle, kneg. split; intros (H1 & H2 & H3); repeat split;
    try assumption; lia.
Qed.

Lemma nan_to_zero_notnan (v : float) : isnan (nan_to_zero v) = false.
Proof.
  unfold nan_to_zero. destruct (isnan v) eqn:E; [reflexivity|exact E].
Qed.

End FFacts.

(** ** Effects: diagnostics, exceptions, and the store of float buffers *)

(** What the module reports while it runs.  [logg.info], [logg.debug] and
    [warnings.warn] are kept apart: only the last one is a Python warning. *)
Inductive event : Type :=
| Info_cutoffs_ignored
    (* logg.info("If you pass `n_top_genes`, all cutoffs are ignored.") *)
| Info_n_top_genes_gt_n_var
    (* logg.info("`n_top_genes` > `adata.n_var`, returning all genes.") *)
| Debug_cutoff (n_top_genes : Z) (disp_cut_off : float)
    (* logg.debug(f"the {n_top_genes} top genes correspond to ...") *)
| Warn_n_top_genes_gt_dispersions
    (* warnings.warn("`n_top_genes` > number of normalized dispersions,
       returning all genes with normalized dispersions.", UserWarning) *)
| Debug_single_bin (gen_indices : list nat)
    (* logg.debug(f"Gene indices {gen_indices} fell into a single bin: ...") *).

Definition is_warning (e : event) : bool :=
  match e with
  | Warn_n_top_genes_gt_dispersions => true
  | _ => false
  end.

Inductive exn : Type :=
| IndexError
| ValueError
| KeyError.

(** A NumPy float64 buffer lives in the store; an array or a pandas column
    is a location, so that two names of one buffer see each other's
    writes. *)
Definition loc := nat.

Record state : Type := mkState {
  heap : list (list float);
  events : list event
}.

Definition empty_state : state := mkState [] [].

Inductive outcome (A : Type) : Type :=
| Return (a : A) (s : state)
| Raise (e : exn) (s : state).
Arguments Return {A} a s.
Arguments Raise {A} e s.

Definition M (A : Type) : Type := state -> outcome A.

Definition ret {A} (a : A) : M A := fun s => Return a s.

Definition bind {A B} (m : M A) (k : A -> M B) : M B :=
  fun s => match m s with
           | Return a s' => k a s'
           | Raise e s' => Raise e s'
           end.

Declare Scope py_scope.
Delimit Scope py_scope with py.
Notation "x <- m ;; k" := (bind m (fun x => k))
  (at level 61, m at next level, right associativity) : py_scope.
Notation "m ;;; k" := (bind m (fun _ => k))
  (at level 61, right associativity) : py_scope.
Local Open Scope py_scope.

Definition raise {A} (e : exn) : M A := fun s => Raise e s.

Definition emit (e : event) : M unit :=
  fun s => Return tt (mkState (heap s) (events s ++ [e])).

(** [np.array(...)]: a fresh buffer. *)
Definition alloc (xs : list float) : M loc :=
  fun s => Return (length (heap s)) (mkState (heap s ++ [xs]) (events s)).

Definition load (l : loc) : M (list float) :=
  fun s => Return (nth l (heap s) []) s.

Fixpoint set_nth {A} (i : nat) (x : A) (l : list A) : list A :=
  match l, i with
  | [], _ => []
  | _ :: t, O => x :: t
  | h :: t, S j => h :: set_nth j x t
  end.

Definition store (l : loc) (xs : list float) : M unit :=
  fun s => Return tt (mkState (set_nth l xs (heap s)) (events s)).

(** ** Python and NumPy helpers *)

Definition size {A} (l : list A) : Z := Z.of_nat (length l).

(** [x[i]] on a one-dimensional array with a Python integer index:
    negative indices count from the end, anything else out of range raises
    [IndexError]. *)
Definition py_getitem (x : list float) (i : Z) : M float :=
  if (0 <=? i)%Z && (i <? size x)%Z then ret (nth (Z.to_nat i) x PrimFloat.nan)
  else if (- size x <=? i)%Z && (i <? 0)%Z
       then ret (nth (Z.to_nat (size x + i)) x PrimFloat.nan)
       else raise IndexError.

Definition count_true (l : list bool) : nat := length (filter (fun b => b) l).

(** NumPy's sorting order on floats: the usual order, NaN after everything
    else. *)
Module NpFloatOrder <: Orders.TotalLeBool.
Definition t := float.
Definition leb (a b : float) : bool := (a <=? b)%float || F64.isnan b.
Theorem leb_total : forall a b, leb a b = true \/ leb b a = true.
Proof.
  intros a b. unfold leb.
  destruct (F64.isnan b) eqn:Hb; [left; apply orb_true_r|].
  destruct (F64.isnan a) eqn:Ha; [right; apply orb_true_r|].
  destruct (FFacts.leb_total_notnan a b Ha Hb) as [H|H]; rewrite H; auto.
Qed.
End NpFloatOrder.

Module NpSort := Mergesort.Sort NpFloatOrder.

(** [np.sort] / [ndarray.sort] on a float64 array (ascending). *)
Definition np_sort (x : list float) : list float := NpSort.sort x.

(** ** The cutoff policy *)

Record _Cutoffs : Type := mk_Cutoffs {
  min_disp : float;
  max_disp : float;
  min_mean : float;
  max_mean : float
}.

(** [cutoff: _Cutoffs | int] *)
Inductive cutoff_t : Type :=
| Interval (c : _Cutoffs)
| TopN (n_top_genes : Z).

(** The default values of the four bounds in the signature of
    [highly_variable_genes]. *)
Definition default_cutoffs : _Cutoffs :=
  mk_Cutoffs 0.5%float infinity 0x1.999999999999ap-7%float 3%float.

Definition cutoffs_eqb (a b : _Cutoffs) : bool :=
  (min_disp a =? min_disp b)%float && (max_disp a =? max_disp b)%float &&
  (min_mean a =? min_mean b)%float && (max_mean a =? max_mean b)%float.

(** [_Cutoffs.validate] *)
Definition validate (n_top_genes : option Z) (c : _Cutoffs) : M cutoff_t :=
  match n_top_genes with
  | None => ret (Interval c)
  | Some n =>
      (if negb (cutoffs_eqb c default_cutoffs)
       then emit Info_cutoffs_ignored else ret tt) ;;;
      ret (TopN n)
  end.

(** One gene of [_Cutoffs.in_bounds]: the four comparisons, joined by [&]. *)
Definition in_bounds1 (c : _Cutoffs) (mean dispersion_norm : float) : bool :=
  F64.gtb mean (min_mean c)
  && (mean <? max_mean c)%float
  && F64.gtb dispersion_norm (min_disp c)
  && (dispersion_norm <? max_disp c)%float.

(** NumPy pairs the elements of two one-dimensional arrays when their
    lengths agree or one of them has length 1; otherwise the operation
    raises [ValueError]. *)
Definition broadcast2 {A B C} (f : A -> B -> C) (a : list A) (b : list B)
  : option (list C) :=
  if Nat.eqb (length a) (length b)
  then Some (map (fun p => f (fst p) (snd p)) (combine a b))
  else match a, b with
       | [x], _ => Some (map (f x) b)
       | _, [y] => Some (map (fun x => f x y) a)
       | _, _ => None
       end.

(** [_Cutoffs.in_bounds] on arrays. *)
Definition in_bounds (c : _Cutoffs) (mean dispersion_norm : list float)
  : option (list bool) :=
  broadcast2 (in_bounds1 c) mean dispersion_norm.

Definition lift_shape {A} (o : option A) : M A :=
  match o with
  | Some a => ret a
  | None => raise ValueError
  end.

(** [_nth_highest]: the boolean indexing makes a copy, so the caller's
    array is neither reordered nor shortened. *)
Definition _nth_highest (x : list float) (n : Z) : M float :=
  let x := filter F64.notnan x in
  n <- (if (n >? size x)%Z
        then emit Warn_n_top_genes_gt_dispersions ;;; ret (size x)
        else ret n) ;;
  (* x[::-1].sort(): the reversed view is sorted ascending in place *)
  let x := rev (np_sort (rev x)) in
  py_getitem x (n - 1).

(** [_subset_genes]; [n_vars] is [adata.n_vars], [dispersion_norm] is the
    array the caller passes, which the interval branch overwrites. *)
Definition _subset_genes (n_vars : Z) (mean : list float)
    (dispersion_norm : loc) (cutoff : cutoff_t) : M (list bool) :=
  match cutoff with
  | Interval c =>
      d <- load dispersion_norm ;;
      store dispersion_norm (map F64.nan_to_zero d) ;;;
      d' <- load dispersion_norm ;;
      lift_shape (in_bounds c mean d')
  | TopN n_top_genes =>
      n_top_genes <- (if (n_top_genes >? n_vars)%Z
                      then emit Info_n_top_genes_gt_n_var ;;; ret n_vars
                      else ret n_top_genes) ;;
      d <- load dispersion_norm ;;
      disp_cut_off <- _nth_highest d n_top_genes ;;
      emit (Debug_cutoff n_top_genes disp_cut_off) ;;;
      ret (map (fun v => F64.geb (F64.nan_to_num v) disp_cut_off) d)
  end.

(** ** Expression data *)

(** The cells-by-genes matrix, one row per cell. *)
Definition matrix := list (list float).

Record AnnData : Type := mk_AnnData {
  X : matrix;                          (* _get_obs_rep(adata, layer=layer) *)
  var_names : list String.string;      (* adata.var_names *)
  obs_batch : list nat;                (* codes of adata.obs[batch_key] *)
  n_categories : nat;                  (* len(adata.obs[batch_key].cat.categories) *)
  uns_log1p_base : option (option float)  (* adata.uns["log1p"].get("base") *)
}.

(** [adata.n_vars] *)
Definition n_vars (a : AnnData) : Z := size (var_names a).

(** Boolean-mask indexing [xs[mask]]. *)
Definition mask_select {A} (xs : list A) (mask : list bool) : list A :=
  map fst (filter snd (combine xs mask)).

(** [adata[adata.obs[batch_key] == batch]] *)
Definition subset_obs (a : AnnData) (batch : nat) : AnnData :=
  let keep := map (Nat.eqb batch) (obs_batch a) in
  mk_AnnData (mask_select (X a) keep) (var_names a)
    (mask_select (obs_batch a) keep) (n_categories a) (uns_log1p_base a).

(** [adata[:, filt]] *)
Definition subset_var (a : AnnData) (filt : list bool) : AnnData :=
  mk_AnnData (map (fun row => mask_select row filt) (X a))
    (mask_select (var_names a) filt)
    (obs_batch a) (n_categories a) (uns_log1p_base a).

Inductive flavor_t : Type :=
| Seurat
| CellRanger
| OtherFlavor.   (* any other string reaching the dispersion-based code *)

(** ** pandas reductions over one group

    [mean], [std(ddof=1)] and [median] of a group of a float column; all
    three skip NaN entries.  The grouped mean adds with a compensated sum,
    [np.std] with a plain one. *)

Definition fsum (xs : list float) : float := fold_left PrimFloat.add xs 0%float.

(** The float of a length. *)
Definition float_of_nat (n : nat) : float :=
  PrimFloat.of_uint63 (Uint63.of_Z (Z.of_nat n)).

(** The compensated (Kahan) sum behind pandas' grouped ["mean"]: the
    running sum and its compensation; a compensation that turns NaN, as it
    does once an infinite value was added, is reset to 0. *)
Definition kahan_step (acc : float * float) (val : float) : float * float :=
  let '(sumx, compensation) := acc in
  let y := (val - compensation)%float in
  let t := (sumx + y)%float in
  let c := (t - sumx - y)%float in
  (t, if F64.isnan c then 0%float else c).

Definition kahan_sum (xs : list float) : float :=
  fst (fold_left kahan_step xs (0%float, 0%float)).

Definition nanmean (xs : list float) : float :=
  let v := filter F64.notnan xs in
  match v with
  | [] => PrimFloat.nan
  | _ => (kahan_sum v / float_of_nat (length v))%float
  end.

Definition nanstd_ddof1 (xs : list float) : float :=
  let v := filter F64.notnan xs in
  if (length v <=? 1)%nat then PrimFloat.nan
  else
    let mu := (fsum v / float_of_nat (length v))%float in
    PrimFloat.sqrt
      (fsum (map (fun x => ((x - mu) * (x - mu))%float) v)
       / float_of_nat (length v - 1))%float.

Definition nanmedian (xs : list float) : float :=
  let v := np_sort (filter F64.notnan xs) in
  let n := length v in
  match n with
  | O => PrimFloat.nan
  | _ => if Nat.even n
         then ((nth (n / 2 - 1) v PrimFloat.nan + nth (n / 2) v PrimFloat.nan) / 2)%float
         else nth (n / 2) v PrimFloat.nan
  end.

(** ** Per-bin statistics *)

(** One line of [disp_bin_stats]: the bin, its location [avg] and its
    scale [dev]. *)
Record bin_stat : Type := mk_bin_stat {
  bin : nat;
  avg : float;
  dev : float
}.

(** The bins that hold at least one gene, in increasing order
    ([groupby(..., observed=True)]). *)
Definition observed_bins (mean_bins : list nat) : list nat :=
  filter (fun b => existsb (Nat.eqb b) mean_bins)
         (seq 0 (S (list_max mean_bins))).

(** The dispersions of the genes of bin [b]. *)
Definition group (mean_bins : list nat) (dispersions : list float) (b : nat)
  : list float :=
  mask_select dispersions (map (Nat.eqb b) mean_bins).

(** [disp_grouped.agg(...)] with two reductions. *)
Definition agg2 (loc_stat scale_stat : list float -> float)
    (mean_bins : list nat) (dispersions : list float) : list bin_stat :=
  map (fun b => let g := group mean_bins dispersions b in
                mk_bin_stat b (loc_stat g) (scale_stat g))
      (observed_bins mean_bins).

Definition lookup_bin (stats : list bin_stat) (b : nat) : option bin_stat :=
  find (fun r => Nat.eqb (bin r) b) stats.

(** [_unbin]: [df.loc[mean_bins]], one line per gene. *)
Fixpoint _unbin (stats : list bin_stat) (mean_bins : list nat)
  : M (list bin_stat) :=
  match mean_bins with
  | [] => ret []
  | b :: rest =>
      match lookup_bin stats b with
      | Some r => rs <- _unbin stats rest ;; ret (r :: rs)
      | None => raise KeyError
      end
  end.

(** [np.flatnonzero] *)
Definition flatnonzero (flags : list bool) : list nat :=
  map fst (filter snd (combine (seq 0 (length flags)) flags)).

(** [_stats_seurat].  The two assignments through
    [disp_bin_stats["dev"].loc[...]] and [disp_bin_stats["avg"].loc[...]]
    write to the table itself, as pandas does without copy-on-write. *)
Definition _stats_seurat (mean_bins : list nat) (dispersions : list float)
  : M (list bin_stat) :=
  let disp_bin_stats := agg2 nanmean nanstd_ddof1 mean_bins dispersions in
  let one_gene_per_bin (r : bin_stat) : bool := F64.isnan (dev r) in
  (* one_gene_per_bin.loc[mean_bins] *)
  flags <- _unbin disp_bin_stats mean_bins ;;
  let gen_indices := flatnonzero (map one_gene_per_bin flags) in
  disp_bin_stats <-
    (if (0 <? length gen_indices)%nat
     then
       emit (Debug_single_bin gen_indices) ;;;
       (* disp_bin_stats["dev"].loc[one_gene_per_bin] = disp_bin_stats["avg"]... *)
       let step1 :=
         map (fun r => if one_gene_per_bin r
                       then mk_bin_stat (bin r) (avg r) (avg r) else r)
             disp_bin_stats in
       (* disp_bin_stats["avg"].loc[one_gene_per_bin] = 0 *)
       let step2 :=
         map (fun p => if one_gene_per_bin (fst p)
                       then mk_bin_stat (bin (snd p)) 0%float (dev (snd p))
                       else snd p)
             (combine disp_bin_stats step1) in
       ret step2
     else ret disp_bin_stats) ;;
  _unbin disp_bin_stats mean_bins.

(** [_stats_cell_ranger]; [mad] is the aggregator [get_mad(dask=...)]
    hands to [_aggregate]. *)
Definition _stats_cell_ranger (mad : list float -> float)
    (mean_bins : list nat) (dispersions : list float) : M (list bin_stat) :=
  let disp_bin_stats := agg2 nanmedian mad mean_bins dispersions in
  _unbin disp_bin_stats mean_bins.

(** [np.median]: NaN as soon as one entry is NaN. *)
Definition np_median (xs : list float) : float :=
  if existsb F64.isnan xs then PrimFloat.nan else nanmedian xs.

(** [statsmodels.robust.mad] with its default arguments, the function
    [get_mad] returns for in-memory data: the median of the absolute
    deviations from the median, over [norm.ppf(3/4)]. *)
Definition statsmodels_mad (a : list float) : float :=
  let center := np_median a in
  np_median (map (fun x => (abs (x - center) / 0x1.5956b87528a49p-1)%float) a).

(** ** Tables *)

(** The frame [_highly_variable_genes_single_batch] returns.  The column
    [dispersions_norm] is a buffer of the store: [_subset_genes] writes to
    it through the array that [series_to_array] hands out. *)
Record hvg_frame : Type := mk_hvg_frame {
  hvg_gene : list String.string;
  hvg_means : list float;
  hvg_dispersions : list float;
  hvg_mean_bin : list nat;
  hvg_dispersions_norm : loc;
  hvg_highly_variable : list bool
}.

(** One line of a per-batch frame after [reset_index], as [pd.concat]
    copies it. *)
Record hvg_row : Type := mk_hvg_row {
  row_gene : String.string;
  row_means : float;
  row_dispersions : float;
  row_dispersions_norm : float;
  row_highly_variable : bool
}.

(** The frame [_highly_variable_genes_batched] returns. *)
Record batched_frame : Type := mk_batched_frame {
  bf_gene : list String.string;
  bf_means : list float;
  bf_dispersions : list float;
  bf_dispersions_norm : loc;
  bf_highly_variable : list bool;
  bf_highly_variable_nbatches : list Z;
  bf_highly_variable_intersection : list bool
}.

Module StringOrder <: Orders.TotalLeBool.
Definition t := String.string.
Definition leb := String.leb.
Definition leb_total := String.leb_total.
End StringOrder.

Module StringSort := Mergesort.Sort StringOrder.

(** The keys of [groupby("gene")]: each gene name once, sorted. *)
Definition group_keys (genes : list String.string) : list String.string :=
  StringSort.sort (nodup String.string_dec genes).

(** The order of [sort_values(["highly_variable_nbatches",
    "dispersions_norm"], ascending=False, na_position="last")] on lines
    (nbatches, dispersions_norm, position). *)
Module RankOrder <: Orders.TotalLeBool.
Definition t := (Z * float * nat)%type.
Definition leb (a b : t) : bool :=
  let '(na, da, _) := a in
  let '(nb, db, _) := b in
  (nb <? na)%Z
  || ((nb =? na)%Z
      && (F64.isnan db || (negb (F64.isnan da) && (db <=? da)%float))).
Definition leb_total : forall a b, leb a b = true \/ leb b a = true.
Proof.
  intros [[na da] ia] [[nb db] ib]. unfold leb.
  destruct (Z.ltb_spec nb na); [left; reflexivity|].
  destruct (Z.ltb_spec na nb); [right; reflexivity|].
  replace (nb =? na)%Z with true by (symmetry; apply Z.eqb_eq; lia).
  replace (na =? nb)%Z with true by (symmetry; apply Z.eqb_eq; lia).
  simpl.
  destruct (F64.isnan db) eqn:Hb; [left; reflexivity|].
  destruct (F64.isnan da) eqn:Ha; [right; reflexivity|].
  simpl. destruct (FFacts.leb_total_notnan da db Ha Hb) as [K|K];
    rewrite K; auto.
Defined.
End RankOrder.

(** A stable sort, as pandas uses for [sort_values] over several columns:
    lines that the order does not tell apart stay in input order. *)
Fixpoint insert_line {A} (leb : A -> A -> bool) (x : A) (l : list A)
  : list A :=
  match l with
  | [] => [x]
  | y :: l' => if leb x y then x :: l else y :: insert_line leb x l'
  end.

Definition stable_sort {A} (leb : A -> A -> bool) (l : list A) : list A :=
  fold_right (insert_line leb) [] l.

Definition take_rows {A} (order : list nat) (col : list A) (d : A) : list A :=
  map (fun i => nth i col d) order.

(** ** The dispersion-based flavors *)

Section DispersionFlavors.

(** Code outside this file: the mean and variance of every gene
    ([_utils._get_mean_var]), NumPy's [log], [log1p] and [expm1],
    [pd.cut] with a bin count and with explicit edges, [np.percentile],
    the MAD aggregator ([_distributed.get_mad]), the gene filter
    ([_simple.filter_genes] with [min_cells=1]) and
    [_distributed.series_to_array]. *)
Variable _get_mean_var : matrix -> list float * list float.
Variables np_log np_log1p np_expm1 : float -> float.
Variable pd_cut_n : list float -> Z -> list nat.
Variable pd_cut_edges : list float -> list float -> list nat.
Variable np_percentile : list float -> list float -> list float.
Variable get_mad : list float -> float.
Variable filter_genes : matrix -> list bool.
Variable series_to_array : loc -> M loc.

(** [np.arange(10, 105, 5)] *)
Definition percentile_points : list float :=
  [10; 15; 20; 25; 30; 35; 40; 45; 50; 55; 60; 65; 70; 75; 80; 85; 90; 95;
   100]%float.

(** [_get_mean_bins] *)
Definition _get_mean_bins (means : list float) (flavor : flavor_t)
    (n_bins : Z) : M (list nat) :=
  match flavor with
  | Seurat => ret (pd_cut_n means n_bins)
  | CellRanger =>
      ret (pd_cut_edges means
             (neg_infinity :: np_percentile means percentile_points
              ++ [infinity]))
  | OtherFlavor => raise ValueError
  end.

(** [_highly_variable_genes_single_batch] *)
Definition _highly_variable_genes_single_batch (adata : AnnData)
    (cutoff : cutoff_t) (n_bins : Z) (flavor : flavor_t) : M hvg_frame :=
  let data := X adata in
  let data :=
    match flavor with
    | Seurat =>
        let data :=
          match uns_log1p_base adata with
          | Some (Some base) =>
              map (map (fun x => (x * np_log base)%float)) data
          | _ => data
          end in
        map (map np_expm1) data
    | _ => data
    end in
  let '(mean, var) := _get_mean_var data in
  (* mean[mean == 0] = 1e-12 *)
  let mean :=
    map (fun m => if (m =? 0)%float then 0x1.19799812dea11p-40%float else m)
        mean in
  dispersion <- lift_shape (broadcast2 PrimFloat.div var mean) ;;
  let dispersion :=
    match flavor with
    | Seurat =>
        map np_log
          (map (fun d => if (d =? 0)%float then PrimFloat.nan else d)
               dispersion)
    | _ => dispersion
    end in
  let mean :=
    match flavor with
    | Seurat => map np_log1p mean
    | _ => mean
    end in
  mean_bin <- _get_mean_bins mean flavor n_bins ;;
  disp_stats <-
    match flavor with
    | Seurat => _stats_seurat mean_bin dispersion
    | CellRanger => _stats_cell_ranger get_mad mean_bin dispersion
    | OtherFlavor => raise ValueError
    end ;;
  (* actually do the normalization *)
  dispersions_norm <-
    lift_shape
      (broadcast2 (fun d st => ((d - avg st) / dev st)%float)
                  dispersion disp_stats) ;;
  column <- alloc dispersions_norm ;;
  arr <- series_to_array column ;;
  highly_variable <- _subset_genes (n_vars adata) mean arr cutoff ;;
  ret (mk_hvg_frame (var_names adata) mean dispersion mean_bin column
         highly_variable).

(** The lines of a per-batch frame. *)
Definition frame_rows (f : hvg_frame) (dispersions_norm : list float)
  : list hvg_row :=
  map (fun i =>
         mk_hvg_row (nth i (hvg_gene f) String.EmptyString)
           (nth i (hvg_means f) PrimFloat.nan)
           (nth i (hvg_dispersions f) PrimFloat.nan)
           (nth i dispersions_norm PrimFloat.nan)
           (nth i (hvg_highly_variable f) false))
      (seq 0 (length (hvg_gene f))).

(** A line of [missing_hvg]: zeros, not selected. *)
Definition missing_row (g : String.string) : hvg_row :=
  mk_hvg_row g 0%float 0%float 0%float false.

(** The body of the loop over batches: the frame appended to [dfs]. *)
Definition batch_frame (adata : AnnData) (cutoff : cutoff_t) (n_bins : Z)
    (flavor : flavor_t) (batch : nat) : M (list hvg_row) :=
  let gene_list := var_names adata in
  let adata_subset := subset_obs adata batch in
  let filt := filter_genes (X adata_subset) in
  let adata_subset := subset_var adata_subset filt in
  hvg <- _highly_variable_genes_single_batch adata_subset cutoff n_bins
           flavor ;;
  dn <- load (hvg_dispersions_norm hvg) ;;
  let hvg := frame_rows hvg dn in
  let n_removed := count_true (map negb filt) in
  ret (if (0 <? n_removed)%nat
       then hvg ++ map missing_row (mask_select gene_list (map negb filt))
       else hvg).

Fixpoint for_each {A B} (f : A -> M B) (l : list A) : M (list B) :=
  match l with
  | [] => ret []
  | a :: rest => b <- f a ;; bs <- for_each f rest ;; ret (b :: bs)
  end.

(** The lines of one gene in the concatenated frame. *)
Definition rows_of (df : list hvg_row) (g : String.string) : list hvg_row :=
  filter (fun r => String.eqb (row_gene r) g) df.

(** [astype(int)] followed by the ["sum"] aggregation. *)
Definition sum_selected (rows : list hvg_row) : Z :=
  fold_left Z.add (map (fun r => Z.b2z (row_highly_variable r)) rows) 0%Z.

(** The last step of [_highly_variable_genes_batched]: the final
    [highly_variable] column.  [means], [dispersions], [nbatches] are the
    aggregated columns, [dn] the buffer of the aggregated
    [dispersions_norm]. *)
Definition batched_select (cutoff : cutoff_t) (genes : list String.string)
    (means dispersions : list float) (dn : loc) (nbatches : list Z)
    (intersection : list bool) : M batched_frame :=
  match cutoff with
  | TopN cutoff =>
      d <- load dn ;;
      let lines :=
        map (fun i => (nth i nbatches 0%Z, nth i d PrimFloat.nan, i))
            (seq 0 (length genes)) in
      let order := map snd (stable_sort RankOrder.leb lines) in
      dn' <- alloc (take_rows order d PrimFloat.nan) ;;
      ret (mk_batched_frame
             (take_rows order genes String.EmptyString)
             (take_rows order means PrimFloat.nan)
             (take_rows order dispersions PrimFloat.nan)
             dn'
             (* np.arange(df.shape[0]) < cutoff *)
             (map (fun i => (Z.of_nat i <? cutoff)%Z) (seq 0 (length genes)))
             (take_rows order nbatches 0%Z)
             (take_rows order intersection false))
  | Interval c =>
      dispersion_norm <- series_to_array dn ;;
      d <- load dispersion_norm ;;
      store dispersion_norm (map F64.nan_to_zero d) ;;;
      column <- load dn ;;
      highly_variable <- lift_shape (in_bounds c means column) ;;
      ret (mk_batched_frame genes means dispersions dn highly_variable
             nbatches intersection)
  end.

(** [_highly_variable_genes_batched] *)
Definition _highly_variable_genes_batched (adata : AnnData)
    (n_bins : Z) (flavor : flavor_t) (cutoff : cutoff_t) : M batched_frame :=
  let batches := seq 0 (n_categories adata) in
  dfs <- for_each (batch_frame adata cutoff n_bins flavor) batches ;;
  (* isinstance(dfs[0], DaskDataFrame): with no batch the list is empty *)
  match dfs with [] => raise IndexError | _ :: _ => ret tt end ;;;
  let df := concat dfs in
  let genes := group_keys (map row_gene df) in
  let means := map (fun g => nanmean (map row_means (rows_of df g))) genes in
  let dispersions :=
    map (fun g => nanmean (map row_dispersions (rows_of df g))) genes in
  dn <- alloc (map (fun g => nanmean (map row_dispersions_norm (rows_of df g)))
                   genes) ;;
  let highly_variable := map (fun g => sum_selected (rows_of df g)) genes in
  let highly_variable_nbatches := highly_variable in
  let highly_variable_intersection :=
    map (fun n => (n =? Z.of_nat (length batches))%Z)
        highly_variable_nbatches in
  batched_select cutoff genes means dispersions dn highly_variable_nbatches
    highly_variable_intersection.

(** [highly_variable_genes] for the flavors "seurat" and "cell_ranger":
    the cutoff policy is fixed first, then the data goes to the
    single-batch or to the batched computation; [batch_key] tells whether
    a batch key was given. *)
Definition highly_variable_genes (adata : AnnData) (n_top_genes : option Z)
    (bounds : _Cutoffs) (n_bins : Z) (flavor : flavor_t) (batch_key : bool)
  : M (hvg_frame + batched_frame) :=
  cutoff <- validate n_top_genes bounds ;;
  if batch_key
  then df <- _highly_variable_genes_batched adata n_bins flavor cutoff ;;
       ret (inr df)
  else df <- _highly_variable_genes_single_batch adata cutoff n_bins flavor ;;
       ret (inl df).

End DispersionFlavors.

(** ** The Seurat v3 flavor *)

(** A [scipy.sparse.csr_matrix]: the stored values, the gene (column) of
    each, the row pointers and the shape. *)
Record csr_matrix : Type := mk_csr {
  csr_data : list float;
  csr_indices : list nat;
  csr_indptr : list nat;
  csr_shape : nat * nat
}.

(** [data]: a dense array (one row per cell) or a sparse matrix. *)
Inductive counts_t : Type :=
| Dense (rows : matrix)
| Sparse (m : csr_matrix).

(** [data_batch.shape[0]] *)
Definition n_obs (d : counts_t) : Z :=
  match d with
  | Dense rows => size rows
  | Sparse m => Z.of_nat (fst (csr_shape m))
  end.

(** A Python integer as a float64 (cell counts are far below 2^63). *)
Definition float_of_Z (z : Z) : float :=
  if (z <? 0)%Z then (- PrimFloat.of_uint63 (Uint63.of_Z (- z)))%float
  else PrimFloat.of_uint63 (Uint63.of_Z z).

Definition np_square (x : float) : float := (x * x)%float.

(** One entry under [np.putmask(a, a > clip, clip)]. *)
Definition clip1 (x clip : float) : float := if F64.gtb x clip then clip else x.

(** [a[mask] = values] on a one-dimensional array: the mask has the shape
    of [a], and [values] has one entry per [True] of the mask or is a
    single value. *)
Fixpoint scatter (a : list float) (mask : list bool) (values : list float)
  : list float :=
  match a, mask with
  | x :: a', true :: mask' =>
      match values with
      | v :: values' => v :: scatter a' mask' values'
      | [] => x :: scatter a' mask' []
      end
  | x :: a', false :: mask' => x :: scatter a' mask' values
  | _, _ => a
  end.

Definition mask_assign (a : list float) (mask : list bool)
    (values : list float) : M (list float) :=
  if negb (Nat.eqb (length mask) (length a)) then raise IndexError
  else if Nat.eqb (length values) (count_true mask)
       then ret (scatter a mask values)
       else match values with
            | [v] => ret (map (fun p : float * bool => if snd p then v else fst p)
                              (combine a mask))
            | _ => raise ValueError
            end.

(** [np.broadcast_to(clip_val, batch_counts.shape)], one row of it. *)
Definition broadcast_to_row (clip_val : list float) (row : list float)
  : M (list float) :=
  if Nat.eqb (length clip_val) (length row) then ret clip_val
  else match clip_val with
       | [c] => ret (map (fun _ => c) row)
       | _ => raise ValueError
       end.

(** Column [j] of a dense array. *)
Definition column (rows : matrix) (j : nat) : list float :=
  map (fun row => nth j row 0%float) rows.

(** The stored entries of column [j] of a sparse matrix with values
    [data]. *)
Definition csr_column (data : list float) (indices : list nat) (j : nat)
  : list float :=
  map fst (filter (fun p => Nat.eqb (snd p) j) (combine data indices)).

(** A rank as [highly_variable_rank] holds it: ranks are float32 integers
    below the gene count, their medians may fall half way between two
    integers, and a gene outside the top N of every batch has NaN. *)
Inductive rank_value : Type :=
| RankNaN
| RankInt (r : nat)
| RankHalf (r : nat).   (* r + 1/2 *)

(** [np.ma.median(...).filled(np.nan)] over the ranks of one gene, masked
    entries being [None]. *)
Definition ma_median (col : list (option nat)) : rank_value :=
  let v := NatSort.sort (flat_map (fun o => match o with
                                            | Some r => [r]
                                            | None => []
                                            end) col) in
  let n := length v in
  match n with
  | O => RankNaN
  | _ => if Nat.even n
         then let t := (nth (n / 2 - 1) v 0 + nth (n / 2) v 0)%nat in
              if Nat.even t then RankInt (t / 2) else RankHalf (t / 2)
         else RankInt (nth (n / 2) v 0)
  end.

Section SeuratV3.

(** Code outside this file: [_utils._get_mean_var], the fitted values of
    [skmisc.loess.loess(x, y, span=span, degree=2)], NumPy's [log10],
    [10 ** x], a sum over the cell axis, [np.argsort] on a float row and
    on an integer row, and row selection on a sparse matrix. *)
Variable _get_mean_var : counts_t -> list float * list float.
Variable loess_fitted_values : list float -> list float -> float -> list float.
Variable np_log10 : float -> float.
Variable pow10 : float -> float.
Variable np_sum : list float -> float.
Variable argsort_float : list float -> list nat.
Variable argsort_int : list nat -> list nat.
Variable csr_select_rows : csr_matrix -> list bool -> csr_matrix.

(** [data[batch_info == b]] *)
Definition select_batch (data : counts_t) (batch_info : list nat) (b : nat)
  : counts_t :=
  let keep := map (Nat.eqb b) batch_info in
  match data with
  | Dense rows => Dense (mask_select rows keep)
  | Sparse m => Sparse (csr_select_rows m keep)
  end.

(** The estimated variance of one batch: zero, overwritten by the fitted
    values for the genes whose variance is positive. *)
Definition estimate_variance (n_genes : nat) (mean var : list float)
    (span : float) : M (list float) :=
  let not_const := map (fun v => F64.gtb v 0) var in
  let estimat_var := repeat 0%float n_genes in
  let y := map np_log10 (mask_select var not_const) in
  let x := map np_log10 (mask_select mean not_const) in
  let fitted_values := loess_fitted_values x y span in
  mask_assign estimat_var not_const fitted_values.

(** The clipped counts summed over the cells: the sum of squares and the
    sum, per gene. *)
Definition clipped_sums (data_batch : counts_t) (clip_val : list float)
  : M (list float * list float) :=
  match data_batch with
  | Sparse m =>
      (* mask = data > clip_val[indices]; data[mask] = clip_val[indices[mask]] *)
      let data :=
        map (fun p => clip1 (fst p) (nth (snd p) clip_val PrimFloat.nan))
            (combine (csr_data m) (csr_indices m)) in
      let genes := seq 0 (snd (csr_shape m)) in
      ret (map (fun j => np_sum (map np_square (csr_column data (csr_indices m) j)))
               genes,
           map (fun j => np_sum (csr_column data (csr_indices m) j)) genes)
  | Dense rows =>
      batch_counts <-
        for_each (fun row =>
                    clip_val_broad <- broadcast_to_row clip_val row ;;
                    ret (map (fun p => clip1 (fst p) (snd p))
                             (combine row clip_val_broad)))
                 rows ;;
      let genes := seq 0 (length clip_val) in
      ret (map (fun j => np_sum (map np_square (column batch_counts j))) genes,
           map (fun j => np_sum (column batch_counts j)) genes)
  end.

(** The normalized variance of one gene from the clipped sums. *)
Definition norm_gene_var1 (N : Z) (reg_std mean squared_batch_counts_sum
    batch_counts_sum : float) : float :=
  ((1 / (float_of_Z (N - 1) * np_square reg_std))
   * ((float_of_Z N * np_square mean)
      + squared_batch_counts_sum
      - 2 * batch_counts_sum * mean))%float.

(** The body of the loop over batches: [norm_gene_var] of one batch. *)
Definition seurat_v3_batch (n_genes : nat) (data_batch : counts_t)
    (span : float) : M (list float) :=
  let '(mean, var) := _get_mean_var data_batch in
  estimat_var <- estimate_variance n_genes mean var span ;;
  let reg_std := map (fun e => PrimFloat.sqrt (pow10 e)) estimat_var in
  let N := n_obs data_batch in
  let vmax := PrimFloat.sqrt (float_of_Z N) in
  clip_val <-
    lift_shape (broadcast2 (fun r m => (r * vmax + m)%float) reg_std mean) ;;
  sums <- clipped_sums data_batch clip_val ;;
  let squared_batch_counts_sum := fst sums in
  let batch_counts_sum := snd sums in
  let n := length reg_std in
  if Nat.eqb (length mean) n && Nat.eqb (length squared_batch_counts_sum) n
     && Nat.eqb (length batch_counts_sum) n
  then ret (map (fun j =>
                   norm_gene_var1 N (nth j reg_std PrimFloat.nan)
                     (nth j mean PrimFloat.nan)
                     (nth j squared_batch_counts_sum PrimFloat.nan)
                     (nth j batch_counts_sum PrimFloat.nan))
                (seq 0 n))
  else raise ValueError.

(** [np.argsort(np.argsort(-norm_gene_vars, axis=1), axis=1)], one row. *)
Definition rank_row (norm_gene_var : list float) : list nat :=
  argsort_int (argsort_float (map PrimFloat.opp norm_gene_var)).

(** The rank columns: [num_batches_high_var] and [median_ranked]. *)
Definition seurat_v3_ranks (n_genes : nat) (norm_gene_vars : list (list float))
    (n_top_genes : Z) : list Z * list rank_value :=
  let ranked_norm_gene_vars := map rank_row norm_gene_vars in
  let num_batches_high_var :=
    map (fun j =>
           fold_left Z.add
             (map (fun row => Z.b2z (Z.of_nat (nth j row 0%nat) <? n_top_genes)%Z)
                  ranked_norm_gene_vars)
             0%Z)
        (seq 0 n_genes) in
  (* ranked_norm_gene_vars[ranked_norm_gene_vars >= n_top_genes] = np.nan *)
  let masked :=
    map (map (fun r => if (Z.of_nat r >=? n_top_genes)%Z then None else Some r))
        ranked_norm_gene_vars in
  let median_ranked :=
    map (fun j => ma_median (map (fun row => nth j row None) masked))
        (seq 0 n_genes) in
  (num_batches_high_var, median_ranked).

(** [np.unique(batch_info)]: the batches, each once, in increasing
    order. *)
Definition np_unique (batch_info : list nat) : list nat :=
  observed_bins batch_info.

(** [_highly_variable_genes_seurat_v3] up to the columns
    [highly_variable_nbatches] and [highly_variable_rank]: the loop over
    the batches, then the ranks.  [n_genes] is [data.shape[1]]. *)
Definition seurat_v3_rank_columns (data : counts_t) (n_genes : nat)
    (batch_info : list nat) (n_top_genes : Z) (span : float)
  : M (list Z * list rank_value) :=
  norm_gene_vars <-
    for_each (fun b =>
                seurat_v3_batch n_genes (select_batch data batch_info b) span)
             (np_unique batch_info) ;;
  ret (seurat_v3_ranks n_genes norm_gene_vars n_top_genes).

End SeuratV3.

(** An [np.argsort] that sorts the positions of a float row by value and,
    among equal values, by a tie key. *)
Module TieOrder <: Orders.TotalLeBool.
Definition t := (float * Z * nat)%type.
Definition np_lt (a b : float) : bool := negb (NpFloatOrder.leb b a).
Definition leb (x y : t) : bool :=
  let '(a, ka, _) := x in
  let '(b, kb, _) := y in
  np_lt a b || (negb (np_lt b a) && (ka <=? kb)%Z).
Definition leb_total : forall x y, leb x y = true \/ leb y x = true.
Proof.
  intros [[a ka] ia] [[b kb] ib]. unfold leb, np_lt.
  destruct (NpFloatOrder.leb_total a b) as [H|H]; rewrite H; simpl.
  - destruct (NpFloatOrder.leb b a); simpl; [|left; reflexivity].
    destruct (Z.leb_spec ka kb); [left; reflexivity|].
    right. apply Z.leb_le. lia.
  - destruct (NpFloatOrder.leb a b); simpl; [|right; reflexivity].
    destruct (Z.leb_spec ka kb); [left; reflexivity|].
    right. apply Z.leb_le. lia.
Defined.
End TieOrder.

Module TieSort := Mergesort.Sort TieOrder.

Definition argsort_with (tie : nat -> Z) (v : list float) : list nat :=
  map snd
    (TieSort.sort
       (map (fun i => (nth i v PrimFloat.nan, tie i, i)) (seq 0 (length v)))).

(** Ties in input order. *)
Definition argsort_stable : list float -> list nat :=
  argsort_with (fun i => Z.of_nat i).

Module NatKeyOrder <: Orders.TotalLeBool.
Definition t := (nat * nat)%type.
Definition leb (x y : t) : bool := Nat.leb (fst x) (fst y).
Definition leb_total : forall x y, leb x y = true \/ leb y x = true.
Proof.
  intros x y. unfold leb.
  destruct (Nat.leb_spec (fst x) (fst y)); [left; reflexivity|].
  right. apply Nat.leb_le. lia.
Defined.
End NatKeyOrder.

Module NatKeySort := Mergesort.Sort NatKeyOrder.

(** [np.argsort] on an integer row. *)
Definition argsort_nat (p : list nat) : list nat :=
  map snd (NatKeySort.sort (map (fun i => (nth i p 0, i)) (seq 0 (length p)))).

(** ** NumPy's default [np.argsort] on a float row

    [_highly_variable_genes_seurat_v3] calls [np.argsort] with its default
    [kind="quicksort"].  What follows is NumPy's scalar routine behind it
    ([aquicksort_] of [numpy/_core/src/npysort/quicksort.cpp], a library
    routine and no part of this repository): an introsort on the index
    array [tosort], with a median of three, an insertion sort for a range
    of at most 17 entries and a heapsort for a range whose depth limit is
    used up.  The pointers [pl], [pr], [pi], [pj] are positions in
    [tosort]. *)

(** [Tag::less]: the order of the sort, NaN after every number. *)
Definition npy_less (a b : float) : bool :=
  (a <? b)%float || (F64.isnan b && negb (F64.isnan a)).

(** [v[tosort[p]]] *)
Definition npy_key (v : list float) (tosort : list nat) (p : nat) : float :=
  nth (nth p tosort 0) v PrimFloat.nan.

(** [INTP_SWAP(tosort[i], tosort[j])] *)
Definition intp_swap (tosort : list nat) (i j : nat) : list nat :=
  set_nth i (nth j tosort 0) (set_nth j (nth i tosort 0) tosort).

(** [do { ++pi; } while (less(v[*pi], vp))], from the first [++pi] on. *)
Fixpoint scan_up (fuel : nat) (v : list float) (tosort : list nat)
    (vp : float) (pi : nat) : nat :=
  match fuel with
  | O => pi
  | S fuel' =>
      if npy_less (npy_key v tosort pi) vp
      then scan_up fuel' v tosort vp (S pi) else pi
  end.

(** [do { --pj; } while (less(vp, v[*pj]))], from the first [--pj] on. *)
Fixpoint scan_down (fuel : nat) (v : list float) (tosort : list nat)
    (vp : float) (pj : nat) : nat :=
  match fuel with
  | O => pj
  | S fuel' =>
      if npy_less vp (npy_key v tosort pj)
      then scan_down fuel' v tosort vp (Nat.pred pj) else pj
  end.

(** The partition loop [for (;;)]: returns [tosort] and [pi]. *)
Fixpoint partition_loop (fuel : nat) (v : list float) (tosort : list nat)
    (vp : float) (pi pj : nat) : list nat * nat :=
  match fuel with
  | O => (tosort, pi)
  | S fuel' =>
      let pi := scan_up (length tosort) v tosort vp (S pi) in
      let pj := scan_down (length tosort) v tosort vp (Nat.pred pj) in
      if (pj <=? pi)%nat then (tosort, pi)
      else partition_loop fuel' v (intp_swap tosort pi pj) vp pi pj
  end.

(** The median of three and the partition of [tosort[pl..pr]]: returns
    [tosort] and the final position [pi] of the pivot. *)
Definition partition (v : list float) (tosort : list nat) (pl pr : nat)
  : list nat * nat :=
  let pm := pl + Nat.shiftr (pr - pl) 1 in
  let tosort :=
    if npy_less (npy_key v tosort pm) (npy_key v tosort pl)
    then intp_swap tosort pm pl else tosort in
  let tosort :=
    if npy_less (npy_key v tosort pr) (npy_key v tosort pm)
    then intp_swap tosort pr pm else tosort in
  let tosort :=
    if npy_less (npy_key v tosort pm) (npy_key v tosort pl)
    then intp_swap tosort pm pl else tosort in
  let vp := npy_key v tosort pm in
  let pj := pr - 1 in
  let tosort := intp_swap tosort pm pj in
  let '(tosort, pi) := partition_loop (length tosort) v tosort vp pl pj in
  let pk := pr - 1 in
  (intp_swap tosort pi pk, pi).

(** [while (pj > pl && less(vp, v[*pk])) { *pj-- = *pk--; }] with
    [pk = pj - 1]: returns [tosort] and [pj]. *)
Fixpoint shift_back (fuel : nat) (v : list float) (tosort : list nat)
    (pl pj : nat) (vp : float) : list nat * nat :=
  match fuel with
  | O => (tosort, pj)
  | S fuel' =>
      if (pl <? pj)%nat && npy_less vp (npy_key v tosort (pj - 1))
      then shift_back fuel' v (set_nth pj (nth (pj - 1) tosort 0) tosort)
             pl (pj - 1) vp
      else (tosort, pj)
  end.

(** The insertion sort of [tosort[pl..pr]]. *)
Definition insertion_sort (v : list float) (tosort : list nat) (pl pr : nat)
  : list nat :=
  fold_left
    (fun tosort pi =>
       let vi := nth pi tosort 0 in
       let vp := nth vi v PrimFloat.nan in
       let '(tosort, pj) := shift_back (length tosort) v tosort pl pi vp in
       set_nth pj vi tosort)
    (seq (S pl) (pr - pl)) tosort.

(** [aheapsort_] on the [n] entries from [pl] on; [a[i]], counted from 1,
    is [tosort[pl + i - 1]]. *)
Definition heap_get (tosort : list nat) (pl i : nat) : nat :=
  nth (pl + i - 1) tosort 0.
Definition heap_set (tosort : list nat) (pl i x : nat) : list nat :=
  set_nth (pl + i - 1) x tosort.

(** [for (i = l, j = l << 1; j <= n;) ...; a[i] = tmp] *)
Fixpoint sift_down (fuel : nat) (v : list float) (tosort : list nat)
    (pl n tmp i j : nat) : list nat :=
  match fuel with
  | O => heap_set tosort pl i tmp
  | S fuel' =>
      if (j <=? n)%nat then
        let j :=
          if (j <? n)%nat
             && npy_less (nth (heap_get tosort pl j) v PrimFloat.nan)
                         (nth (heap_get tosort pl (j + 1)) v PrimFloat.nan)
          then j + 1 else j in
        if npy_less (nth tmp v PrimFloat.nan)
                    (nth (heap_get tosort pl j) v PrimFloat.nan)
        then sift_down fuel' v (heap_set tosort pl i (heap_get tosort pl j))
               pl n tmp j (j + j)
        else heap_set tosort pl i tmp
      else heap_set tosort pl i tmp
  end.

Definition aheapsort (v : list float) (tosort : list nat) (pl n : nat)
  : list nat :=
  let built :=
    fold_left
      (fun a l => sift_down n v a pl n (heap_get a pl l) l (l + l))
      (rev (seq 1 (Nat.shiftr n 1))) tosort in
  fold_left
    (fun a m =>
       let tmp := heap_get a pl m in
       let a := heap_set a pl m (heap_get a pl 1) in
       sift_down n v a pl (m - 1) tmp 1 2)
    (rev (seq 2 (n - 1))) built.

(** The outer loop [while (1)] with its stack of postponed ranges: each
    entry holds [pl], [pr] and the depth limit that goes with them.
    [at_top] tells the entry of the loop, where alone the depth limit is
    tested, from the inner [while ((pr - pl) > SMALL_QUICKSORT)]. *)
Fixpoint aquicksort_loop (fuel : nat) (v : list float) (tosort : list nat)
    (pl pr : nat) (cdepth : Z) (stack : list (nat * nat * Z))
    (at_top : bool) : list nat :=
  match fuel with
  | O => tosort
  | S fuel' =>
      if at_top && (cdepth <? 0)%Z then
        let tosort := aheapsort v tosort pl (pr - pl + 1) in
        match stack with
        | [] => tosort
        | (pl', pr', cdepth') :: stack' =>
            aquicksort_loop fuel' v tosort pl' pr' cdepth' stack' true
        end
      else if (16 <? pr - pl)%nat then
        let '(tosort, pi) := partition v tosort pl pr in
        (* push the larger part on the stack *)
        if (pi - pl <? pr - pi)%nat
        then aquicksort_loop fuel' v tosort pl (pi - 1) (cdepth - 1)
               ((pi + 1, pr, (cdepth - 1)%Z) :: stack) false
        else aquicksort_loop fuel' v tosort (pi + 1) pr (cdepth - 1)
               ((pl, pi - 1, (cdepth - 1)%Z) :: stack) false
      else
        let tosort := insertion_sort v tosort pl pr in
        match stack with
        | [] => tosort
        | (pl', pr', cdepth') :: stack' =>
            aquicksort_loop fuel' v tosort pl' pr' cdepth' stack' true
        end
  end.

(** [np.argsort(v)]: [tosort] starts as [0 .. n-1], the depth limit as
    twice the position of the highest bit of [n]. *)
Definition npy_argsort (v : list float) : list nat :=
  let n := length v in
  match n with
  | O => []
  | S _ =>
      aquicksort_loop (2 * n + 2) v (seq 0 n) 0 (n - 1)
        (2 * Z.log2 (Z.of_nat n)) [] true
  end.

(** ** The Seurat v3 flavor: the final selection *)

(** [l[:n]] on a sequence: a negative [n] counts from the end. *)
Definition py_slice_to {A} (l : list A) (n : Z) : list A :=
  if (0 <=? n)%Z then firstn (Z.to_nat n) l
  else firstn (Z.to_nat (size l + n)) l.

(** Twice a rank, so that ranks half way between two integers compare as
    integers; NaN has none. *)
Definition rank_key (r : rank_value) : option nat :=
  match r with
  | RankNaN => None
  | RankInt k => Some (2 * k)
  | RankHalf k => Some (2 * k + 1)
  end.

(** One line of [df[["highly_variable_rank", "highly_variable_nbatches"]]]
    with its index label. *)
Definition rank_line : Type := (rank_value * Z * String.string)%type.

(** The order of [sort_values(["highly_variable_rank",
    "highly_variable_nbatches"], ascending=[True, False],
    na_position="last")]: by rank, NaN last, then by number of batches,
    highest first. *)
Definition rank_line_leb (a b : rank_line) : bool :=
  let '(ra, na, _) := a in
  let '(rb, nb, _) := b in
  match rank_key ra, rank_key rb with
  | Some x, Some y => (x <? y)%nat || ((x =? y)%nat && (nb <=? na)%Z)
  | Some _, None => true
  | None, Some _ => false
  | None, None => (nb <=? na)%Z
  end.

(** The column [highly_variable] of the Seurat v3 flavor: the labels of
    the first [n_top_genes] lines of the sorted table are set to [True];
    [df.loc[labels, ...] = True] reaches every line that carries one of
    the labels. *)
Definition seurat_v3_select (var_names : list String.string)
    (nbatches : list Z) (ranks : list rank_value) (n_top_genes : Z)
  : list bool :=
  let lines : list rank_line :=
    map (fun i => (nth i ranks RankNaN, nth i nbatches 0%Z,
                   nth i var_names String.EmptyString))
        (seq 0 (length var_names)) in
  let sorted_index := map snd (stable_sort rank_line_leb lines) in
  let top := py_slice_to sorted_index n_top_genes in
  map (fun g => existsb (String.eqb g) top) var_names.

Section SeuratV3Columns.

Variable _get_mean_var : counts_t -> list float * list float.
Variable loess_fitted_values : list float -> list float -> float -> list float.
Variable np_log10 : float -> float.
Variable pow10 : float -> float.
Variable np_sum : list float -> float.
Variable argsort_float : list float -> list nat.
Variable argsort_int : list nat -> list nat.
Variable csr_select_rows : csr_matrix -> list bool -> csr_matrix.

(** [_highly_variable_genes_seurat_v3] from the loop over the batches to
    the column [highly_variable]: the columns [highly_variable_nbatches],
    [highly_variable_rank] and [highly_variable] of [df].  The columns
    [means], [variances] and [variances_norm] are computed beside them and
    do not enter the selection. *)
Definition seurat_v3_columns (var_names : list String.string)
    (data : counts_t) (batch_info : list nat) (n_top_genes : Z)
    (span : float) : M (list Z * list rank_value * list bool) :=
  cols <- seurat_v3_rank_columns _get_mean_var loess_fitted_values np_log10
            pow10 np_sum argsort_float argsort_int csr_select_rows data
            (length var_names) batch_info n_top_genes span ;;
  let '(num_batches_high_var, median_ranked) := cols in
  ret (num_batches_high_var, median_ranked,
       seurat_v3_select var_names num_batches_high_var median_ranked
         n_top_genes).

End SeuratV3Columns.

(** * Properties *)

(** ** Interval mode ([_Cutoffs.in_bounds]) *)

Section IntervalMode.
Local Open Scope float_scope.

(** The four strict inequalities of the interval specification. *)
Definition strictly_inside (c : _Cutoffs) (m d : float) : Prop :=
  (min_mean c <? m) = true /\ (m <? max_mean c) = true /\
  (min_disp c <? d) = true /\ (d <? max_disp c) = true.

Lemma in_bounds1_spec (c : _Cutoffs) (m d : float) :
  in_bounds1 c m d = true <-> strictly_inside c m d.
Proof.
  unfold in_bounds1, strictly_inside, F64.gtb.
  rewrite !andb_true_iff. tauto.
Qed.

Lemma broadcast2_same_length {A B C} (f : A -> B -> C) a b :
  length a = length b ->
  broadcast2 f a b = Some (map (fun p => f (fst p) (snd p)) (combine a b)).
Proof.
  intros H. unfold broadcast2. rewrite H, Nat.eqb_refl. reflexivity.
Qed.

Lemma nth_map_combine {A B C} (f : A -> B -> C) a b i da db dc :
  length a = length b -> i < length a ->
  nth i (map (fun p => f (fst p) (snd p)) (combine a b)) dc
  = f (nth i a da) (nth i b db).
Proof.
  revert b i. induction a as [|x a IH]; intros [|y b] i Hl Hi;
    simpl in *; try lia.
  destruct i; [reflexivity|]. apply IH; lia.
Qed.

Lemma in_bounds_same_length (c : _Cutoffs) mean disp :
  length mean = length disp ->
  exists sel, in_bounds c mean disp = Some sel /\
    length sel = length mean /\
    forall i, i < length mean ->
      nth i sel false = in_bounds1 c (nth i mean nan) (nth i disp nan).
Proof.
  intros Hl. eexists. split; [apply broadcast2_same_length, Hl|]. split.
  - rewrite length_map, length_combine. lia.
  - intros i Hi. apply nth_map_combine; assumption.
Qed.

(** A bound of [c'] is at least as permissive as the bound of [c]: it is
    the same float, or it compares below (for lower bounds) or above (for
    upper bounds). *)
Definition same_or_le (a b : float) : Prop := a = b \/ (a <=? b) = true.

Definition widens (c c' : _Cutoffs) : Prop :=
  same_or_le (min_mean c') (min_mean c) /\
  same_or_le (max_mean c) (max_mean c') /\
  same_or_le (min_disp c') (min_disp c) /\
  same_or_le (max_disp c) (max_disp c').

Lemma in_bounds1_monotone (c c' : _Cutoffs) (m d : float) :
  widens c c' -> in_bounds1 c m d = true -> in_bounds1 c' m d = true.
Proof.
  intros (H1 & H2 & H3 & H4). rewrite !in_bounds1_spec.
  intros (K1 & K2 & K3 & K4). unfold strictly_inside.
  repeat split.
  - destruct H1 as [->|H1]; [assumption|]. eapply FFacts.leb_ltb_trans; eauto.
  - destruct H2 as [<-|H2]; [assumption|]. eapply FFacts.ltb_leb_trans; eauto.
  - destruct H3 as [->|H3]; [assumption|]. eapply FFacts.leb_ltb_trans; eauto.
  - destruct H4 as [<-|H4]; [assumption|]. eapply FFacts.ltb_leb_trans; eauto.
Qed.

(** C3. For mean and normalized-dispersion vectors of one length,
    [in_bounds] selects gene [i] exactly when all four strict inequalities
    [min_mean < mean < max_mean] and [min_disp < dispersion_norm < max_disp]
    hold for it, and the selection is monotone: lowering a lower bound or
    raising an upper bound never removes a gene from the selected set. *)
Theorem C3_interval_exact_and_monotone (c : _Cutoffs) (mean disp : list float) :
  length mean = length disp ->
  exists sel,
    in_bounds c mean disp = Some sel /\
    length sel = length mean /\
    (forall i, i < length mean ->
       (nth i sel false = true <->
        strictly_inside c (nth i mean nan) (nth i disp nan))) /\
    (forall c', widens c c' ->
       exists sel', in_bounds c' mean disp = Some sel' /\
         forall i, nth i sel false = true -> nth i sel' false = true).
Proof.
  intros Hl.
  destruct (in_bounds_same_length c mean disp Hl) as (sel & Hs & Hn & Hi).
  exists sel. split; [assumption|]. split; [assumption|]. split.
  - intros i Hlt. rewrite Hi by assumption. apply in_bounds1_spec.
  - intros c' Hw.
    destruct (in_bounds_same_length c' mean disp Hl) as (sel' & Hs' & Hn' & Hi').
    exists sel'. split; [assumption|]. intros i H.
    destruct (Nat.lt_ge_cases i (length mean)) as [Hlt|Hge].
    + rewrite Hi' by assumption. rewrite Hi in H by assumption.
      eapply in_bounds1_monotone; eauto.
    + rewrite nth_overflow in H by lia. discriminate.
Qed.

Lemma C3_interval_exact_and_monotone_witness :
  exists sel,
    in_bounds default_cutoffs [1; 5; 0.5] [1; 1; nan] = Some sel /\
    length sel = 3%nat /\
    (forall i, i < 3 ->
       (nth i sel false = true <->
        strictly_inside default_cutoffs (nth i [1; 5; 0.5] nan) (nth i [1; 1; nan] nan))) /\
    (forall c', widens default_cutoffs c' ->
       exists sel', in_bounds c' [1; 5; 0.5] [1; 1; nan] = Some sel' /\
         forall i, nth i sel false = true -> nth i sel' false = true).
Proof.
  apply (C3_interval_exact_and_monotone default_cutoffs [1; 5; 0.5] [1; 1; nan]).
  reflexivity.
Defined.

(** What interval mode decides for dispersions [d]: the predicate is
    evaluated on [d] with its NaN entries replaced by 0, so a NaN gene is
    selected exactly when 0 lies strictly inside the dispersion bounds and
    its mean inside the mean bounds. *)
Definition interval_selection (c : _Cutoffs) (mean d : list float)
    (sel : list bool) : Prop :=
  length sel = length d /\
  forall i, i < length d ->
    F64.isnan (F64.nan_to_zero (nth i d nan)) = false /\
    nth i sel false
    = in_bounds1 c (nth i mean nan) (F64.nan_to_zero (nth i d nan)) /\
    (F64.isnan (nth i d nan) = true ->
     (nth i sel false = true <-> strictly_inside c (nth i mean nan) 0)).

Lemma nth_set_nth_map {A} (f : list A -> list A) (l : nat)
    (h : list (list A)) :
  f [] = [] -> nth l (set_nth l (f (nth l h [])) h) [] = f (nth l h []).
Proof.
  intros Hf. revert l. induction h as [|a h IH]; intros [|l]; simpl; auto.
Qed.

Lemma in_bounds_nan_to_zero (c : _Cutoffs) (mean d : list float) :
  length mean = length d ->
  exists sel, in_bounds c mean (map F64.nan_to_zero d) = Some sel /\
              interval_selection c mean d sel.
Proof.
  intros Hl.
  destruct (in_bounds_same_length c mean (map F64.nan_to_zero d))
    as (sel & Hs & Hn & Hi); [rewrite length_map; exact Hl|].
  exists sel. split; [exact Hs|]. split; [congruence|].
  intros i Hlt.
  assert (E : nth i (map F64.nan_to_zero d) nan = F64.nan_to_zero (nth i d nan))
    by (rewrite (nth_indep _ nan (F64.nan_to_zero nan))
          by (rewrite length_map; exact Hlt); apply map_nth).
  split; [apply FFacts.nan_to_zero_notnan|]. split.
  - rewrite Hi by lia. rewrite E. reflexivity.
  - intros Hnan. rewrite Hi by lia. rewrite E.
    unfold F64.nan_to_zero. rewrite Hnan. apply in_bounds1_spec.
Qed.

(** C1. In interval mode NaN normalized dispersions are replaced with 0
    before the interval predicate is evaluated, in [_subset_genes] (single
    batch) and in the last step of [_highly_variable_genes_batched]
    (where the replacement reaches the column through the array
    [series_to_array] hands out): the predicate never sees a NaN, and a
    NaN-dispersion gene is selected iff 0 lies strictly inside the
    dispersion bounds and its mean inside the mean bounds. *)
Theorem C1_interval_nan_replaced_by_zero
    (series_to_array : loc -> M loc) (c : _Cutoffs) :
  (forall l s, series_to_array l s = Return l s) ->
  (forall n_vars mean dl s,
     let d := nth dl (heap s) [] in
     length mean = length d ->
     exists sel s',
       _subset_genes n_vars mean dl (Interval c) s = Return sel s' /\
       nth dl (heap s') [] = map F64.nan_to_zero d /\
       interval_selection c mean d sel) /\
  (forall genes means dispersions dn nbatches inter s,
     let d := nth dn (heap s) [] in
     length means = length d ->
     exists df s',
       batched_select series_to_array (Interval c) genes means dispersions
         dn nbatches inter s = Return df s' /\
       nth (bf_dispersions_norm df) (heap s') [] = map F64.nan_to_zero d /\
       interval_selection c means d (bf_highly_variable df)).
Proof.
  intros Hview. split.
  - intros n_vars mean dl s d Hl.
    destruct (in_bounds_nan_to_zero c mean d Hl) as (sel & Hs & Hsel).
    exists sel. eexists. unfold _subset_genes, bind, load, store.
    cbn [heap events].
    rewrite (nth_set_nth_map (map F64.nan_to_zero) dl (heap s) eq_refl).
    fold d. rewrite Hs. unfold lift_shape, ret.
    split; [reflexivity|]. cbn [heap]. split; [|exact Hsel].
    apply (nth_set_nth_map (map F64.nan_to_zero) dl (heap s) eq_refl).
  - intros genes means dispersions dn nbatches inter s d Hl.
    destruct (in_bounds_nan_to_zero c means d Hl) as (sel & Hs & Hsel).
    eexists. eexists. unfold batched_select, bind. rewrite Hview.
    unfold load, store. cbn [heap events].
    rewrite (nth_set_nth_map (map F64.nan_to_zero) dn (heap s) eq_refl).
    fold d. rewrite Hs. unfold lift_shape, ret.
    split; [reflexivity|]. cbn [heap bf_dispersions_norm bf_highly_variable].
    split; [|exact Hsel].
    apply (nth_set_nth_map (map F64.nan_to_zero) dn (heap s) eq_refl).
Qed.

(** Bounds that let 0 through: [-1 < dispersion_norm], means in the
    default range. *)
Definition cutoffs_below_zero : _Cutoffs :=
  mk_Cutoffs (-1) infinity 0x1.999999999999ap-7 3.

Lemma C1_interval_nan_replaced_by_zero_witness :
  (exists sel s',
     _subset_genes 2 [1; 1] 0%nat (Interval cutoffs_below_zero)
       (mkState [[nan; 2]] []) = Return sel s' /\
     nth 0 (heap s') [] = map F64.nan_to_zero [nan; 2] /\
     interval_selection cutoffs_below_zero [1; 1] [nan; 2] sel) /\
  (exists df s',
     batched_select ret (Interval cutoffs_below_zero)
       [String.EmptyString; String.EmptyString] [1; 1] [5; 5] 0%nat
       [1; 2]%Z [false; true] (mkState [[nan; 2]] []) = Return df s' /\
     nth (bf_dispersions_norm df) (heap s') [] = map F64.nan_to_zero [nan; 2] /\
     interval_selection cutoffs_below_zero [1; 1] [nan; 2]
       (bf_highly_variable df)).
Proof.
  destruct (C1_interval_nan_replaced_by_zero ret cutoffs_below_zero
              (fun l s => eq_refl)) as [H1 H2].
  split.
  - apply (H1 2%Z [1; 1] 0%nat (mkState [[nan; 2]] []) eq_refl).
  - apply (H2 [String.EmptyString; String.EmptyString] [1; 1] [5; 5] 0%nat
             [1; 2]%Z [false; true] (mkState [[nan; 2]] []) eq_refl).
Defined.

(** The batched branch evaluates the predicate on the frame's column, not
    on the local array: were [series_to_array] to return a copy, the NaN
    would reach the predicate and the gene below would not be selected. *)
Remark batched_select_relies_on_view :
  let copy (l : loc) : M loc := bind (load l) alloc in
  let s := mkState [[nan]] [] in
  let run f := batched_select f (Interval cutoffs_below_zero)
                 [String.EmptyString] [1] [5] 0%nat [1%Z] [true] s in
  (exists s', run ret
     = Return (mk_batched_frame [String.EmptyString] [1] [5] 0%nat [true]
                 [1%Z] [true]) s') /\
  (exists s', run copy
     = Return (mk_batched_frame [String.EmptyString] [1] [5] 0%nat [false]
                 [1%Z] [true]) s').
Proof. split; eexists; vm_compute; reflexivity. Qed.

End IntervalMode.

(** ** Lists: counting and sortedness *)

Section ListFacts.
Context {A : Type}.

Lemma filter_length_Permutation (f : A -> bool) (l l' : list A) :
  Permutation l l' -> length (filter f l) = length (filter f l').
Proof.
  induction 1 as [|x l l' _ IH|x y l|l l' l'' _ IH1 _ IH2]; simpl.
  - reflexivity.
  - destruct (f x); simpl; congruence.
  - destruct (f x), (f y); reflexivity.
  - congruence.
Qed.

Lemma filter_all (f : A -> bool) (l : list A) :
  (forall x, In x l -> f x = true) -> filter f l = l.
Proof.
  induction l as [|a l IH]; intros H; simpl; [reflexivity|].
  rewrite (H a) by (left; reflexivity). f_equal. apply IH.
  intros x Hx. apply H. right. exact Hx.
Qed.

Lemma filter_none (f : A -> bool) (l : list A) :
  (forall x, In x l -> f x = false) -> filter f l = [].
Proof.
  induction l as [|a l IH]; intros H; simpl; [reflexivity|].
  rewrite (H a) by (left; reflexivity). apply IH.
  intros x Hx. apply H. right. exact Hx.
Qed.

Lemma filter_length_pos (f : A -> bool) (l : list A) (x : A) :
  In x l -> f x = true -> 1 <= length (filter f l).
Proof.
  intros Hin Hf. assert (Hx : In x (filter f l)) by (apply filter_In; auto).
  destruct (filter f l); [destruct Hx | simpl; lia].
Qed.

Lemma filter_length_le (f : A -> bool) (l : list A) :
  length (filter f l) <= length l.
Proof.
  induction l as [|a l IH]; simpl; [lia|]. destruct (f a); simpl; lia.
Qed.

Lemma filter_length_split (f g : A -> bool) (l : list A) :
  length (filter f l)
  = length (filter f (filter g l))
    + length (filter f (filter (fun x => negb (g x)) l)).
Proof.
  induction l as [|a l IH]; simpl; [reflexivity|].
  destruct (g a), (f a) eqn:Fa; simpl; rewrite ?Fa; simpl; lia.
Qed.

Lemma filter_length_impl (f g : A -> bool) (l : list A) :
  (forall x, In x l -> f x = true -> g x = true) ->
  length (filter f l) <= length (filter g l).
Proof.
  induction l as [|a l IH]; intros H; simpl; [lia|].
  assert (IH' : length (filter f l) <= length (filter g l))
    by (apply IH; intros x Hx; apply H; right; exact Hx).
  destruct (f a) eqn:Fa.
  - rewrite (H a) by (auto; left; reflexivity). simpl. lia.
  - destruct (g a); simpl; lia.
Qed.

Lemma StronglySorted_nth (R : A -> A -> Prop) (l : list A) (d : A) :
  StronglySorted R l ->
  forall i j, i < j -> j < length l -> R (nth i l d) (nth j l d).
Proof.
  induction 1 as [|a l Hs IH Hall]; intros i j Hij Hj; simpl in *; [lia|].
  destruct j as [|j]; [lia|]. destruct i as [|i].
  - rewrite Forall_forall in Hall. apply Hall, nth_In. lia.
  - apply IH; lia.
Qed.

End ListFacts.

(** Sorting by insertion keeps the lines and orders them. *)

Section StableSort.
Context {A : Type} (leb : A -> A -> bool).
Hypothesis leb_is_total : forall a b, leb a b = true \/ leb b a = true.
Hypothesis leb_is_transitive :
  forall a b c, leb a b = true -> leb b c = true -> leb a c = true.

Lemma insert_line_Permutation (x : A) (l : list A) :
  Permutation (insert_line leb x l) (x :: l).
Proof.
  induction l as [|y l IH]; simpl; [apply Permutation_refl|].
  destruct (leb x y); [apply Permutation_refl|].
  eapply Permutation_trans; [apply perm_skip, IH|apply perm_swap].
Qed.

Lemma stable_sort_Permutation (l : list A) :
  Permutation (stable_sort leb l) l.
Proof.
  induction l as [|x l IH]; simpl; [constructor|].
  eapply Permutation_trans; [apply insert_line_Permutation|].
  constructor. exact IH.
Qed.

Lemma insert_line_sorted (x : A) (l : list A) :
  StronglySorted (fun a b => leb a b = true) l ->
  StronglySorted (fun a b => leb a b = true) (insert_line leb x l).
Proof.
  induction 1 as [|y l Hs IH Hall]; simpl.
  - repeat constructor.
  - destruct (leb x y) eqn:E.
    + constructor; [constructor; assumption|].
      constructor; [exact E|].
      rewrite Forall_forall in *. intros z Hz.
      eapply leb_is_transitive; [exact E|apply Hall, Hz].
    + constructor; [exact IH|].
      rewrite Forall_forall in *. intros z Hz.
      apply (Permutation_in _ (insert_line_Permutation x l)) in Hz.
      destruct Hz as [<-|Hz]; [|apply Hall, Hz].
      destruct (leb_is_total x y) as [K|K]; congruence.
Qed.

Lemma stable_sort_sorted (l : list A) :
  StronglySorted (fun a b => leb a b = true) (stable_sort leb l).
Proof.
  induction l as [|x l IH]; simpl; [constructor|].
  apply insert_line_sorted, IH.
Qed.

(** Stability: lines that come in increasing position and that the order
    does not tell apart leave in increasing position. *)
Lemma insert_line_stable (idx : A -> nat) (x : A) (l : list A) :
  let R := fun a b => leb a b = true /\ (leb b a = true -> idx a < idx b) in
  (forall z, In z l -> idx x < idx z) ->
  StronglySorted R l -> StronglySorted R (insert_line leb x l).
Proof.
  intros R Hx Hs. induction Hs as [|y l Hs IH Hall]; simpl.
  - repeat constructor.
  - rewrite Forall_forall in Hall. destruct (leb x y) eqn:E.
    + constructor; [constructor; [exact Hs|apply Forall_forall; exact Hall]|].
      apply Forall_forall. intros z [<-|Hz].
      * split; [exact E|]. intros _. apply Hx. left. reflexivity.
      * split.
        -- eapply leb_is_transitive; [exact E|apply (Hall z Hz)].
        -- intros _. apply Hx. right. exact Hz.
    + constructor.
      * apply IH. intros z Hz. apply Hx. right. exact Hz.
      * apply Forall_forall. intros z Hz.
        apply (Permutation_in _ (insert_line_Permutation x l)) in Hz.
        destruct Hz as [<-|Hz]; [|apply Hall, Hz].
        split; [|congruence].
        destruct (leb_is_total x y) as [K|K]; congruence.
Qed.

Lemma stable_sort_stable (idx : A -> nat) (l : list A) :
  StronglySorted (fun a b => idx a < idx b) l ->
  StronglySorted
    (fun a b => leb a b = true /\ (leb b a = true -> idx a < idx b))
    (stable_sort leb l).
Proof.
  induction 1 as [|x l Hs IH Hall]; simpl; [constructor|].
  apply insert_line_stable; [|exact IH].
  rewrite Forall_forall in Hall. intros z Hz. apply Hall.
  apply (Permutation_in _ (stable_sort_Permutation l)). exact Hz.
Qed.

End StableSort.

Section SortedPrefix.
Context {A : Type}.

Lemma firstn_In (l : list A) (k : nat) (x : A) :
  In x (firstn k l) -> In x l.
Proof.
  intros H. rewrite <- (firstn_skipn k l). apply in_or_app. left. exact H.
Qed.

Lemma skipn_In (l : list A) (k : nat) (x : A) :
  In x (skipn k l) -> In x l.
Proof.
  intros H. rewrite <- (firstn_skipn k l). apply in_or_app. right. exact H.
Qed.

Lemma StronglySorted_firstn_skipn (R : A -> A -> Prop) (l : list A)
    (k : nat) (a b : A) :
  StronglySorted R l -> In a (firstn k l) -> In b (skipn k l) -> R a b.
Proof.
  intros Hs. revert k. induction Hs as [|x l Hs IH Hall]; intros k Ha Hb.
  - rewrite firstn_nil in Ha. destruct Ha.
  - destruct k as [|k]; [destruct Ha|]. simpl in Ha, Hb.
    destruct Ha as [<-|Ha].
    + rewrite Forall_forall in Hall. apply Hall.
      apply (skipn_In l k). exact Hb.
    + eapply IH; eassumption.
Qed.

(** In a sorted list whose order never puts a line outside [p] before a
    line inside [p], the lines inside [p] form a prefix. *)
Lemma sorted_prefix (R : A -> A -> Prop) (p : A -> bool) (l : list A) :
  (forall a b, R a b -> p a = false -> p b = false) ->
  StronglySorted R l ->
  l = filter p l ++ filter (fun x => negb (p x)) l.
Proof.
  intros Hp. induction 1 as [|x l Hs IH Hall]; [reflexivity|].
  simpl. destruct (p x) eqn:E; simpl.
  - f_equal. exact IH.
  - rewrite Forall_forall in Hall.
    rewrite (filter_none p l), (filter_all (fun y => negb (p y)) l).
    + reflexivity.
    + intros y Hy. rewrite (Hp x y (Hall y Hy) E). reflexivity.
    + intros y Hy. apply (Hp x y (Hall y Hy) E).
Qed.

End SortedPrefix.

(** ** Top-N mode ([_nth_highest], [_subset_genes]) *)

Section TopN.
Local Open Scope float_scope.
Import F64.

(** The array [_nth_highest] indexes: the non-NaN values, highest first. *)
Definition sorted_desc (x : list float) : list float :=
  rev (np_sort (rev (filter notnan x))).

Lemma np_leb_trans : Transitive (fun a b => is_true (NpFloatOrder.leb a b)).
Proof.
  intros a b c. unfold is_true, NpFloatOrder.leb.
  rewrite !orb_true_iff. intros [H1|H1] [H2|H2]; auto.
  - left. eapply FFacts.leb_trans; eauto.
  - apply FFacts.leb_notnan in H2. destruct H2 as [H2 _].
    unfold isnan in *. congruence.
Qed.

Lemma sorted_desc_Permutation (x : list float) :
  Permutation (filter notnan x) (sorted_desc x).
Proof.
  unfold sorted_desc, np_sort.
  eapply Permutation_trans; [apply Permutation_rev|].
  eapply Permutation_trans; [apply NpSort.Permuted_sort|].
  apply Permutation_rev.
Qed.

Lemma sorted_desc_length (x : list float) :
  length (sorted_desc x) = length (filter notnan x).
Proof. symmetry. apply Permutation_length, sorted_desc_Permutation. Qed.

Lemma sorted_desc_notnan (x : list float) (v : float) :
  In v (sorted_desc x) -> isnan v = false.
Proof.
  intros H. apply (Permutation_in _ (Permutation_sym (sorted_desc_Permutation x))) in H.
  apply filter_In in H. destruct H as [_ H]. unfold notnan in H.
  apply negb_true_iff in H. exact H.
Qed.

Lemma sorted_desc_order (x : list float) (i j : nat) :
  (i <= j)%nat -> (j < length (sorted_desc x))%nat ->
  (nth j (sorted_desc x) nan <=? nth i (sorted_desc x) nan) = true.
Proof.
  intros Hij Hj.
  destruct (Nat.eq_dec i j) as [->|Hne].
  { apply FFacts.leb_refl, sorted_desc_notnan with (x := x), nth_In, Hj. }
  assert (Hnn : isnan (nth i (sorted_desc x) nan) = false)
    by (apply sorted_desc_notnan with (x := x), nth_In; lia).
  revert Hj Hnn. unfold sorted_desc.
  set (a := np_sort (rev (filter notnan x))).
  rewrite length_rev. intros Hj Hnn.
  rewrite !rev_nth in * by lia.
  pose proof (NpSort.StronglySorted_sort (rev (filter notnan x)) np_leb_trans) as Hs.
  fold (np_sort (rev (filter notnan x))) in Hs. fold a in Hs.
  pose proof (StronglySorted_nth _ a nan Hs
                (length a - S j) (length a - S i)) as H.
  unfold is_true, NpFloatOrder.leb in H.
  rewrite orb_true_iff in H.
  destruct H as [H|H]; try lia; [exact H|].
  unfold isnan in *. congruence.
Qed.

(** Among the values sorted highest first, at least [k] reach the value at
    position [k - 1]. *)
Lemma sorted_desc_count_ge (x : list float) (k : nat) :
  (1 <= k)%nat -> (k <= length (sorted_desc x))%nat ->
  (k <= length (filter (fun v => (nth (k - 1) (sorted_desc x) nan <=? v)%float)
                       (sorted_desc x)))%nat.
Proof.
  intros H1 Hk. set (s := sorted_desc x) in *. set (t := nth (k - 1) s nan) in *.
  rewrite <- (firstn_skipn k s) at 1. rewrite filter_app, length_app.
  rewrite filter_all.
  - rewrite length_firstn. lia.
  - intros v Hv. apply (In_nth _ _ nan) in Hv. destruct Hv as (i & Hi & <-).
    rewrite length_firstn in Hi. rewrite nth_firstn.
    destruct (Nat.ltb_spec i k); [|lia].
    apply sorted_desc_order; subst s; lia.
Qed.

(** When at most one value equals the one at position [k - 1], exactly [k]
    values reach it. *)
Lemma sorted_desc_count_eq (x : list float) (k : nat) :
  (1 <= k)%nat -> (k <= length (sorted_desc x))%nat ->
  (length (filter (fun v => (v =? nth (k - 1) (sorted_desc x) nan)%float)
                  (sorted_desc x)) <= 1)%nat ->
  length (filter (fun v => nth (k - 1) (sorted_desc x) nan <=? v)
                 (sorted_desc x)) = k.
Proof.
  intros H1 Hk. set (s := sorted_desc x) in *. set (t := nth (k - 1) s nan) in *.
  intros Htie.
  assert (Ht : isnan t = false)
    by (apply sorted_desc_notnan with (x := x), nth_In; subst s; lia).
  rewrite <- (firstn_skipn k s) in Htie |- *.
  rewrite filter_app, length_app in Htie |- *.
  assert (Hfirst : (1 <= length (filter (fun v => (v =? t)%float) (firstn k s)))%nat).
  { apply filter_length_pos with (x := t).
    - replace t with (nth (k - 1) (firstn k s) nan).
      + apply nth_In. rewrite length_firstn. subst s; lia.
      + rewrite nth_firstn.
        destruct (Nat.ltb_spec (k - 1) k); [reflexivity|lia].
    - clear -Ht. FFacts.forder. }
  rewrite filter_all.
  - rewrite (filter_none _ (skipn k s)); [rewrite length_firstn; simpl; lia|].
    intros v Hv. destruct (t <=? v) eqn:E; [exfalso|reflexivity].
    assert (Hv' : In v (skipn k s)) by exact Hv.
    apply (In_nth _ _ nan) in Hv. destruct Hv as (i & Hi & Hnth).
    rewrite length_skipn in Hi. rewrite nth_skipn in Hnth.
    assert (Hle : (v <=? t) = true).
    { subst v. apply sorted_desc_order; subst s; lia. }
    assert (Heq : (v =? t) = true) by (clear -E Hle; FFacts.forder).
    pose proof (filter_length_pos (fun v => v =? t) _ v Hv' Heq). lia.
  - intros v Hv. apply (In_nth _ _ nan) in Hv. destruct Hv as (i & Hi & <-).
    rewrite length_firstn in Hi. rewrite nth_firstn.
    destruct (Nat.ltb_spec i k); [|lia].
    apply sorted_desc_order; subst s; lia.
Qed.

(** The count [_nth_highest] ends up using: [n], clamped to the number of
    non-NaN values. *)
Definition clamp (n m : Z) : Z := if (n >? m)%Z then m else n.

Definition warn_if (b : bool) (e : event) : list event :=
  if b then [e] else [].

Lemma state_eta (s : state) : mkState (heap s) (events s) = s.
Proof. destruct s; reflexivity. Qed.

Lemma nth_highest_run (x : list float) (n : Z) (s : state) :
  let m := size (filter notnan x) in
  let k := clamp n m in
  (1 <= k)%Z ->
  _nth_highest x n s
  = Return (nth (Z.to_nat (k - 1)) (sorted_desc x) nan)
      (mkState (heap s)
         (events s ++ warn_if (n >? m)%Z Warn_n_top_genes_gt_dispersions)).
Proof.
  intros m k Hk. unfold _nth_highest, bind. fold m.
  assert (Hsize : size (rev (np_sort (rev (filter notnan x)))) = m).
  { unfold m, size. f_equal. apply sorted_desc_length. }
  assert (Hkm : (k <= m)%Z).
  { unfold k, clamp. destruct (n >? m)%Z eqn:E; lia. }
  unfold k, clamp, warn_if in *. destruct (n >? m)%Z eqn:E.
  - unfold emit, ret, py_getitem. cbn [heap events]. rewrite Hsize.
    replace ((0 <=? m - 1)%Z && (m - 1 <? m)%Z) with true
      by (symmetry; apply andb_true_iff; split; lia).
    reflexivity.
  - unfold ret, py_getitem. rewrite Hsize.
    replace ((0 <=? n - 1)%Z && (n - 1 <? m)%Z) with true
      by (symmetry; apply andb_true_iff; split; lia).
    rewrite app_nil_r, state_eta. reflexivity.
Qed.

(** With no non-NaN value at all the clamped count is 0, and [x[n - 1]]
    indexes an empty array. *)
Lemma nth_highest_all_nan (x : list float) (n : Z) (s : state) :
  filter notnan x = [] -> (1 <= n)%Z ->
  _nth_highest x n s
  = Raise IndexError
      (mkState (heap s) (events s ++ [Warn_n_top_genes_gt_dispersions])).
Proof.
  intros Hx Hn. unfold _nth_highest, bind. rewrite Hx.
  change (size (@nil float)) with 0%Z.
  replace (n >? 0)%Z with true by (symmetry; lia).
  reflexivity.
Qed.

(** The selection computed by the top-N branch of [_subset_genes]. *)
Definition topn_threshold (n_vars : Z) (d : list float) (N : Z) : float :=
  let k := clamp (clamp N n_vars) (size (filter notnan d)) in
  nth (Z.to_nat (k - 1)) (sorted_desc d) nan.

Definition topn_events (n_vars : Z) (d : list float) (N : Z) : list event :=
  warn_if (N >? n_vars)%Z Info_n_top_genes_gt_n_var
  ++ warn_if (clamp N n_vars >? size (filter notnan d))%Z
       Warn_n_top_genes_gt_dispersions
  ++ [Debug_cutoff (clamp N n_vars) (topn_threshold n_vars d N)].

Lemma subset_genes_topn_run (n_vars : Z) (mean : list float) (dl : loc)
    (N : Z) (s : state) :
  let d := nth dl (heap s) [] in
  (1 <= clamp (clamp N n_vars) (size (filter notnan d)))%Z ->
  _subset_genes n_vars mean dl (TopN N) s
  = Return (map (fun v => geb (nan_to_num v) (topn_threshold n_vars d N)) d)
      (mkState (heap s) (events s ++ topn_events n_vars d N)).
Proof.
  intros d Hk. unfold _subset_genes, topn_events, topn_threshold.
  assert (EC : clamp N n_vars = if (N >? n_vars)%Z then n_vars else N)
    by reflexivity.
  unfold warn_if at 1.
  destruct (N >? n_vars)%Z eqn:EN; rewrite EC in *;
    unfold bind, emit, ret, load; cbn [heap events]; fold d;
    rewrite nth_highest_run by exact Hk; cbn [heap events];
    rewrite <- ?app_assoc; reflexivity.
Qed.

Lemma clamp_min (n m : Z) : clamp n m = Z.min n m.
Proof. unfold clamp. destruct (n >? m)%Z eqn:E; lia. Qed.

Lemma count_true_map {A} (f : A -> bool) (l : list A) :
  count_true (map f l) = length (filter f l).
Proof.
  unfold count_true. induction l as [|a l IH]; simpl; [reflexivity|].
  destruct (f a); simpl; congruence.
Qed.

Lemma nth_map_lt {A B} (f : A -> B) (l : list A) (i : nat) (db : B) (da : A) :
  (i < length l)%nat -> nth i (map f l) db = f (nth i l da).
Proof.
  revert i. induction l as [|a l IH]; intros [|i] H; simpl in *; try lia.
  - reflexivity.
  - apply IH. lia.
Qed.

Lemma negb_notnan_isnan (l : list float) :
  filter (fun x => negb (notnan x)) l = filter isnan l.
Proof.
  apply filter_ext. intros x. unfold notnan. apply negb_involutive.
Qed.

(** At least [k] of the non-NaN genes pass a threshold that is the [k]-th
    highest value and is not [+inf]. *)
Lemma topn_count_notnan_ge (d : list float) (k : nat) :
  let t := nth (k - 1) (sorted_desc d) nan in
  (1 <= k)%nat -> (k <= length (filter notnan d))%nat ->
  (t <=? max_float) = true ->
  (k <= length (filter (fun v => geb (nan_to_num v) t) (filter notnan d)))%nat.
Proof.
  intros t H1 Hk Ht.
  rewrite <- sorted_desc_length in Hk.
  pose proof (sorted_desc_count_ge d k H1 Hk) as Hc. fold t in Hc.
  rewrite <- (filter_length_Permutation _ _ _ (sorted_desc_Permutation d)) in Hc.
  eapply Nat.le_trans; [exact Hc|].
  apply filter_length_impl. intros v Hv Hle.
  apply filter_In in Hv. destruct Hv as [_ Hv].
  unfold notnan in Hv. apply negb_true_iff in Hv.
  apply FFacts.nan_to_num_ge; assumption.
Qed.

(** For a non-NaN value, [nan_to_num] changes the comparison with the
    threshold in two places only: at [+inf], which is lowered to the largest
    finite float, and at [-inf], which is raised to the most negative one. *)
Lemma geb_nan_to_num_leb (t v : float) :
  isnan v = false -> isnan t = false ->
  (t <=? max_float) = true ->
  ((v =? neg_infinity) = true ->
   (- max_float <? t) = true \/ (t =? neg_infinity) = true) ->
  geb (nan_to_num v) t = (t <=? v).
Proof.
  intros Hv Ht Hmax Hneg. unfold geb, nan_to_num. rewrite Hv.
  destruct (v =? infinity) eqn:E1.
  - rewrite Hmax. symmetry. clear Hneg. FFacts.forder.
  - destruct (v =? neg_infinity) eqn:E2; [|reflexivity].
    clear E1 Hmax. destruct (Hneg eq_refl) as [H|H]; clear Hneg.
    + replace (t <=? - max_float) with false
        by (symmetry; FFacts.forder).
      symmetry. FFacts.forder.
    + replace (t <=? - max_float) with true
        by (symmetry; FFacts.forder).
      symmetry. FFacts.forder.
Qed.

(** With a threshold that is not [+inf], that no [-inf] gene reaches from
    below and at which at most one gene sits, exactly [k] of the non-NaN
    genes pass. *)
Lemma topn_count_notnan_exact (d : list float) (k : nat) :
  let t := nth (k - 1) (sorted_desc d) nan in
  (1 <= k)%nat -> (k <= length (filter notnan d))%nat ->
  (t <=? max_float) = true ->
  (forall v, In v d -> (v =? neg_infinity) = true ->
     (- max_float <? t) = true \/ (t =? neg_infinity) = true) ->
  (length (filter (fun v => (v =? t)%float) d) <= 1)%nat ->
  length (filter (fun v => geb (nan_to_num v) t) (filter notnan d)) = k.
Proof.
  intros t H1 Hk Hmax Hneg Htie.
  rewrite <- sorted_desc_length in Hk.
  assert (Ht : isnan t = false).
  { apply sorted_desc_notnan with (x := d). apply nth_In. lia. }
  assert (Htie' : (length (filter (fun v => (v =? t)%float) (sorted_desc d)) <= 1)%nat).
  { rewrite <- (filter_length_Permutation _ _ _ (sorted_desc_Permutation d)).
    rewrite (filter_length_split (fun v => (v =? t)%float) notnan d) in Htie.
    lia. }
  pose proof (sorted_desc_count_eq d k H1 Hk Htie') as Hc. fold t in Hc.
  rewrite <- (filter_length_Permutation _ _ _ (sorted_desc_Permutation d)) in Hc.
  rewrite <- Hc. f_equal. apply filter_ext_in. intros v Hv.
  apply filter_In in Hv. destruct Hv as [Hin Hv].
  unfold notnan in Hv. apply negb_true_iff in Hv.
  apply geb_nan_to_num_leb; [exact Hv|exact Ht|exact Hmax|].
  apply Hneg. exact Hin.
Qed.

(** C2 (amended). In top-N mode [_subset_genes] flags gene [i] exactly
    when [nan_to_num] of its normalized dispersion reaches the threshold,
    the [k]-th highest non-NaN value with [k = min(N, gene count, number
    of non-NaN values)], provided [k >= 1].  When the threshold is not
    [+inf] at least [k] genes are selected, and exactly [k] are when,
    moreover, no [-inf] gene reaches the threshold from below (the
    threshold lies above the most negative finite float, or is [-inf]),
    no NaN gene reaches it ([0 < threshold] whenever a NaN is present) and
    at most one gene sits at the threshold. *)
Theorem C2_topn_threshold_selection (n_vars : Z) (mean : list float)
    (dl : loc) (N : Z) (s : state) :
  let d := nth dl (heap s) [] in
  let k := Z.min (Z.min N n_vars) (size (filter notnan d)) in
  let t := nth (Z.to_nat (k - 1)) (sorted_desc d) nan in
  (1 <= k)%Z ->
  exists sel s',
    _subset_genes n_vars mean dl (TopN N) s = Return sel s' /\
    sel = map (fun v => geb (nan_to_num v) t) d /\
    ((t <=? max_float) = true -> (Z.to_nat k <= count_true sel)%nat) /\
    ((t <=? max_float) = true ->
     (forall v, In v d -> (v =? neg_infinity) = true ->
        (- max_float <? t) = true \/ (t =? neg_infinity) = true) ->
     (forall v, In v d -> isnan v = true -> (0 <? t) = true) ->
     (length (filter (fun v => (v =? t)%float) d) <= 1)%nat ->
     count_true sel = Z.to_nat k).
Proof.
  intros d k t Hk.
  assert (Ek : clamp (clamp N n_vars) (size (filter notnan d)) = k)
    by (rewrite !clamp_min; reflexivity).
  pose proof (subset_genes_topn_run n_vars mean dl N s) as Hrun.
  cbv zeta in Hrun. fold d in Hrun. rewrite Ek in Hrun.
  specialize (Hrun Hk).
  assert (Et : topn_threshold n_vars d N = t)
    by (unfold topn_threshold; rewrite Ek; reflexivity).
  rewrite Et in Hrun.
  assert (Hkm : (Z.to_nat k <= length (filter notnan d))%nat)
    by (unfold k, size; lia).
  assert (Hk1 : (1 <= Z.to_nat k)%nat) by lia.
  assert (Et' : t = nth (Z.to_nat k - 1) (sorted_desc d) nan)
    by (unfold t; f_equal; lia).
  do 2 eexists. split; [exact Hrun|]. split; [reflexivity|].
  rewrite count_true_map.
  rewrite (filter_length_split _ notnan d). split.
  - intros Ht. rewrite Et' in Ht |- *.
    pose proof (topn_count_notnan_ge d (Z.to_nat k) Hk1 Hkm Ht). lia.
  - intros Hmax Hneg Hnan Htie. rewrite Et' in Hmax, Hneg, Htie, Hnan |- *.
    rewrite (topn_count_notnan_exact d (Z.to_nat k) Hk1 Hkm Hmax Hneg Htie).
    rewrite filter_none; [simpl; lia|].
    intros v Hv. apply filter_In in Hv. destruct Hv as [Hin Hv].
    unfold notnan in Hv. rewrite negb_involutive in Hv.
    rewrite FFacts.nan_to_num_nan by exact Hv.
    specialize (Hnan v Hin Hv). clear -Hnan. FFacts.forder.
Qed.

Lemma C2_topn_threshold_selection_witness :
  exists sel s',
    _subset_genes 3 [1; 1; 1] 0%nat (TopN 2) (mkState [[infinity; 2; 1]] [])
    = Return sel s' /\
    sel = map (fun v => geb (nan_to_num v) 2) [infinity; 2; 1] /\
    ((2 <=? max_float) = true -> (2 <= count_true sel)%nat) /\
    ((2 <=? max_float) = true ->
     (forall v, In v [infinity; 2; 1] -> (v =? neg_infinity) = true ->
        (- max_float <? 2) = true \/ (2 =? neg_infinity) = true) ->
     (forall v, In v [infinity; 2; 1] -> isnan v = true -> (0 <? 2) = true) ->
     (length (filter (fun v => (v =? 2)%float) [infinity; 2; 1]%float) <= 1)%nat ->
     count_true sel = 2%nat).
Proof.
  apply (C2_topn_threshold_selection 3 [1; 1; 1] 0%nat 2
           (mkState [[infinity; 2; 1]] [])).
  vm_compute. discriminate.
Defined.

(** C2, as stated, fails: with one NaN among two genes and N = 2 the
    threshold is the only non-NaN value, the NaN gene (read as 0) stays
    below it, and one gene is selected, fewer than min(N, gene count) = 2. *)
Lemma C2_counterexample :
  exists sel s',
    _subset_genes 2 [1; 1] 0%nat (TopN 2) (mkState [[nan; 1]] [])
    = Return sel s' /\
    sel = [false; true] /\
    (count_true sel < Z.to_nat (Z.min 2 2))%nat.
Proof.
  do 2 eexists. split; [vm_compute; reflexivity|].
  split; [reflexivity|]. vm_compute. lia.
Qed.

Lemma isfinite_spec (v : float) :
  isfinite v = true -> isnan v = false /\ isinf v = false.
Proof.
  unfold isfinite. rewrite andb_true_iff, !negb_true_iff. tauto.
Qed.

(** Every non-NaN value reaches the lowest non-NaN value. *)
Lemma sorted_desc_last_le (d : list float) (v : float) :
  In v d -> isnan v = false ->
  (nth (length (filter notnan d) - 1) (sorted_desc d) nan <=? v) = true.
Proof.
  intros Hin Hv.
  assert (Hs : In v (sorted_desc d)).
  { apply (Permutation_in _ (sorted_desc_Permutation d)).
    apply filter_In. split; [exact Hin|]. unfold notnan. rewrite Hv. reflexivity. }
  apply (In_nth _ _ nan) in Hs. destruct Hs as (i & Hi & <-).
  rewrite sorted_desc_length in Hi.
  apply sorted_desc_order; rewrite ?sorted_desc_length; lia.
Qed.

(** C9 (amended). In top-N mode, when the requested N exceeds the number
    [m] of genes with a non-NaN normalized dispersion and [m >= 1],
    [_subset_genes] returns: it reports the info message
    "`n_top_genes` > `adata.n_var`" when N exceeds the gene count and the
    [UserWarning] of [_nth_highest] when N, clamped to the gene count,
    still exceeds [m] (at least one of the two is reported), it uses the
    [m]-th highest, that is the lowest, non-NaN value as threshold, and
    every gene with a finite normalized dispersion is selected. *)
Theorem C9_topn_clamp_to_available (n_vars : Z) (mean : list float)
    (dl : loc) (N : Z) (s : state) :
  let d := nth dl (heap s) [] in
  let m := size (filter notnan d) in
  n_vars = size d ->
  (N > m)%Z -> (1 <= m)%Z ->
  exists sel s',
    _subset_genes n_vars mean dl (TopN N) s = Return sel s' /\
    heap s' = heap s /\
    events s' = events s ++ topn_events n_vars d N /\
    ((N > n_vars)%Z -> In Info_n_top_genes_gt_n_var (topn_events n_vars d N)) /\
    ((Z.min N n_vars > m)%Z ->
       In Warn_n_top_genes_gt_dispersions (topn_events n_vars d N)) /\
    ((N > n_vars)%Z \/ (Z.min N n_vars > m)%Z) /\
    sel = map (fun v => geb (nan_to_num v)
                          (nth (Z.to_nat (m - 1)) (sorted_desc d) nan)) d /\
    (forall i, (i < length d)%nat ->
       isfinite (nth i d nan) = true -> nth i sel false = true).
Proof.
  intros d m Hn HN Hm.
  assert (Hmd : (m <= size d)%Z).
  { unfold m, size. pose proof (filter_length_le notnan d). lia. }
  assert (Ek : clamp (clamp N n_vars) (size (filter notnan d)) = m).
  { rewrite !clamp_min. fold m. lia. }
  pose proof (subset_genes_topn_run n_vars mean dl N s) as Hrun.
  cbv zeta in Hrun. fold d in Hrun. rewrite Ek in Hrun.
  specialize (Hrun Hm).
  assert (Et : topn_threshold n_vars d N
               = nth (Z.to_nat (m - 1)) (sorted_desc d) nan)
    by (unfold topn_threshold; rewrite Ek; reflexivity).
  do 2 eexists. split; [exact Hrun|]. cbn [heap events].
  split; [reflexivity|]. split; [reflexivity|].
  split; [|split; [|split; [|split]]].
  - intros H. unfold topn_events, warn_if.
    replace (N >? n_vars)%Z with true by (symmetry; lia).
    left. reflexivity.
  - intros H. unfold topn_events, warn_if. rewrite clamp_min. fold m.
    replace (Z.min N n_vars >? m)%Z with true by (symmetry; lia).
    apply in_or_app. right. left. reflexivity.
  - lia.
  - rewrite Et. reflexivity.
  - intros i Hi Hfin. rewrite Et.
    rewrite (nth_map_lt _ d i false nan) by exact Hi.
    apply isfinite_spec in Hfin. destruct Hfin as [Hnan Hinf].
    rewrite FFacts.nan_to_num_finite by assumption.
    unfold geb. replace (Z.to_nat (m - 1)) with (length (filter notnan d) - 1)%nat
      by (unfold m, size; lia).
    apply sorted_desc_last_le; [apply nth_In; exact Hi | exact Hnan].
Qed.

Lemma C9_topn_clamp_to_available_witness :
  exists sel s',
    _subset_genes 3 [1; 1; 1] 0%nat (TopN 5) (mkState [[nan; 2; -1]] [])
    = Return sel s' /\
    heap s' = [[nan; 2; -1]] /\
    events s' = [] ++ topn_events 3 [nan; 2; -1] 5 /\
    ((5 > 3)%Z -> In Info_n_top_genes_gt_n_var (topn_events 3 [nan; 2; -1] 5)) /\
    ((Z.min 5 3 > 2)%Z ->
       In Warn_n_top_genes_gt_dispersions (topn_events 3 [nan; 2; -1] 5)) /\
    ((5 > 3)%Z \/ (Z.min 5 3 > 2)%Z) /\
    sel = map (fun v => geb (nan_to_num v) (-1)) [nan; 2; -1] /\
    (forall i, (i < 3)%nat ->
       isfinite (nth i [nan; 2; -1] nan) = true -> nth i sel false = true).
Proof.
  apply (C9_topn_clamp_to_available 3 [1; 1; 1] 0%nat 5
           (mkState [[nan; 2; -1]] []));
    vm_compute; congruence.
Defined.

(** C9, as stated, fails on the diagnostic: with N above the gene count
    and no NaN at all, the clamp to the gene count comes with an info
    message, [_nth_highest] has nothing left to clamp, and no warning is
    emitted. *)
Lemma C9_counterexample :
  (2 > size (filter notnan [1]%float))%Z /\
  _subset_genes 1 [1] 0%nat (TopN 2) (mkState [[1]] [])
  = Return [true]
      (mkState [[1]] [Info_n_top_genes_gt_n_var; Debug_cutoff 1 1]) /\
  existsb is_warning [Info_n_top_genes_gt_n_var; Debug_cutoff 1 1] = false.
Proof.
  split; [vm_compute; reflexivity|].
  split; vm_compute; reflexivity.
Qed.

(** Two more corners of the threshold rule.  A threshold of [+inf] selects
    nothing, because [nan_to_num] lowers [+inf] to the largest finite
    float; and N = 0 indexes [x[-1]], the lowest value, so that every
    non-NaN gene is selected. *)
Remark topn_corner_cases :
  _subset_genes 3 [1; 1; 1] 0%nat (TopN 1)
    (mkState [[infinity; infinity; 1]] [])
  = Return [false; false; false]
      (mkState [[infinity; infinity; 1]] [Debug_cutoff 1 infinity]) /\
  _subset_genes 2 [1; 1] 0%nat (TopN 0) (mkState [[2; 1]] [])
  = Return [true; true] (mkState [[2; 1]] [Debug_cutoff 0 1]).
Proof. split; vm_compute; reflexivity. Qed.

(** A third corner: [nan_to_num] raises [-inf] to the most negative finite
    float, so a gene at [-inf] reaches a threshold that sits there, and
    three genes are selected for N = 2 although no two dispersions are
    equal. *)
Remark topn_neg_infinity_corner :
  _subset_genes 3 [1; 1; 1] 0%nat (TopN 2)
    (mkState [[1; - max_float; neg_infinity]] [])
  = Return [true; true; true]
      (mkState [[1; - max_float; neg_infinity]]
               [Debug_cutoff 2 (- max_float)]).
Proof. vm_compute. reflexivity. Qed.

(** With no non-NaN dispersion at all the clamped count is 0 and the
    threshold lookup raises [IndexError]. *)
Lemma subset_genes_all_nan_raises :
  _subset_genes 1 [1] 0%nat (TopN 1) (mkState [[nan]] [])
  = Raise IndexError (mkState [[nan]] [Warn_n_top_genes_gt_dispersions]).
Proof. vm_compute. reflexivity. Qed.

(** C10. In top-N mode with [1 <= N <=] the number of non-NaN values,
    when the N-th highest non-NaN normalized dispersion is [<= 0] every
    gene whose normalized dispersion is NaN is flagged, and as soon as
    there is such a gene more than N genes are selected. *)
Theorem C10_topn_nan_genes_selected (n_vars : Z) (mean : list float)
    (dl : loc) (N : Z) (s : state) :
  let d := nth dl (heap s) [] in
  let t := nth (Z.to_nat (N - 1)) (sorted_desc d) nan in
  n_vars = size d ->
  (1 <= N)%Z -> (N <= size (filter notnan d))%Z ->
  (t <=? 0) = true ->
  exists sel s',
    _subset_genes n_vars mean dl (TopN N) s = Return sel s' /\
    sel = map (fun v => geb (nan_to_num v) t) d /\
    (forall i, (i < length d)%nat ->
       isnan (nth i d 0) = true -> nth i sel false = true) /\
    ((exists v, In v d /\ isnan v = true) ->
     (Z.to_nat N < count_true sel)%nat).
Proof.
  intros d t Hn H1 HN Ht.
  assert (Hmd : (size (filter notnan d) <= size d)%Z).
  { unfold size. pose proof (filter_length_le notnan d). lia. }
  assert (Ek : clamp (clamp N n_vars) (size (filter notnan d)) = N).
  { rewrite !clamp_min. lia. }
  pose proof (subset_genes_topn_run n_vars mean dl N s) as Hrun.
  cbv zeta in Hrun. fold d in Hrun. rewrite Ek in Hrun.
  specialize (Hrun H1).
  assert (Et : topn_threshold n_vars d N = t)
    by (unfold topn_threshold; rewrite Ek; reflexivity).
  rewrite Et in Hrun.
  assert (Hnan : forall v, isnan v = true -> geb (nan_to_num v) t = true).
  { intros v Hv. rewrite FFacts.nan_to_num_nan by exact Hv. exact Ht. }
  do 2 eexists. split; [exact Hrun|]. split; [reflexivity|]. split.
  - intros i Hi Hv.
    rewrite (nth_map_lt _ d i false 0) by exact Hi. apply Hnan, Hv.
  - intros (v & Hin & Hv). rewrite count_true_map.
    rewrite (filter_length_split _ notnan d).
    assert (Hmax : (t <=? max_float) = true) by (clear -Ht; FFacts.forder).
    assert (Et' : t = nth (Z.to_nat N - 1) (sorted_desc d) nan)
      by (unfold t; f_equal; lia).
    rewrite Et' in Hmax.
    pose proof (topn_count_notnan_ge d (Z.to_nat N)) as Hge.
    cbv zeta in Hge. rewrite <- Et' in Hge, Hmax.
    assert (Hge' := Hge ltac:(lia) ltac:(unfold size in HN; lia) Hmax).
    assert (Hone : (1 <= length (filter (fun v => geb (nan_to_num v) t)
                           (filter (fun x => negb (notnan x)) d)))%nat).
    { apply filter_length_pos with (x := v); [|apply Hnan, Hv].
      apply filter_In. split; [exact Hin|].
      unfold notnan. rewrite Hv. reflexivity. }
    lia.
Qed.

Lemma C10_topn_nan_genes_selected_witness :
  exists sel s',
    _subset_genes 3 [1; 1; 1] 0%nat (TopN 1) (mkState [[nan; -1; -2]] [])
    = Return sel s' /\
    sel = map (fun v => geb (nan_to_num v) (-1)) [nan; -1; -2] /\
    (forall i, (i < 3)%nat ->
       isnan (nth i [nan; -1; -2] 0) = true -> nth i sel false = true) /\
    ((exists v, In v [nan; -1; -2] /\ isnan v = true) ->
     (1 < count_true sel)%nat).
Proof.
  apply (C10_topn_nan_genes_selected 3 [1; 1; 1] 0%nat 1
           (mkState [[nan; -1; -2]] []));
    vm_compute; congruence.
Defined.

End TopN.

(** ** Per-bin statistics ([_stats_seurat], [_stats_cell_ranger]) *)

Section BinStats.
Local Open Scope float_scope.

(** What [_stats_seurat] does to a line whose scale is NaN. *)
Definition fallback (r : bin_stat) : bin_stat :=
  if F64.isnan (dev r) then mk_bin_stat (bin r) 0 (avg r) else r.

(** The line [agg2] computes for bin [b]. *)
Definition bin_line (f1 f2 : list float -> float) (mean_bins : list nat)
    (dispersions : list float) (b : nat) : bin_stat :=
  let g := group mean_bins dispersions b in mk_bin_stat b (f1 g) (f2 g).

Lemma find_map_bin (F : nat -> bin_stat) (l : list nat) (b : nat) :
  (forall x, bin (F x) = x) -> In b l ->
  find (fun r => Nat.eqb (bin r) b) (map F l) = Some (F b).
Proof.
  intros HF. induction l as [|x l IH]; intros Hin; [destruct Hin|].
  simpl. rewrite HF. destruct (Nat.eqb_spec x b) as [->|Hne]; [reflexivity|].
  destruct Hin as [Hx|Hin]; [congruence|]. apply IH, Hin.
Qed.

Lemma In_observed_bins (mean_bins : list nat) (b : nat) :
  In b mean_bins -> In b (observed_bins mean_bins).
Proof.
  intros Hin. unfold observed_bins. apply filter_In. split.
  - apply in_seq. split; [lia|]. simpl.
    pose proof (proj1 (list_max_le mean_bins (list_max mean_bins)) (Nat.le_refl _)) as Hall.
    rewrite Forall_forall in Hall. specialize (Hall b Hin). lia.
  - apply existsb_exists. exists b. split; [exact Hin|apply Nat.eqb_refl].
Qed.

Lemma lookup_agg2 f1 f2 (mean_bins : list nat) (dispersions : list float) b :
  In b mean_bins ->
  lookup_bin (agg2 f1 f2 mean_bins dispersions) b
  = Some (bin_line f1 f2 mean_bins dispersions b).
Proof.
  intros Hin. unfold lookup_bin, agg2.
  apply (find_map_bin (bin_line f1 f2 mean_bins dispersions)).
  - reflexivity.
  - apply In_observed_bins, Hin.
Qed.

Lemma lookup_fallback_agg2 f1 f2 (mean_bins : list nat)
    (dispersions : list float) b :
  In b mean_bins ->
  lookup_bin (map fallback (agg2 f1 f2 mean_bins dispersions)) b
  = Some (fallback (bin_line f1 f2 mean_bins dispersions b)).
Proof.
  intros Hin. unfold lookup_bin, agg2. rewrite map_map.
  apply (find_map_bin (fun x => fallback (bin_line f1 f2 mean_bins dispersions x))).
  - intros x. unfold fallback. destruct (F64.isnan _); reflexivity.
  - apply In_observed_bins, Hin.
Qed.

Lemma unbin_run (stats : list bin_stat) (F : nat -> bin_stat)
    (mean_bins : list nat) (s : state) :
  (forall b, In b mean_bins -> lookup_bin stats b = Some (F b)) ->
  _unbin stats mean_bins s = Return (map F mean_bins) s.
Proof.
  induction mean_bins as [|b rest IH]; intros H; [reflexivity|].
  simpl. rewrite (H b) by (left; reflexivity).
  unfold bind. rewrite IH by (intros x Hx; apply H; right; exact Hx).
  reflexivity.
Qed.

Lemma fallback_steps (stats : list bin_stat) :
  map (fun p : bin_stat * bin_stat =>
         if F64.isnan (dev (fst p))
         then mk_bin_stat (bin (snd p)) 0 (dev (snd p))
         else snd p)
      (combine stats
         (map (fun r => if F64.isnan (dev r)
                        then mk_bin_stat (bin r) (avg r) (avg r) else r)
              stats))
  = map fallback stats.
Proof.
  induction stats as [|r l IH]; [reflexivity|].
  simpl. rewrite IH. f_equal. unfold fallback.
  destruct (F64.isnan (dev r)); reflexivity.
Qed.

Lemma In_flatnonzero (flags : list bool) (i : nat) :
  (i < length flags)%nat -> nth i flags false = true ->
  In i (flatnonzero flags).
Proof.
  intros Hi Hf. unfold flatnonzero.
  apply in_map_iff. exists (i, true). split; [reflexivity|].
  apply filter_In. split; [|reflexivity].
  assert (E : (i, true) = nth i (combine (seq 0 (length flags)) flags) (0%nat, false)).
  { rewrite combine_nth by apply length_seq.
    rewrite seq_nth by exact Hi. rewrite Hf. reflexivity. }
  rewrite E. apply nth_In. rewrite length_combine, length_seq. lia.
Qed.

Lemma flatnonzero_In (flags : list bool) (i : nat) :
  In i (flatnonzero flags) -> nth i flags false = true.
Proof.
  unfold flatnonzero. intros H. apply in_map_iff in H.
  destruct H as ([j b] & Hj & H). simpl in Hj. subst j.
  apply filter_In in H. destruct H as [H Hb]. simpl in Hb. subst b.
  apply (In_nth _ _ (0%nat, false)) in H. destruct H as (k & Hk & E).
  rewrite length_combine, length_seq in Hk.
  rewrite combine_nth in E by apply length_seq.
  rewrite seq_nth in E by lia. inversion E. reflexivity.
Qed.

(** The genes [_stats_seurat] reports: those whose bin has a NaN scale. *)
Definition single_bin_genes (mean_bins : list nat) (dispersions : list float)
  : list nat :=
  flatnonzero
    (map (fun r => F64.isnan (dev r))
         (map (bin_line nanmean nanstd_ddof1 mean_bins dispersions) mean_bins)).

Lemma stats_seurat_run (mean_bins : list nat) (dispersions : list float)
    (s : state) :
  let gi := single_bin_genes mean_bins dispersions in
  _stats_seurat mean_bins dispersions s
  = Return
      (map (fun b => fallback (bin_line nanmean nanstd_ddof1 mean_bins dispersions b))
           mean_bins)
      (mkState (heap s)
         (events s ++ if (0 <? length gi)%nat then [Debug_single_bin gi] else [])).
Proof.
  intros gi. unfold _stats_seurat, bind.
  rewrite (unbin_run _ (bin_line nanmean nanstd_ddof1 mean_bins dispersions))
    by (intros b Hb; apply lookup_agg2, Hb).
  fold (single_bin_genes mean_bins dispersions). fold gi.
  destruct (0 <? length gi)%nat eqn:E.
  - unfold emit, ret. rewrite fallback_steps.
    rewrite (unbin_run _ (fun b => fallback (bin_line nanmean nanstd_ddof1 mean_bins dispersions b)))
      by (intros b Hb; apply lookup_fallback_agg2, Hb).
    reflexivity.
  - unfold ret.
    rewrite (unbin_run _ (bin_line nanmean nanstd_ddof1 mean_bins dispersions))
      by (intros b Hb; apply lookup_agg2, Hb).
    rewrite app_nil_r, state_eta. f_equal.
    apply map_ext_in. intros b Hb. unfold fallback.
    destruct (F64.isnan (dev (bin_line nanmean nanstd_ddof1 mean_bins dispersions b))) eqn:Hn;
      [exfalso|reflexivity].
    apply (In_nth _ _ 0%nat) in Hb. destruct Hb as (i & Hi & Hb).
    assert (Hin : In i gi).
    { apply In_flatnonzero.
      - rewrite !length_map. exact Hi.
      - rewrite (nth_map_lt _ _ i false (mk_bin_stat 0 0 0))
          by (rewrite length_map; exact Hi).
        rewrite (nth_map_lt _ _ i (mk_bin_stat 0 0 0) 0%nat) by exact Hi.
        rewrite Hb. exact Hn. }
    apply Nat.ltb_ge in E. destruct gi; [destruct Hin|simpl in E; lia].
Qed.

Lemma group_length_le (mean_bins : list nat) (dispersions : list float)
    (b : nat) :
  (length (group mean_bins dispersions b)
   <= count_occ Nat.eq_dec mean_bins b)%nat.
Proof.
  unfold group, mask_select. rewrite length_map.
  revert dispersions. induction mean_bins as [|x l IH]; intros [|y d];
    simpl; try lia.
  specialize (IH d).
  destruct (Nat.eqb_spec b x) as [->|Hne]; simpl.
  - destruct (Nat.eq_dec x x); [lia|congruence].
  - destruct (Nat.eq_dec x b); [congruence|lia].
Qed.

Lemma nanstd_ddof1_short (g : list float) :
  (length g <= 1)%nat -> F64.isnan (nanstd_ddof1 g) = true.
Proof.
  intros H. unfold nanstd_ddof1.
  pose proof (filter_length_le F64.notnan g) as Hf.
  destruct (Nat.leb_spec (length (filter F64.notnan g)) 1); [reflexivity|lia].
Qed.

(** C6 (amended). [_stats_seurat] never fails, and every bin holding
    exactly one gene gets the fallback: its scale becomes the location the
    aggregation computed for it, its location becomes 0, and the debug
    message naming the gene is logged.  [_stats_cell_ranger] has no such
    fallback: every gene gets the median and the MAD of its bin as they
    were aggregated, and nothing is logged. *)
Theorem C6_single_gene_bins (mad : list float -> float)
    (mean_bins : list nat) (dispersions : list float) (s : state) :
  (exists stats s',
     _stats_seurat mean_bins dispersions s = Return stats s' /\
     heap s' = heap s /\
     length stats = length mean_bins /\
     forall i, (i < length mean_bins)%nat ->
       let b := nth i mean_bins 0%nat in
       let original := bin_line nanmean nanstd_ddof1 mean_bins dispersions b in
       count_occ Nat.eq_dec mean_bins b = 1%nat ->
       nth i stats (mk_bin_stat 0 0 0) = mk_bin_stat b 0 (avg original) /\
       exists gen_indices,
         In (Debug_single_bin gen_indices) (events s') /\ In i gen_indices) /\
  _stats_cell_ranger mad mean_bins dispersions s
  = Return (map (bin_line nanmedian mad mean_bins dispersions) mean_bins) s.
Proof.
  split.
  - do 2 eexists. split; [apply stats_seurat_run|]. cbn [heap events].
    split; [reflexivity|]. split; [apply length_map|].
    intros i Hi Hone.
    set (b := nth i mean_bins 0%nat) in *.
    set (original := bin_line nanmean nanstd_ddof1 mean_bins dispersions b).
    assert (Hnan : F64.isnan (dev original) = true).
    { apply nanstd_ddof1_short.
      pose proof (group_length_le mean_bins dispersions b). lia. }
    split.
    + rewrite (nth_map_lt _ _ i _ 0%nat) by exact Hi.
      fold b. fold original. unfold fallback. rewrite Hnan. reflexivity.
    + assert (Hin : In i (single_bin_genes mean_bins dispersions)).
      { apply In_flatnonzero.
        - rewrite !length_map. exact Hi.
        - rewrite (nth_map_lt _ _ i false (mk_bin_stat 0 0 0))
            by (rewrite length_map; exact Hi).
          rewrite (nth_map_lt _ _ i (mk_bin_stat 0 0 0) 0%nat) by exact Hi.
          exact Hnan. }
      exists (single_bin_genes mean_bins dispersions). split; [|exact Hin].
      apply in_or_app. right.
      destruct (single_bin_genes mean_bins dispersions) eqn:E;
        [destruct Hin|]. left. reflexivity.
  - unfold _stats_cell_ranger. apply unbin_run.
    intros b Hb. apply lookup_agg2, Hb.
Qed.

Lemma C6_single_gene_bins_witness :
  (exists stats s',
     _stats_seurat [0%nat; 1%nat; 1%nat] [2; 3; 5] empty_state
     = Return stats s' /\
     heap s' = heap empty_state /\
     length stats = 3%nat /\
     forall i, (i < 3)%nat ->
       let b := nth i [0%nat; 1%nat; 1%nat] 0%nat in
       let original :=
         bin_line nanmean nanstd_ddof1 [0%nat; 1%nat; 1%nat] [2; 3; 5] b in
       count_occ Nat.eq_dec [0%nat; 1%nat; 1%nat] b = 1%nat ->
       nth i stats (mk_bin_stat 0 0 0) = mk_bin_stat b 0 (avg original) /\
       exists gen_indices,
         In (Debug_single_bin gen_indices) (events s') /\ In i gen_indices) /\
  _stats_cell_ranger statsmodels_mad [0%nat; 1%nat; 1%nat] [2; 3; 5]
    empty_state
  = Return (map (bin_line nanmedian statsmodels_mad [0%nat; 1%nat; 1%nat]
                   [2; 3; 5])
                [0%nat; 1%nat; 1%nat]) empty_state.
Proof.
  exact (C6_single_gene_bins statsmodels_mad [0%nat; 1%nat; 1%nat] [2; 3; 5]
           empty_state).
Defined.

(** C6, as stated, fails for "cell_ranger": a bin with the single
    dispersion 2 keeps location 2 (the median) and scale 0 (the MAD), where
    the fallback would give location 0 and scale 2, and nothing is logged. *)
Lemma C6_counterexample :
  exists r,
    _stats_cell_ranger statsmodels_mad [0%nat] [2] empty_state
    = Return [r] empty_state /\
    count_occ Nat.eq_dec [0%nat] 0%nat = 1%nat /\
    (avg r =? 2) = true /\ (dev r =? 0) = true /\
    (avg r =? 0) = false /\ (dev r =? 2) = false.
Proof.
  eexists. split; [vm_compute; reflexivity|].
  repeat split; vm_compute; reflexivity.
Qed.

End BinStats.

(** ** Batch aggregation ([_highly_variable_genes_batched]) *)

Section MonadFacts.

Lemma bind_inv {A B} (m : M A) (k : A -> M B) (s s' : state) (b : B) :
  bind m k s = Return b s' ->
  exists a s1, m s = Return a s1 /\ k a s1 = Return b s'.
Proof.
  unfold bind. destruct (m s) as [a s1|e s1]; [eauto|discriminate].
Qed.

Lemma for_each_inv {A B} (f : A -> M B) (l : list A) (s s' : state)
    (bs : list B) :
  for_each f l s = Return bs s' ->
  length bs = length l /\
  forall i db da, i < length l ->
    exists s1 s2, f (nth i l da) s1 = Return (nth i bs db) s2.
Proof.
  revert s bs. induction l as [|a l IH]; intros s bs H; simpl in H.
  - inversion H. split; [reflexivity|]. intros; simpl in *; lia.
  - apply bind_inv in H. destruct H as (b & s1 & Hb & H).
    apply bind_inv in H. destruct H as (bs' & s2 & Hbs & H).
    inversion H; subst. destruct (IH _ _ Hbs) as [Hl Hi].
    split; [simpl; congruence|].
    intros [|i] db da Hlt; simpl in *; [eauto|]. apply Hi. lia.
Qed.

End MonadFacts.

Ltac minv H :=
  repeat (let a := fresh "a" in
          let s1 := fresh "s" in
          let Ha := fresh "Ha" in
          apply bind_inv in H; destruct H as (a & s1 & Ha & H);
          cbv beta in H).

Section BatchAggregation.

Variable _get_mean_var : matrix -> list float * list float.
Variables np_log np_log1p np_expm1 : float -> float.
Variable pd_cut_n : list float -> Z -> list nat.
Variable pd_cut_edges : list float -> list float -> list nat.
Variable np_percentile : list float -> list float -> list float.
Variable get_mad : list float -> float.
Variable filter_genes : matrix -> list bool.
Variable series_to_array : loc -> M loc.

Local Abbreviation single_batch :=
  (_highly_variable_genes_single_batch _get_mean_var np_log np_log1p
     np_expm1 pd_cut_n pd_cut_edges np_percentile get_mad series_to_array).
Local Abbreviation batch_frame' :=
  (batch_frame _get_mean_var np_log np_log1p np_expm1 pd_cut_n pd_cut_edges
     np_percentile get_mad filter_genes series_to_array).
Local Abbreviation batched :=
  (_highly_variable_genes_batched _get_mean_var np_log np_log1p np_expm1
     pd_cut_n pd_cut_edges np_percentile get_mad filter_genes
     series_to_array).

(** The frame of a single batch is indexed by the genes it was given. *)
Lemma single_batch_genes (adata : AnnData) cutoff n_bins flavor s f s' :
  single_batch adata cutoff n_bins flavor s = Return f s' ->
  hvg_gene f = var_names adata.
Proof.
  unfold _highly_variable_genes_single_batch.
  destruct (_get_mean_var _) as [mean var].
  intros H. minv H. inversion H. reflexivity.
Qed.

(** The selection of a single-batch run is the one [_subset_genes] makes
    on the means and on the array of normalized dispersions. *)
Lemma single_batch_selection (adata : AnnData) cutoff n_bins flavor s f s' :
  single_batch adata cutoff n_bins flavor s = Return f s' ->
  exists arr s1,
    _subset_genes (n_vars adata) (hvg_means f) arr cutoff s1
    = Return (hvg_highly_variable f) s'.
Proof.
  unfold _highly_variable_genes_single_batch.
  destruct (_get_mean_var _) as [mean var].
  intros H. minv H. inversion H; subst; clear H. simpl. eauto.
Qed.

Lemma map_nth_seq {A} (l : list A) (d : A) :
  map (fun i => nth i l d) (seq 0 (length l)) = l.
Proof.
  apply (nth_ext _ _ d d).
  - rewrite length_map, length_seq. reflexivity.
  - intros n Hn. rewrite length_map, length_seq in Hn.
    rewrite (nth_map_lt _ _ n d 0) by (rewrite length_seq; exact Hn).
    rewrite seq_nth by exact Hn. reflexivity.
Qed.

Lemma frame_rows_genes (f : hvg_frame) (dn : list float) :
  map row_gene (frame_rows f dn) = hvg_gene f.
Proof.
  unfold frame_rows. rewrite map_map. simpl. apply map_nth_seq.
Qed.

Lemma mask_select_split {A} (xs : list A) (mask : list bool) :
  length mask = length xs ->
  Permutation (mask_select xs mask ++ mask_select xs (map negb mask)) xs.
Proof.
  unfold mask_select. revert mask.
  induction xs as [|x xs IH]; intros [|b mask] Hl; simpl in *; try lia.
  - constructor.
  - assert (Hl' : length mask = length xs) by lia. specialize (IH mask Hl').
    destruct b; simpl.
    + constructor. exact IH.
    + eapply Permutation_trans; [apply Permutation_sym, Permutation_middle|].
      constructor. exact IH.
Qed.

Lemma mask_select_none {A} (xs : list A) (mask : list bool) :
  count_true mask = 0 -> mask_select xs mask = [].
Proof.
  unfold mask_select, count_true. revert mask.
  induction xs as [|x xs IH]; intros [|b mask] H; simpl in *; try reflexivity.
  destruct b; simpl in *; [lia|]. apply IH, H.
Qed.

(** Every batch contributes each gene of the data exactly once: the genes
    kept by the filter, then the filtered-out genes as zero lines. *)
Lemma batch_frame_genes (adata : AnnData) cutoff n_bins flavor batch s rows s' :
  length (filter_genes (X (subset_obs adata batch))) = length (var_names adata) ->
  batch_frame' adata cutoff n_bins flavor batch s = Return rows s' ->
  Permutation (map row_gene rows) (var_names adata).
Proof.
  intros Hl H. unfold batch_frame in H. minv H.
  apply single_batch_genes in Ha. simpl in Ha.
  unfold load in Ha0. inversion Ha0; subst; clear Ha0.
  unfold ret in H. inversion H; subst; clear H.
  unfold subset_obs in Hl. cbn [X] in Hl.
  set (filt := filter_genes
                 (mask_select (X adata) (map (Nat.eqb batch) (obs_batch adata)))) in *.
  pose proof (mask_select_split (var_names adata) filt Hl) as Hp.
  destruct (0 <? count_true (map negb filt)) eqn:E.
  - rewrite map_app, frame_rows_genes, Ha, map_map. simpl.
    rewrite map_id. exact Hp.
  - apply Nat.ltb_ge in E.
    rewrite (mask_select_none (var_names adata) (map negb filt)) in Hp by lia.
    rewrite app_nil_r in Hp. rewrite frame_rows_genes, Ha. exact Hp.
Qed.

(** Gene [g] was selected in the batch whose frame is [rows]. *)
Definition selected_in (g : String.string) (rows : list hvg_row) : bool :=
  existsb (fun r => String.eqb (row_gene r) g && row_highly_variable r) rows.

Lemma fold_left_Zadd_acc (l : list Z) (a : Z) :
  fold_left Z.add l a = (a + fold_left Z.add l 0)%Z.
Proof.
  revert a. induction l as [|x l IH]; intros a; simpl; [lia|].
  rewrite (IH (a + x)%Z), (IH x). lia.
Qed.

Lemma sum_selected_cons (r : hvg_row) (l : list hvg_row) :
  sum_selected (r :: l)
  = (Z.b2z (row_highly_variable r) + sum_selected l)%Z.
Proof.
  unfold sum_selected. simpl. apply fold_left_Zadd_acc.
Qed.

Lemma sum_selected_app (a b : list hvg_row) :
  sum_selected (a ++ b) = (sum_selected a + sum_selected b)%Z.
Proof.
  induction a as [|r a IH]; [reflexivity|].
  simpl app. rewrite !sum_selected_cons, IH. lia.
Qed.

Lemma rows_of_absent (rows : list hvg_row) (g : String.string) :
  ~ In g (map row_gene rows) ->
  rows_of rows g = [] /\ selected_in g rows = false.
Proof.
  induction rows as [|r rows IH]; intros H; [split; reflexivity|].
  simpl in H. unfold rows_of, selected_in in *. simpl.
  destruct (String.eqb_spec (row_gene r) g) as [E|E]; [tauto|].
  simpl. apply IH. tauto.
Qed.

Lemma sum_selected_once (rows : list hvg_row) (g : String.string) :
  NoDup (map row_gene rows) ->
  sum_selected (rows_of rows g) = Z.b2z (selected_in g rows).
Proof.
  induction rows as [|r rows IH]; intros H; [reflexivity|].
  simpl in H. inversion H as [|x l Hnotin Hnd]; subst.
  unfold rows_of, selected_in in *. simpl.
  destruct (String.eqb_spec (row_gene r) g) as [E|E].
  - subst g. destruct (rows_of_absent rows (row_gene r) Hnotin) as [H1 H2].
    unfold rows_of, selected_in in H1, H2.
    rewrite sum_selected_cons, H1, H2. simpl.
    destruct (row_highly_variable r); reflexivity.
  - simpl. apply IH, Hnd.
Qed.

Lemma count_batches (dfs : list (list hvg_row)) (g : String.string) :
  (forall rows, In rows dfs -> NoDup (map row_gene rows)) ->
  sum_selected (rows_of (concat dfs) g)
  = Z.of_nat (length (filter (selected_in g) dfs)).
Proof.
  induction dfs as [|rows dfs IH]; intros H; [reflexivity|].
  simpl concat. unfold rows_of in *. rewrite filter_app, sum_selected_app.
  rewrite IH by (intros x Hx; apply H; right; exact Hx).
  pose proof (sum_selected_once rows g (H rows (or_introl eq_refl))) as E.
  unfold rows_of in E. rewrite E. cbn [filter].
  destruct (selected_in g rows); cbn [length Z.b2z];
    rewrite ?Nat2Z.inj_succ; lia.
Qed.

Lemma take_rows_nth {A} (order : list nat) (col : list A) (d : A) (j : nat) :
  j < length order ->
  nth j (take_rows order col d) d = nth (nth j order 0) col d.
Proof.
  intros H. unfold take_rows.
  apply (nth_map_lt (fun i => nth i col d) order j d 0). exact H.
Qed.

Lemma take_rows_length {A} (order : list nat) (col : list A) (d : A) :
  length (take_rows order col d) = length order.
Proof. apply length_map. Qed.

(** The final step keeps the lines of the aggregated table, possibly in
    another order. *)
Lemma batched_select_rows cutoff genes means dispersions dn
    (nbatches : list Z) (inter : list bool) s df s' :
  batched_select series_to_array cutoff genes means dispersions dn
    nbatches inter s = Return df s' ->
  length nbatches = length genes -> length inter = length genes ->
  length (bf_highly_variable_nbatches df) = length (bf_gene df) /\
  length (bf_highly_variable_intersection df) = length (bf_gene df) /\
  forall j, j < length (bf_gene df) ->
    exists i, i < length genes /\
      nth j (bf_gene df) String.EmptyString = nth i genes String.EmptyString /\
      nth j (bf_highly_variable_nbatches df) 0%Z = nth i nbatches 0%Z /\
      nth j (bf_highly_variable_intersection df) false = nth i inter false.
Proof.
  intros H Hn Hi. destruct cutoff as [c|N]; unfold batched_select in H.
  - minv H. unfold ret in H. inversion H; subst; clear H. simpl.
    split; [assumption|]. split; [assumption|].
    intros j Hj. exists j. auto.
  - minv H. unfold ret in H. inversion H; subst; clear H. simpl.
    unfold load in Ha. inversion Ha; subst; clear Ha.
    set (lines := map (fun i => (nth i nbatches 0%Z,
                                 nth i (nth dn (heap s0) []) PrimFloat.nan, i))
                      (seq 0 (length genes))).
    set (order := map snd (stable_sort RankOrder.leb lines)).
    assert (Hperm : Permutation (seq 0 (length genes)) order).
    { unfold order.
      replace (seq 0 (length genes)) with (map snd lines).
      - apply Permutation_map, Permutation_sym, stable_sort_Permutation.
      - unfold lines. rewrite map_map. simpl. apply map_id. }
    assert (Hlen : length order = length genes).
    { rewrite <- (Permutation_length Hperm), length_seq. reflexivity. }
    rewrite !take_rows_length.
    split; [reflexivity|]. split; [reflexivity|].
    intros j Hj. exists (nth j order 0). split.
    + assert (Hin : In (nth j order 0) (seq 0 (length genes))).
      { apply (Permutation_in _ (Permutation_sym Hperm)), nth_In. exact Hj. }
      apply in_seq in Hin. lia.
    + rewrite !take_rows_nth by exact Hj. auto.
Qed.

Lemma take_rows_Permutation {A} (order : list nat) (col : list A) (d : A) :
  Permutation (seq 0 (length col)) order ->
  Permutation (take_rows order col d) col.
Proof.
  intros H. unfold take_rows.
  eapply Permutation_trans; [apply Permutation_map, Permutation_sym, H|].
  rewrite map_nth_seq. apply Permutation_refl.
Qed.

Lemma batched_select_genes cutoff genes means dispersions dn
    (nbatches : list Z) (inter : list bool) s df s' :
  batched_select series_to_array cutoff genes means dispersions dn
    nbatches inter s = Return df s' ->
  Permutation (bf_gene df) genes.
Proof.
  intros H. destruct cutoff as [c|N]; unfold batched_select in H.
  - minv H. unfold ret in H. inversion H; subst. apply Permutation_refl.
  - minv H. unfold ret in H. inversion H; subst; clear H. cbn [bf_gene].
    unfold load in Ha. inversion Ha; subst; clear Ha.
    apply take_rows_Permutation.
    set (lines := map (fun i => (nth i nbatches 0%Z,
                                 nth i (nth dn (heap s0) []) PrimFloat.nan, i))
                      (seq 0 (length genes))).
    replace (seq 0 (length genes)) with (map snd lines).
    + apply Permutation_map, Permutation_sym, stable_sort_Permutation.
    + unfold lines. rewrite map_map. simpl. apply map_id.
Qed.

(** What a batched run that returns went through: the loop over at least
    one batch, then the selection on the aggregated table. *)
Lemma batched_run_inv (adata : AnnData) (n_bins : Z) (flavor : flavor_t)
    (cutoff : cutoff_t) (s s' : state) (df : batched_frame) :
  let K := n_categories adata in
  batched adata n_bins flavor cutoff s = Return df s' ->
  exists dfs s0 dn s1,
    for_each (batch_frame' adata cutoff n_bins flavor) (seq 0 K) s
    = Return dfs s0 /\
    length dfs = K /\ (1 <= K)%nat /\
    (forall i, (i < K)%nat ->
       exists sa sb,
         batch_frame' adata cutoff n_bins flavor i sa
         = Return (nth i dfs []) sb) /\
    let genes := group_keys (map row_gene (concat dfs)) in
    let nbatches := map (fun g => sum_selected (rows_of (concat dfs) g)) genes in
    batched_select series_to_array cutoff genes
      (map (fun g => nanmean (map row_means (rows_of (concat dfs) g))) genes)
      (map (fun g => nanmean (map row_dispersions (rows_of (concat dfs) g)))
           genes)
      dn nbatches
      (map (fun n => (n =? Z.of_nat K)%Z) nbatches) s1
    = Return df s'.
Proof.
  intros K H. unfold _highly_variable_genes_batched in H.
  apply bind_inv in H. destruct H as (dfs & s0 & Hloop & H). cbv beta in H.
  apply bind_inv in H. destruct H as (u & s0' & Hguard & H). cbv beta in H.
  apply bind_inv in H. destruct H as (dn & s1 & Halloc & H). cbv beta in H.
  fold K in Hloop.
  destruct (for_each_inv _ _ _ _ _ Hloop) as [Hlen Hframes].
  rewrite length_seq in Hlen, Hframes.
  exists dfs, s0, dn, s1. split; [exact Hloop|]. split; [exact Hlen|].
  split; [destruct dfs; [discriminate|simpl in Hlen; lia]|].
  split.
  - intros i Hi. destruct (Hframes i [] 0 Hi) as (sa & sb & Hrun).
    rewrite seq_nth in Hrun by exact Hi. eauto.
  - rewrite length_seq in H. exact H.
Qed.

(** On data with distinct gene names the table has one line per gene. *)
Lemma batched_genes_Permutation (adata : AnnData) (n_bins : Z)
    (flavor : flavor_t) (cutoff : cutoff_t) (s s' : state)
    (df : batched_frame) :
  NoDup (var_names adata) ->
  (forall b, b < n_categories adata ->
     length (filter_genes (X (subset_obs adata b)))
     = length (var_names adata)) ->
  batched adata n_bins flavor cutoff s = Return df s' ->
  Permutation (bf_gene df) (var_names adata).
Proof.
  intros Hnd Hfilt H.
  destruct (batched_run_inv _ _ _ _ _ _ _ H)
    as (dfs & s0 & dn & s1 & Hloop & Hlen & HK & Hframes & Hsel).
  cbv zeta in Hsel.
  assert (Hdfs : forall i, i < n_categories adata ->
            Permutation (map row_gene (nth i dfs [])) (var_names adata)).
  { intros i Hi. destruct (Hframes i Hi) as (sa & sb & Hrun).
    apply batch_frame_genes in Hrun; [exact Hrun|apply Hfilt; exact Hi]. }
  apply batched_select_genes in Hsel.
  eapply Permutation_trans; [exact Hsel|].
  unfold group_keys.
  eapply Permutation_trans;
    [apply Permutation_sym, StringSort.Permuted_sort|].
  apply NoDup_Permutation; [apply NoDup_nodup|exact Hnd|].
  intros g. rewrite nodup_In, in_map_iff. split.
  - intros (r & <- & Hr). apply in_concat in Hr.
    destruct Hr as (rows & Hrows & Hr).
    apply (In_nth _ _ []) in Hrows. destruct Hrows as (i & Hi & <-).
    apply (Permutation_in _ (Hdfs i ltac:(lia))). apply in_map, Hr.
  - intros Hg.
    apply (Permutation_in _ (Permutation_sym (Hdfs 0 ltac:(lia)))) in Hg.
    apply in_map_iff in Hg. destruct Hg as (r & <- & Hr).
    exists r. split; [reflexivity|].
    apply in_concat. exists (nth 0 dfs []). split; [|exact Hr].
    apply nth_In. lia.
Qed.

(** C8 (amended). A batched run of a dispersion-based flavor that returns
    went over K >= 1 batches; on data with distinct gene names its table
    has exactly one line for every gene of the data, and that line carries
    in [highly_variable_nbatches] the number of batches in which the gene
    was selected, an integer between 0 and K, and in
    [highly_variable_intersection] whether that number is K. *)
Theorem C8_batched_nbatches_and_intersection (adata : AnnData) (n_bins : Z)
    (flavor : flavor_t) (cutoff : cutoff_t) (s s' : state)
    (df : batched_frame) :
  let K := n_categories adata in
  NoDup (var_names adata) ->
  (forall b, b < K ->
     length (filter_genes (X (subset_obs adata b)))
     = length (var_names adata)) ->
  batched adata n_bins flavor cutoff s = Return df s' ->
  exists dfs s0,
    for_each (batch_frame' adata cutoff n_bins flavor) (seq 0 K) s
    = Return dfs s0 /\
    length dfs = K /\ 1 <= K /\
    Permutation (bf_gene df) (var_names adata) /\
    length (bf_highly_variable_nbatches df) = length (var_names adata) /\
    length (bf_highly_variable_intersection df) = length (var_names adata) /\
    (forall j, j < length (bf_gene df) ->
       let g := nth j (bf_gene df) String.EmptyString in
       let n := nth j (bf_highly_variable_nbatches df) 0%Z in
       n = Z.of_nat (length (filter (selected_in g) dfs)) /\
       (0 <= n <= Z.of_nat K)%Z /\
       (nth j (bf_highly_variable_intersection df) false = true
        <-> n = Z.of_nat K)) /\
    (forall g, In g (var_names adata) ->
       exists j, j < length (bf_gene df) /\
         nth j (bf_gene df) String.EmptyString = g /\
         nth j (bf_highly_variable_nbatches df) 0%Z
         = Z.of_nat (length (filter (selected_in g) dfs))).
Proof.
  intros K Hnd Hfilt H.
  pose proof (batched_genes_Permutation _ _ _ _ _ _ _ Hnd Hfilt H) as Hperm.
  destruct (batched_run_inv _ _ _ _ _ _ _ H)
    as (dfs & s0 & dn & s1 & Hloop & Hlen & HK & Hframes & Hsel).
  fold K in Hloop, Hlen, HK, Hframes, Hsel. cbv zeta in Hsel.
  assert (Hdfs : forall rows, In rows dfs -> NoDup (map row_gene rows)).
  { intros rows Hin. apply (In_nth _ _ []) in Hin.
    destruct Hin as (i & Hi & <-).
    destruct (Hframes i ltac:(lia)) as (sa & sb & Hrun).
    apply batch_frame_genes in Hrun; [|apply Hfilt; lia].
    apply (Permutation_NoDup (Permutation_sym Hrun) Hnd). }
  set (big := concat dfs) in *.
  set (genes := group_keys (map row_gene big)) in *.
  apply batched_select_rows in Hsel;
    [|rewrite !length_map; reflexivity|rewrite !length_map; reflexivity].
  destruct Hsel as (Hl1 & Hl2 & Hrows).
  assert (Hline : forall j, j < length (bf_gene df) ->
            let g := nth j (bf_gene df) String.EmptyString in
            let n := nth j (bf_highly_variable_nbatches df) 0%Z in
            n = Z.of_nat (length (filter (selected_in g) dfs)) /\
            (0 <= n <= Z.of_nat K)%Z /\
            (nth j (bf_highly_variable_intersection df) false = true
             <-> n = Z.of_nat K)).
  { intros j Hj. cbv zeta.
    destruct (Hrows j Hj) as (i & Hi & Eg & En & Ei).
    rewrite Eg, En, Ei.
    rewrite (nth_map_lt _ _ i false 0%Z) by (rewrite length_map; exact Hi).
    rewrite (nth_map_lt _ genes i 0%Z String.EmptyString) by exact Hi.
    unfold big. rewrite count_batches by exact Hdfs.
    pose proof (filter_length_le
                  (selected_in (nth i genes String.EmptyString)) dfs) as Hle.
    split; [reflexivity|]. split; [lia|].
    apply Z.eqb_eq. }
  exists dfs, s0. split; [exact Hloop|]. split; [exact Hlen|].
  split; [exact HK|]. split; [exact Hperm|].
  split; [rewrite Hl1; apply Permutation_length, Hperm|].
  split; [rewrite Hl2; apply Permutation_length, Hperm|].
  split; [exact Hline|].
  intros g Hg.
  apply (Permutation_in _ (Permutation_sym Hperm)) in Hg.
  apply (In_nth _ _ String.EmptyString) in Hg.
  destruct Hg as (j & Hj & Ej). exists j. split; [exact Hj|].
  split; [exact Ej|].
  destruct (Hline j Hj) as [Hn _]. cbv zeta in Hn. rewrite Ej in Hn.
  exact Hn.
Qed.

End BatchAggregation.

(** ** A small data set, with straightforward collaborators *)

Module Demo.
Import String.StringSyntax.
Delimit Scope string_scope with string.
Local Open Scope float_scope.

Definition columns (m : matrix) : list (list float) :=
  map (fun j => map (fun row => nth j row 0) m) (seq 0 (length (hd [] m))).

(** Mean and unbiased variance of every gene. *)
Definition mean_var (m : matrix) : list float * list float :=
  let n := float_of_nat (length m) in
  let means := map (fun c => fsum c / n) (columns m) in
  let vars :=
    map (fun c => let mu := fsum c / n in
                  fsum (map (fun x => (x - mu) * (x - mu)) c)
                  / float_of_nat (length m - 1))
        (columns m) in
  (means, vars).

(** Genes detected in at least one cell. *)
Definition detected (m : matrix) : list bool :=
  map (fun c => existsb (fun x => 0 <? x) c) (columns m).

(** One bin for all genes. *)
Definition one_bin (means : list float) : list nat := map (fun _ => 0%nat) means.

Definition same (x : float) : float := x.

Definition adata : AnnData :=
  mk_AnnData
    [[1; 0; 4]; [3; 0; 1]; [0; 2; 2]; [0; 4; 5]]
    ["g1"%string; "g2"%string; "g3"%string]
    [0%nat; 0%nat; 1%nat; 1%nat]
    2
    None.

Definition run_batched (cutoff : cutoff_t) : M batched_frame :=
  _highly_variable_genes_batched mean_var same same same
    (fun means _ => one_bin means) (fun means _ => one_bin means)
    (fun _ q => q) statsmodels_mad detected ret adata 20 CellRanger cutoff.

End Demo.

Lemma C8_batched_nbatches_and_intersection_witness :
  exists df s',
    Demo.run_batched (TopN 1) empty_state = Return df s' /\
    exists dfs s0,
      for_each
        (batch_frame Demo.mean_var Demo.same Demo.same Demo.same
           (fun means _ => Demo.one_bin means)
           (fun means _ => Demo.one_bin means)
           (fun _ q => q) statsmodels_mad Demo.detected ret
           Demo.adata (TopN 1) 20 CellRanger)
        (seq 0 2) empty_state = Return dfs s0 /\
      length dfs = 2 /\ 1 <= 2 /\
      Permutation (bf_gene df) (var_names Demo.adata) /\
      length (bf_highly_variable_nbatches df) = 3 /\
      length (bf_highly_variable_intersection df) = 3 /\
      (forall j, j < length (bf_gene df) ->
         let g := nth j (bf_gene df) String.EmptyString in
         let n := nth j (bf_highly_variable_nbatches df) 0%Z in
         n = Z.of_nat (length (filter (selected_in g) dfs)) /\
         (0 <= n <= Z.of_nat 2)%Z /\
         (nth j (bf_highly_variable_intersection df) false = true
          <-> n = Z.of_nat 2)) /\
      (forall g, In g (var_names Demo.adata) ->
         exists j, j < length (bf_gene df) /\
           nth j (bf_gene df) String.EmptyString = g /\
           nth j (bf_highly_variable_nbatches df) 0%Z
           = Z.of_nat (length (filter (selected_in g) dfs))).
Proof.
  assert (E : exists df s', Demo.run_batched (TopN 1) empty_state = Return df s')
    by (vm_compute; eauto).
  destruct E as (df & s' & E). exists df, s'. split; [exact E|].
  apply (C8_batched_nbatches_and_intersection Demo.mean_var Demo.same
           Demo.same Demo.same (fun means _ => Demo.one_bin means)
           (fun means _ => Demo.one_bin means) (fun _ q => q)
           statsmodels_mad Demo.detected ret Demo.adata 20 CellRanger
           (TopN 1) empty_state s' df).
  - repeat constructor; simpl; intuition discriminate.
  - intros b Hb. simpl in Hb.
    destruct b as [|[|b]]; [reflexivity|reflexivity|lia].
  - exact E.
Defined.

(** ** The same gene name twice *)

Module DemoDup.
Import String.StringSyntax.
Delimit Scope string_scope with string.
Local Open Scope float_scope.

(** Every gene in a bin of its own, as [pd.cut] leaves two genes with
    different means. *)
Definition own_bin (means : list float) : list nat := seq 0 (length means).

(** Two cells of one batch, two genes that carry the same name. *)
Definition adata : AnnData :=
  mk_AnnData [[1; 4]; [3; 1]] ["g"%string; "g"%string] [0%nat; 0%nat] 1 None.

(** Bounds that every gene passes. *)
Definition all_pass : _Cutoffs :=
  mk_Cutoffs neg_infinity infinity neg_infinity infinity.

Definition run_batched : M batched_frame :=
  _highly_variable_genes_batched Demo.mean_var Demo.same Demo.same Demo.same
    (fun means _ => own_bin means) (fun means _ => own_bin means)
    (fun _ q => q) statsmodels_mad Demo.detected ret adata 20 Seurat
    (Interval all_pass).

End DemoDup.

(** C8, as stated, fails on data in which two genes carry one name: with a
    single batch in which both are selected, [groupby("gene")] adds their
    flags up, so that the one line of the name holds 2, outside [0, K] for
    K = 1, and is not marked as selected in every batch although it was. *)
Lemma C8_counterexample :
  exists df s' rows s0,
    DemoDup.run_batched empty_state = Return df s' /\
    n_categories DemoDup.adata = 1 /\
    batch_frame Demo.mean_var Demo.same Demo.same Demo.same
      (fun means _ => DemoDup.own_bin means)
      (fun means _ => DemoDup.own_bin means)
      (fun _ q => q) statsmodels_mad Demo.detected ret DemoDup.adata
      (Interval DemoDup.all_pass) 20 Seurat 0 empty_state = Return rows s0 /\
    map row_gene rows = var_names DemoDup.adata /\
    map row_highly_variable rows = [true; true] /\
    length (bf_gene df) = 1 /\
    hd String.EmptyString (bf_gene df)
    = hd String.EmptyString (var_names DemoDup.adata) /\
    bf_highly_variable_nbatches df = [2%Z] /\
    ~ (0 <= 2 <= Z.of_nat (n_categories DemoDup.adata))%Z /\
    bf_highly_variable_intersection df = [false].
Proof.
  do 4 eexists. split; [vm_compute; reflexivity|].
  split; [reflexivity|]. split; [vm_compute; reflexivity|].
  repeat split; try reflexivity. simpl. lia.
Qed.

(** ** The Seurat v3 flavor: regularized variance of one batch *)

Section SeuratV3Batch.
Local Open Scope float_scope.

Variable _get_mean_var : counts_t -> list float * list float.
Variable loess_fitted_values : list float -> list float -> float -> list float.
Variable np_log10 : float -> float.
Variable pow10 : float -> float.
Variable np_sum : list float -> float.

(** [fitted_values] has one entry per point handed to [loess]. *)
Hypothesis loess_length :
  forall x y span, length (loess_fitted_values x y span) = length x.

Lemma scatter_length (a : list float) mask values :
  length (scatter a mask values) = length a.
Proof.
  revert mask values. induction a as [|x a IH]; intros [|[|] mask] values;
    simpl; try reflexivity.
  - destruct values; simpl; rewrite IH; reflexivity.
  - rewrite IH. reflexivity.
Qed.

Lemma scatter_unmasked (a : list float) mask values (g : nat) :
  nth g mask false = false ->
  nth g (scatter a mask values) nan = nth g a nan.
Proof.
  revert mask values g.
  induction a as [|x a IH]; intros [|[|] mask] values [|g] H;
    simpl in *; try reflexivity; try discriminate.
  - destruct values; simpl; apply IH; exact H.
  - apply IH. exact H.
Qed.

Lemma mask_select_length {A} (xs : list A) (mask : list bool) :
  length xs = length mask -> length (mask_select xs mask) = count_true mask.
Proof.
  unfold mask_select, count_true. rewrite length_map. revert mask.
  induction xs as [|x xs IH]; intros [|b mask] H; simpl in *; try lia.
  destruct b; simpl; rewrite IH by lia; reflexivity.
Qed.

Lemma nth_repeat_zero (n g : nat) : nth g (repeat 0 n) nan = 0 \/ n <= g.
Proof.
  destruct (Nat.lt_ge_cases g n) as [H|H]; [left|right; exact H].
  apply (nth_repeat_lt 0 nan). exact H.
Qed.

(** The genes with positive variance, the points handed to the fit, and
    the estimated variance, as [estimate_variance] computes them. *)
Definition not_const_of (var : list float) : list bool :=
  map (fun v => F64.gtb v 0) var.

Definition fit_x (mean var : list float) : list float :=
  map np_log10 (mask_select mean (not_const_of var)).

Definition fit_y (var : list float) : list float :=
  map np_log10 (mask_select var (not_const_of var)).

Definition estimat_var_of (n : nat) (mean var : list float) (span : float)
  : list float :=
  scatter (repeat 0 n) (not_const_of var)
    (loess_fitted_values (fit_x mean var) (fit_y var) span).

Lemma estimate_variance_run (n : nat) (mean var : list float) (span : float)
    (s : state) :
  length mean = n -> length var = n ->
  estimate_variance loess_fitted_values np_log10 n mean var span s
  = Return (estimat_var_of n mean var span) s.
Proof.
  intros Hm Hv. unfold estimate_variance, mask_assign.
  fold (not_const_of var).
  assert (Hnc : length (not_const_of var) = n)
    by (unfold not_const_of; rewrite length_map; exact Hv).
  rewrite Hnc, repeat_length, Nat.eqb_refl. simpl negb. cbv iota.
  rewrite loess_length, length_map, mask_select_length by congruence.
  rewrite Nat.eqb_refl. reflexivity.
Qed.

(** The counts of gene [g] in the cells of the batch (for a sparse
    matrix, the stored ones). *)
Definition cell_counts (d : counts_t) (g : nat) : list float :=
  match d with
  | Dense rows => column rows g
  | Sparse m => csr_column (csr_data m) (csr_indices m) g
  end.

(** The batch has [n] genes. *)
Definition well_shaped (n : nat) (d : counts_t) : Prop :=
  match d with
  | Dense rows => Forall (fun row => length row = n) rows
  | Sparse m => snd (csr_shape m) = n
  end.

Lemma for_each_run {A B} (f : A -> M B) (g : A -> B) (l : list A) (s : state) :
  (forall a s0, In a l -> f a s0 = Return (g a) s0) ->
  for_each f l s = Return (map g l) s.
Proof.
  induction l as [|a l IH]; intros H; [reflexivity|].
  simpl. unfold bind. rewrite H by (left; reflexivity).
  rewrite IH by (intros; apply H; right; assumption). reflexivity.
Qed.

Lemma nth_map_seq {B} (f : nat -> B) (n j : nat) (d : B) :
  (j < n)%nat -> nth j (map f (seq 0 n)) d = f j.
Proof.
  intros H. rewrite (nth_map_lt f (seq 0 n) j d 0%nat)
    by (rewrite length_seq; exact H).
  rewrite seq_nth by exact H. reflexivity.
Qed.

Lemma csr_column_clip (data : list float) (indices : list nat)
    (clip_val : list float) (j : nat) (c : float) :
  nth j clip_val nan = c ->
  csr_column
    (map (fun p => clip1 (fst p) (nth (snd p) clip_val nan))
         (combine data indices))
    indices j
  = map (fun x => clip1 x c) (csr_column data indices j).
Proof.
  intros Hc. unfold csr_column. revert indices.
  induction data as [|x data IH]; intros [|i indices]; simpl;
    try reflexivity.
  destruct (Nat.eqb_spec i j) as [->|Hne]; simpl.
  - rewrite Hc, IH. reflexivity.
  - apply IH.
Qed.

Lemma clipped_sums_run (n : nat) (d : counts_t) (clipf : nat -> float)
    (s : state) :
  well_shaped n d ->
  clipped_sums np_sum d (map clipf (seq 0 n)) s
  = Return
      (map (fun j => np_sum (map np_square
                              (map (fun x => clip1 x (clipf j)) (cell_counts d j))))
           (seq 0 n),
       map (fun j => np_sum (map (fun x => clip1 x (clipf j)) (cell_counts d j)))
           (seq 0 n))
      s.
Proof.
  intros Hs. destruct d as [rows|m]; simpl in Hs; unfold clipped_sums.
  - unfold bind.
    rewrite (for_each_run _
               (fun row => map (fun p => clip1 (fst p) (snd p))
                               (combine row (map clipf (seq 0 n))))).
    + unfold ret. rewrite length_map, length_seq. f_equal. f_equal.
      * apply map_ext_in. intros j Hj. apply in_seq in Hj.
        f_equal. f_equal. unfold column, cell_counts, column.
        rewrite !map_map. apply map_ext_in. intros row Hrow.
        rewrite Forall_forall in Hs. specialize (Hs row Hrow).
        rewrite (nth_map_combine _ row (map clipf (seq 0 n)) j 0 nan 0)
          by (rewrite ?length_map, ?length_seq; lia).
        rewrite nth_map_seq by lia. reflexivity.
      * apply map_ext_in. intros j Hj. apply in_seq in Hj.
        f_equal. unfold column, cell_counts, column.
        rewrite !map_map. apply map_ext_in. intros row Hrow.
        rewrite Forall_forall in Hs. specialize (Hs row Hrow).
        rewrite (nth_map_combine _ row (map clipf (seq 0 n)) j 0 nan 0)
          by (rewrite ?length_map, ?length_seq; lia).
        rewrite nth_map_seq by lia. reflexivity.
    + intros row s0 Hrow. unfold bind, broadcast_to_row.
      rewrite Forall_forall in Hs. specialize (Hs row Hrow).
      rewrite length_map, length_seq, Hs, Nat.eqb_refl. reflexivity.
  - unfold ret. rewrite Hs. f_equal. f_equal.
    + apply map_ext_in. intros j Hj. apply in_seq in Hj.
      f_equal. f_equal. apply csr_column_clip. apply nth_map_seq. lia.
    + apply map_ext_in. intros j Hj. apply in_seq in Hj.
      f_equal. apply csr_column_clip. apply nth_map_seq. lia.
Qed.

(** The quantities of the loop body, gene by gene. *)
Definition reg_std_of (n : nat) (mean var : list float) (span : float)
    (g : nat) : float :=
  sqrt (pow10 (nth g (estimat_var_of n mean var span) nan)).

Definition clip_of (n : nat) (d : counts_t) (mean var : list float)
    (span : float) (g : nat) : float :=
  reg_std_of n mean var span g * sqrt (float_of_Z (n_obs d)) + nth g mean nan.

Definition clipped_counts (n : nat) (d : counts_t) (mean var : list float)
    (span : float) (g : nat) : list float :=
  map (fun x => clip1 x (clip_of n d mean var span g)) (cell_counts d g).

Lemma seurat_v3_batch_run (n : nat) (d : counts_t) (span : float)
    (mean var : list float) (s : state) :
  _get_mean_var d = (mean, var) ->
  length mean = n -> length var = n -> well_shaped n d ->
  seurat_v3_batch _get_mean_var loess_fitted_values np_log10 pow10 np_sum
    n d span s
  = Return
      (map (fun g =>
              norm_gene_var1 (n_obs d) (reg_std_of n mean var span g)
                (nth g mean nan)
                (np_sum (map np_square (clipped_counts n d mean var span g)))
                (np_sum (clipped_counts n d mean var span g)))
           (seq 0 n))
      s.
Proof.
  intros Hmv Hm Hv Hs. unfold seurat_v3_batch. rewrite Hmv.
  unfold bind. rewrite estimate_variance_run by assumption.
  set (est := estimat_var_of n mean var span).
  assert (Hest : length est = n).
  { unfold est, estimat_var_of. rewrite scatter_length, repeat_length.
    reflexivity. }
  rewrite broadcast2_same_length by (rewrite length_map; congruence).
  unfold lift_shape, ret at 1.
  assert (Eclip :
    map (fun p : float * float =>
           fst p * sqrt (float_of_Z (n_obs d)) + snd p)
        (combine (map (fun e => sqrt (pow10 e)) est) mean)
    = map (clip_of n d mean var span) (seq 0 n)).
  { apply (nth_ext _ _ nan nan).
    - rewrite !length_map, length_combine, length_map, length_seq. lia.
    - intros j Hj.
      rewrite length_map, length_combine, length_map in Hj.
      rewrite (nth_map_combine (fun r m => r * sqrt (float_of_Z (n_obs d)) + m)
                 _ mean j nan nan nan)
        by (rewrite ?length_map; lia).
      rewrite nth_map_seq by lia.
      rewrite (nth_map_lt _ est j nan nan) by lia. reflexivity. }
  rewrite Eclip, clipped_sums_run by exact Hs.
  cbn [fst snd]. rewrite !length_map, !length_seq, Hm, Hest, !Nat.eqb_refl.
  cbn [andb]. unfold ret. f_equal.
  apply map_ext_in. intros j Hj. apply in_seq in Hj.
  rewrite (nth_map_lt _ est j nan nan) by lia.
  rewrite !nth_map_seq by lia. reflexivity.
Qed.

(** C4. For flavor "seurat_v3", in each batch of N cells the counts of
    gene [g] are clipped at [reg_std * sqrt(N) + mean], and the normalized
    variance of [g] is
    [(1 / ((N - 1) * reg_std^2)) * (N * mean^2 + sum(clipped^2)
     - 2 * sum(clipped) * mean)], computed from the two sums over the
    clipped counts. *)
Theorem C4_clipped_normalized_variance (n : nat) (d : counts_t)
    (span : float) (mean var : list float) (s : state) :
  _get_mean_var d = (mean, var) ->
  length mean = n -> length var = n -> well_shaped n d ->
  exists norm_gene_var,
    seurat_v3_batch _get_mean_var loess_fitted_values np_log10 pow10 np_sum
      n d span s = Return norm_gene_var s /\
    length norm_gene_var = n /\
    forall g, (g < n)%nat ->
      let N := float_of_Z (n_obs d) in
      let reg_std := sqrt (pow10 (nth g (estimat_var_of n mean var span) nan)) in
      let m := nth g mean nan in
      let clip := reg_std * sqrt N + m in
      let clipped :=
        map (fun x => if clip <? x then clip else x) (cell_counts d g) in
      nth g norm_gene_var nan
      = (1 / (float_of_Z (n_obs d - 1) * (reg_std * reg_std)))
        * ((N * (m * m)) + np_sum (map (fun x => x * x) clipped)
           - 2 * np_sum clipped * m).
Proof.
  intros Hmv Hm Hv Hs. eexists.
  split; [apply seurat_v3_batch_run; eassumption|].
  split; [rewrite length_map, length_seq; reflexivity|].
  intros g Hg. cbv zeta. rewrite nth_map_seq by exact Hg. reflexivity.
Qed.

Lemma mask_select_indices {A} (xs : list A) (mask : list bool) (d : A) :
  length xs = length mask ->
  mask_select xs mask = map (fun g => nth g xs d) (flatnonzero mask).
Proof.
  intros Hl. unfold mask_select, flatnonzero.
  assert (G : forall k,
    map fst (filter snd (combine xs mask))
    = map (fun g => nth (g - k) xs d)
          (map fst (filter snd (combine (seq k (length mask)) mask)))).
  { revert mask Hl. induction xs as [|x xs IH]; intros [|b mask] Hl k;
      try reflexivity; try (simpl in Hl; lia).
    assert (Hl' : length xs = length mask) by (simpl in Hl; lia).
    cbn [length seq combine filter snd map fst].
    assert (E : map (fun g => nth (g - k) (x :: xs) d)
                    (map fst (filter snd (combine (seq (S k) (length mask)) mask)))
                = map (fun g => nth (g - S k) xs d)
                    (map fst (filter snd (combine (seq (S k) (length mask)) mask)))).
    { apply map_ext_in. intros g Hg. apply in_map_iff in Hg.
      destruct Hg as ([g' b'] & Eg & Hg). simpl in Eg. subst g'.
      apply filter_In in Hg. destruct Hg as [Hg _].
      apply in_combine_l in Hg. apply in_seq in Hg.
      replace (g - k)%nat with (S (g - S k)) by lia. reflexivity. }
    destruct b; cbn [map fst].
    - rewrite E, Nat.sub_diag. cbn [nth]. f_equal. apply IH, Hl'.
    - rewrite E. apply IH, Hl'. }
  rewrite (G 0%nat). apply map_ext. intros g. rewrite Nat.sub_0_r. reflexivity.
Qed.

(** C7. For flavor "seurat_v3", the points handed to the local regression
    are those of the genes whose within-batch variance is positive, in
    gene order; a gene whose variance is zero (not positive) is not among
    them, its estimated variance is 0, and it keeps its entry in the
    per-batch output, computed with the regularized standard deviation
    [sqrt(10 ** 0)]. *)
Theorem C7_zero_variance_genes (n : nat) (d : counts_t) (span : float)
    (mean var : list float) (s : state) :
  _get_mean_var d = (mean, var) ->
  length mean = n -> length var = n -> well_shaped n d ->
  let fitted_genes := flatnonzero (not_const_of var) in
  estimate_variance loess_fitted_values np_log10 n mean var span s
  = Return (estimat_var_of n mean var span) s /\
  estimat_var_of n mean var span
  = scatter (repeat 0 n) (not_const_of var)
      (loess_fitted_values
         (map (fun g => np_log10 (nth g mean nan)) fitted_genes)
         (map (fun g => np_log10 (nth g var nan)) fitted_genes) span) /\
  exists norm_gene_var,
    seurat_v3_batch _get_mean_var loess_fitted_values np_log10 pow10 np_sum
      n d span s = Return norm_gene_var s /\
    length norm_gene_var = n /\
    forall g, (g < n)%nat -> F64.gtb (nth g var nan) 0 = false ->
      ~ In g fitted_genes /\
      nth g (estimat_var_of n mean var span) nan = 0 /\
      nth g norm_gene_var nan
      = norm_gene_var1 (n_obs d) (sqrt (pow10 0)) (nth g mean nan)
          (np_sum (map np_square (clipped_counts n d mean var span g)))
          (np_sum (clipped_counts n d mean var span g)).
Proof.
  intros Hmv Hm Hv Hs fitted_genes.
  assert (Hnc : length (not_const_of var) = n)
    by (unfold not_const_of; rewrite length_map; exact Hv).
  split; [apply estimate_variance_run; assumption|]. split.
  - unfold estimat_var_of, fit_x, fit_y.
    rewrite (mask_select_indices mean _ nan), (mask_select_indices var _ nan)
      by congruence.
    rewrite !map_map. reflexivity.
  - eexists. split; [apply seurat_v3_batch_run; eassumption|].
    split; [rewrite length_map, length_seq; reflexivity|].
    intros g Hg Hz.
    assert (Hmask : nth g (not_const_of var) false = false).
    { unfold not_const_of.
      rewrite (nth_map_lt _ var g false nan) by lia. exact Hz. }
    assert (Hest : nth g (estimat_var_of n mean var span) nan = 0).
    { unfold estimat_var_of. rewrite scatter_unmasked by exact Hmask.
      destruct (nth_repeat_zero n g) as [E|E]; [exact E|lia]. }
    split; [|split].
    + intros Hin. apply flatnonzero_In in Hin. congruence.
    + exact Hest.
    + rewrite nth_map_seq by exact Hg. unfold reg_std_of at 1.
      rewrite Hest. reflexivity.
Qed.

End SeuratV3Batch.

(** ** The Seurat v3 flavor: ranks *)

Section ArgsortContract.
Local Open Scope float_scope.

(** What NumPy promises of [np.argsort] with its default [kind]: the
    result lists every position once, in an order in which the values do
    not decrease (NaN last).  The default sort is not stable, so the order
    among equal values is not part of the contract. *)
Definition argsort_float_ok (argsort : list float -> list nat) : Prop :=
  forall v,
    Permutation (argsort v) (seq 0 (length v)) /\
    StronglySorted
      (fun i j => NpFloatOrder.leb (nth i v nan) (nth j v nan) = true)
      (argsort v).

Definition argsort_int_ok (argsort : list nat -> list nat) : Prop :=
  forall p,
    Permutation (argsort p) (seq 0 (length p)) /\
    StronglySorted (fun i j => (nth i p 0 <= nth j p 0)%nat) (argsort p).

Lemma StronglySorted_map_in {A B} (R : A -> A -> Prop) (R' : B -> B -> Prop)
    (f : A -> B) (l : list A) :
  StronglySorted R l ->
  (forall x y, In x l -> In y l -> R x y -> R' (f x) (f y)) ->
  StronglySorted R' (map f l).
Proof.
  induction 1 as [|a l Hs IH Hall]; intros HR; simpl; constructor.
  - apply IH. intros x y Hx Hy. apply HR; right; assumption.
  - rewrite Forall_forall in *. intros y Hy. apply in_map_iff in Hy.
    destruct Hy as (x & <- & Hx). apply HR.
    + left; reflexivity.
    + right; exact Hx.
    + apply Hall, Hx.
Qed.

Lemma tie_leb_trans :
  Transitive (fun x y => is_true (TieOrder.leb x y)).
Proof.
  intros [[a ka] ia] [[b kb] ib] [[c kc] ic].
  unfold is_true, TieOrder.leb, TieOrder.np_lt.
  pose proof (np_leb_trans a b c) as Tabc.
  pose proof (np_leb_trans c b a) as Tcba.
  pose proof (np_leb_trans b c a) as Tbca.
  pose proof (np_leb_trans c a b) as Tcab.
  pose proof (np_leb_trans a c b) as Tacb.
  pose proof (np_leb_trans b a c) as Tbac.
  pose proof (NpFloatOrder.leb_total a c) as Tot.
  pose proof (NpFloatOrder.leb_total a b) as Tot1.
  pose proof (NpFloatOrder.leb_total b c) as Tot2.
  unfold is_true in *.
  destruct (NpFloatOrder.leb a b) eqn:Eab, (NpFloatOrder.leb b a) eqn:Eba,
    (NpFloatOrder.leb b c) eqn:Ebc, (NpFloatOrder.leb c b) eqn:Ecb,
    (NpFloatOrder.leb a c) eqn:Eac, (NpFloatOrder.leb c a) eqn:Eca;
    simpl; intros H1 H2; try reflexivity; try discriminate;
    try (specialize (Tabc eq_refl eq_refl); discriminate);
    try (specialize (Tcba eq_refl eq_refl); discriminate);
    try (specialize (Tbca eq_refl eq_refl); discriminate);
    try (specialize (Tcab eq_refl eq_refl); discriminate);
    try (specialize (Tacb eq_refl eq_refl); discriminate);
    try (specialize (Tbac eq_refl eq_refl); discriminate);
    try (destruct Tot; discriminate);
    try (destruct Tot1; discriminate);
    try (destruct Tot2; discriminate).
  all: apply Z.leb_le; apply Z.leb_le in H1, H2; lia.
Qed.

Lemma argsort_with_ok (tie : nat -> Z) : argsort_float_ok (argsort_with tie).
Proof.
  intros v. unfold argsort_with.
  set (lines := map (fun i => (nth i v nan, tie i, i)) (seq 0 (length v))).
  assert (Hlines : map snd lines = seq 0 (length v)).
  { unfold lines. rewrite map_map. simpl. apply map_id. }
  pose proof (TieSort.Permuted_sort lines) as Hperm.
  split.
  - rewrite <- Hlines. apply Permutation_sym, Permutation_map, Hperm.
  - apply (StronglySorted_map_in (fun x y => is_true (TieOrder.leb x y))).
    + apply TieSort.StronglySorted_sort, tie_leb_trans.
    + assert (Hin : forall x, In x (TieSort.sort lines) ->
                              fst (fst x) = nth (snd x) v nan).
      { intros x Hx. apply (Permutation_in _ (Permutation_sym Hperm)) in Hx.
        unfold lines in Hx. apply in_map_iff in Hx.
        destruct Hx as (i & <- & _). reflexivity. }
      intros x y Hx Hy Hle. rewrite <- (Hin x Hx), <- (Hin y Hy).
      destruct x as [[a ka] ia], y as [[b kb] ib]. simpl.
      unfold is_true, TieOrder.leb, TieOrder.np_lt in Hle.
      destruct (NpFloatOrder.leb a b) eqn:E; [reflexivity|].
      simpl in Hle. rewrite orb_false_r in Hle.
      apply negb_true_iff in Hle.
      destruct (NpFloatOrder.leb_total a b); congruence.
Qed.

Lemma natkey_leb_trans :
  Transitive (fun x y => is_true (NatKeyOrder.leb x y)).
Proof.
  intros x y z. unfold is_true, NatKeyOrder.leb.
  rewrite !Nat.leb_le. lia.
Qed.

Lemma argsort_nat_ok : argsort_int_ok argsort_nat.
Proof.
  intros p. unfold argsort_nat.
  set (lines := map (fun i => (nth i p 0%nat, i)) (seq 0 (length p))).
  assert (Hlines : map snd lines = seq 0 (length p)).
  { unfold lines. rewrite map_map. simpl. apply map_id. }
  pose proof (NatKeySort.Permuted_sort lines) as Hperm.
  split.
  - rewrite <- Hlines. apply Permutation_sym, Permutation_map, Hperm.
  - apply (StronglySorted_map_in (fun x y => is_true (NatKeyOrder.leb x y))).
    + apply NatKeySort.StronglySorted_sort, natkey_leb_trans.
    + assert (Hin : forall x, In x (NatKeySort.sort lines) ->
                              fst x = nth (snd x) p 0%nat).
      { intros x Hx. apply (Permutation_in _ (Permutation_sym Hperm)) in Hx.
        unfold lines in Hx. apply in_map_iff in Hx.
        destruct Hx as (i & <- & _). reflexivity. }
      intros x y Hx Hy Hle. rewrite <- (Hin x Hx), <- (Hin y Hy).
      unfold is_true, NatKeyOrder.leb in Hle. apply Nat.leb_le, Hle.
Qed.

End ArgsortContract.

Section SeuratV3Ranks.
Local Open Scope float_scope.

Variable argsort_float : list float -> list nat.
Variable argsort_int : list nat -> list nat.
Hypothesis argsort_float_contract : argsort_float_ok argsort_float.
Hypothesis argsort_int_contract : argsort_int_ok argsort_int.

Lemma StronglySorted_seq (a n : nat) : StronglySorted le (seq a n).
Proof.
  revert a. induction n as [|n IH]; intros a; simpl; constructor.
  - apply IH.
  - apply Forall_forall. intros x Hx. apply in_seq in Hx. lia.
Qed.

Lemma sorted_Permutation_eq (l l' : list nat) :
  StronglySorted le l -> StronglySorted le l' -> Permutation l l' -> l = l'.
Proof.
  revert l'. induction l as [|a l IH]; intros l' Hs Hs' Hp.
  - apply Permutation_nil in Hp. congruence.
  - destruct l' as [|b l'].
    + apply Permutation_sym, Permutation_nil in Hp. discriminate.
    + inversion Hs as [|? ? Hsl Hal]; subst.
      inversion Hs' as [|? ? Hsl' Hbl']; subst.
      rewrite Forall_forall in Hal, Hbl'.
      assert (Hab : a = b).
      { assert (Ha : In a (b :: l'))
          by (apply (Permutation_in _ Hp); left; reflexivity).
        assert (Hb : In b (a :: l))
          by (apply (Permutation_in _ (Permutation_sym Hp)); left; reflexivity).
        destruct Ha as [Ha|Ha]; [congruence|].
        destruct Hb as [Hb|Hb]; [congruence|].
        specialize (Hal b Hb). specialize (Hbl' a Ha). lia. }
      subst b. f_equal. apply IH; try assumption.
      apply Permutation_cons_inv with (a := a). exact Hp.
Qed.

Lemma Permutation_filter {A} (f : A -> bool) (l l' : list A) :
  Permutation l l' -> Permutation (filter f l) (filter f l').
Proof.
  induction 1 as [|x l l' _ IH|x y l|l l' l'' _ IH1 _ IH2]; simpl.
  - constructor.
  - destruct (f x); [constructor|]; exact IH.
  - destruct (f x), (f y); try apply Permutation_refl. constructor.
  - eapply Permutation_trans; eassumption.
Qed.

Lemma filter_seq_lt (m n : nat) :
  filter (fun k => (k <? m)%nat) (seq 0 n) = seq 0 (Nat.min m n).
Proof.
  induction n as [|n IH]; [rewrite Nat.min_0_r; reflexivity|].
  rewrite seq_S, filter_app, IH. simpl.
  destruct (Nat.ltb_spec n m).
  - replace (Nat.min m (S n)) with (S n) by lia.
    replace (Nat.min m n) with n by lia. rewrite seq_S. reflexivity.
  - replace (Nat.min m (S n)) with m by lia.
    replace (Nat.min m n) with m by lia. apply app_nil_r.
Qed.

(** The second [argsort] inverts the first: the gene at position [k] of
    the sorted order is the one whose rank is [k]. *)
Lemma argsort_int_inverse (p : list nat) (k : nat) :
  Permutation p (seq 0 (length p)) -> (k < length p)%nat ->
  nth (nth k (argsort_int p) 0%nat) p 0%nat = k.
Proof.
  intros Hp Hk. destruct (argsort_int_contract p) as [Hr Hs].
  set (r := argsort_int p) in *.
  assert (Hq : map (fun i => nth i p 0%nat) r = seq 0 (length p)).
  { apply sorted_Permutation_eq.
    - apply (StronglySorted_map_in _ le _ _ Hs). auto.
    - apply StronglySorted_seq.
    - eapply Permutation_trans; [apply Permutation_map, Hr|].
      rewrite map_nth_seq. exact Hp. }
  assert (Hlen : length r = length p)
    by (rewrite (Permutation_length Hr), length_seq; reflexivity).
  rewrite <- (nth_map_lt (fun i => nth i p 0%nat) r k 0%nat 0%nat) by lia.
  rewrite Hq. apply seq_nth. exact Hk.
Qed.

Lemma rank_row_facts (v : list float) :
  let r := rank_row argsort_float argsort_int v in
  let n := length v in
  Permutation r (seq 0 n) /\
  (forall i j, (i < n)%nat -> (j < n)%nat ->
     (nth i r 0 < nth j r 0)%nat ->
     (nth j v nan <=? nth i v nan) = true \/ F64.isnan (nth j v nan) = true).
Proof.
  intros r n. unfold rank_row in r.
  set (w := map opp v) in *. set (p := argsort_float w) in *.
  destruct (argsort_float_contract w) as [Hp Hs]. fold p in Hp, Hs.
  assert (Hw : length w = n) by (unfold w; apply length_map).
  rewrite Hw in Hp.
  assert (Hlp : length p = n)
    by (rewrite (Permutation_length Hp), length_seq; reflexivity).
  destruct (argsort_int_contract p) as [Hr _]. fold r in Hr.
  rewrite Hlp in Hr. split; [exact Hr|].
  assert (Hlr : length r = n)
    by (rewrite (Permutation_length Hr), length_seq; reflexivity).
  intros i j Hi Hj Hlt.
  assert (Hrj : (nth j r 0 < n)%nat).
  { assert (Hin : In (nth j r 0%nat) (seq 0 n))
      by (apply (Permutation_in _ Hr), nth_In; lia).
    apply in_seq in Hin. lia. }
  pose proof (StronglySorted_nth _ p 0%nat Hs (nth i r 0%nat) (nth j r 0%nat)
                Hlt ltac:(lia)) as Hle.
  cbv beta in Hle.
  rewrite !(argsort_int_inverse p) in Hle
    by (rewrite ?Hlp; assumption || lia).
  unfold w in Hle.
  rewrite (nth_map_lt opp v i nan nan), (nth_map_lt opp v j nan nan) in Hle by lia.
  unfold NpFloatOrder.leb in Hle.
  rewrite FFacts.opp_leb, FFacts.isnan_opp in Hle.
  apply orb_true_iff in Hle. exact Hle.
Qed.

Lemma ma_median_single (o : option nat) :
  ma_median [o] = match o with Some k => RankInt k | None => RankNaN end.
Proof. destruct o; reflexivity. Qed.

(** C5 (amended). For flavor "seurat_v3" with a single batch of [n]
    genes, the ranks [argsort(argsort(-norm_gene_var))] are a permutation
    of [0..n-1] that follows descending normalized variance (NaN last);
    the order among equal variances is the one the first [np.argsort]
    leaves, which its contract does not fix.  [highly_variable_rank] is
    that rank for the genes ranked below N and NaN for every other gene,
    so its non-NaN values are exactly [0..min(N,n)-1]; the gene of rank 0
    has the maximum normalized variance. *)
Theorem C5_single_batch_ranks (v : list float) (N : Z) :
  let n := length v in
  let r := rank_row argsort_float argsort_int v in
  let ranks := snd (seurat_v3_ranks argsort_float argsort_int n [v] N) in
  Permutation r (seq 0 n) /\
  length ranks = n /\
  (forall g, (g < n)%nat ->
     nth g ranks RankNaN
     = if (Z.of_nat (nth g r 0%nat) <? N)%Z
       then RankInt (nth g r 0%nat) else RankNaN) /\
  Permutation (filter (fun k => (Z.of_nat k <? N)%Z) r)
              (seq 0 (Z.to_nat (Z.min N (Z.of_nat n)))) /\
  (forall i j, (i < n)%nat -> (j < n)%nat ->
     (nth i r 0 < nth j r 0)%nat ->
     (nth j v nan <=? nth i v nan) = true \/ F64.isnan (nth j v nan) = true) /\
  (forall i, (i < n)%nat -> nth i r 0%nat = 0%nat ->
     forall j, (j < n)%nat -> F64.isnan (nth j v nan) = false ->
       (nth j v nan <=? nth i v nan) = true).
Proof.
  intros n r ranks.
  destruct (rank_row_facts v) as [Hperm Hdesc]. fold r n in Hperm, Hdesc.
  assert (Hlr : length r = n)
    by (rewrite (Permutation_length Hperm), length_seq; reflexivity).
  split; [exact Hperm|]. split; [|split; [|split; [|split]]].
  - unfold ranks, seurat_v3_ranks. cbn [snd].
    rewrite length_map, length_seq. reflexivity.
  - intros g Hg. unfold ranks, seurat_v3_ranks. cbn [snd map].
    rewrite nth_map_seq by exact Hg. fold r.
    rewrite ma_median_single.
    rewrite (nth_map_lt _ r g None 0%nat) by lia.
    rewrite Z.geb_leb, Z.leb_antisym.
    destruct (Z.of_nat (nth g r 0%nat) <? N)%Z; reflexivity.
  - eapply Permutation_trans; [apply Permutation_filter, Hperm|].
    rewrite (filter_ext _ (fun k => (k <? Z.to_nat N)%nat)).
    + rewrite filter_seq_lt.
      replace (Z.to_nat (Z.min N (Z.of_nat n))) with (Nat.min (Z.to_nat N) n)
        by lia.
      apply Permutation_refl.
    + intros k. destruct (Z.ltb_spec (Z.of_nat k) N), (Nat.ltb_spec k (Z.to_nat N));
        try reflexivity; lia.
  - exact Hdesc.
  - intros i Hi Hzero j Hj Hnan.
    destruct (Nat.eq_dec j i) as [->|Hne]; [apply FFacts.leb_refl, Hnan|].
    assert (Hnd : NoDup r)
      by (apply (Permutation_NoDup (Permutation_sym Hperm)), seq_NoDup).
    assert (Hpos : (nth i r 0 < nth j r 0)%nat).
    { destruct (Nat.eq_dec (nth j r 0%nat) 0%nat) as [E|E]; [|lia].
      exfalso. apply Hne.
      apply (proj1 (NoDup_nth r 0%nat) Hnd); try lia. }
    destruct (Hdesc i j Hi Hj Hpos) as [H|H]; [exact H|].
    unfold F64.isnan in *. congruence.
Qed.

End SeuratV3Ranks.

Lemma C5_single_batch_ranks_witness :
  let v := [2; 5; 5; nan]%float in
  let r := rank_row argsort_stable argsort_nat v in
  let ranks := snd (seurat_v3_ranks argsort_stable argsort_nat 4 [v] 2) in
  Permutation r (seq 0 4) /\
  length ranks = 4%nat /\
  (forall g, (g < 4)%nat ->
     nth g ranks RankNaN
     = if (Z.of_nat (nth g r 0%nat) <? 2)%Z
       then RankInt (nth g r 0%nat) else RankNaN) /\
  Permutation (filter (fun k => (Z.of_nat k <? 2)%Z) r)
              (seq 0 (Z.to_nat (Z.min 2 (Z.of_nat 4)))) /\
  (forall i j, (i < 4)%nat -> (j < 4)%nat ->
     (nth i r 0 < nth j r 0)%nat ->
     (nth j v nan <=? nth i v nan)%float = true
     \/ F64.isnan (nth j v nan) = true) /\
  (forall i, (i < 4)%nat -> nth i r 0%nat = 0%nat ->
     forall j, (j < 4)%nat -> F64.isnan (nth j v nan) = false ->
       (nth j v nan <=? nth i v nan)%float = true).
Proof.
  exact (C5_single_batch_ranks argsort_stable argsort_nat
           (argsort_with_ok (fun i => Z.of_nat i)) argsort_nat_ok
           [2; 5; 5; nan]%float 2).
Defined.

(** C5, as stated, fails on the tie rule.  NumPy's default [argsort] is an
    introsort: a row of more than 17 entries is partitioned, and the
    partition swaps equal entries past one another.  On one batch of 18
    genes whose normalized variances alternate between 1 and 2, with
    N = 18, two genes of equal normalized variance get ranks against their
    input order: the earlier gene has the higher rank. *)
Lemma C5_counterexample :
  let v := [1; 2; 1; 2; 1; 2; 1; 2; 1; 2; 1; 2; 1; 2; 1; 2; 1; 2]%float in
  let ranks := snd (seurat_v3_ranks npy_argsort argsort_nat 18 [v] 18) in
  exists i j ri rj,
    (i < j < 18)%nat /\
    (nth i v nan =? nth j v nan)%float = true /\
    nth i ranks RankNaN = RankInt ri /\
    nth j ranks RankNaN = RankInt rj /\
    (rj < ri)%nat.
Proof.
  exists 1%nat, 17%nat, 1%nat, 0%nat.
  split; [lia|]. split; [vm_compute; reflexivity|].
  split; [vm_compute; reflexivity|]. split; [vm_compute; reflexivity|lia].
Qed.

(** ** A small count matrix for the Seurat v3 flavor *)

Module DemoV3.
Local Open Scope float_scope.

(** Three cells, three genes; the second gene is constant. *)
Definition dense : counts_t := Dense [[1; 0; 4]; [3; 0; 1]; [2; 0; 7]].

Definition mean_var (d : counts_t) : list float * list float :=
  match d with
  | Dense rows => Demo.mean_var rows
  | Sparse _ => ([], [])
  end.

(** A fit that returns log-variance 0 at every point, and [10 ** 0 = 1],
    the only power such a fit asks for. *)
Definition flat_fit (x y : list float) (span : float) : list float :=
  map (fun _ => 0) x.

Definition pow10_of_zero (e : float) : float := 1.

Definition span : float := 0x1.3333333333333p-2.

Lemma flat_fit_length (x y : list float) (sp : float) :
  length (flat_fit x y sp) = length x.
Proof. apply length_map. Qed.

End DemoV3.

Lemma C4_clipped_normalized_variance_witness :
  exists norm_gene_var,
    seurat_v3_batch DemoV3.mean_var DemoV3.flat_fit Demo.same
      DemoV3.pow10_of_zero fsum 3 DemoV3.dense DemoV3.span empty_state
    = Return norm_gene_var empty_state /\
    length norm_gene_var = 3 /\
    forall g, g < 3 ->
      let N := float_of_Z (n_obs DemoV3.dense) in
      let reg_std :=
        PrimFloat.sqrt
          (DemoV3.pow10_of_zero
             (nth g (estimat_var_of DemoV3.flat_fit Demo.same 3
                       [2; 0; 4]%float [1; 0; 9]%float DemoV3.span)
                  nan)) in
      let m := nth g [2; 0; 4]%float nan in
      let clip := (reg_std * PrimFloat.sqrt N + m)%float in
      let clipped :=
        map (fun x => if (clip <? x)%float then clip else x)
            (cell_counts DemoV3.dense g) in
      nth g norm_gene_var nan
      = ((1 / (float_of_Z (n_obs DemoV3.dense - 1) * (reg_std * reg_std)))
         * ((N * (m * m)) + fsum (map (fun x => x * x) clipped)
            - 2 * fsum clipped * m))%float.
Proof.
  apply (C4_clipped_normalized_variance DemoV3.mean_var DemoV3.flat_fit
           Demo.same DemoV3.pow10_of_zero fsum DemoV3.flat_fit_length
           3 DemoV3.dense DemoV3.span [2; 0; 4]%float [1; 0; 9]%float
           empty_state).
  - vm_compute. reflexivity.
  - reflexivity.
  - reflexivity.
  - repeat constructor.
Defined.

Lemma C7_zero_variance_genes_witness :
  let mean := [2; 0; 4]%float in
  let var := [1; 0; 9]%float in
  let fitted_genes := flatnonzero (not_const_of var) in
  estimate_variance DemoV3.flat_fit Demo.same 3 mean var DemoV3.span
    empty_state
  = Return (estimat_var_of DemoV3.flat_fit Demo.same 3 mean var DemoV3.span)
      empty_state /\
  estimat_var_of DemoV3.flat_fit Demo.same 3 mean var DemoV3.span
  = scatter (repeat 0%float 3) (not_const_of var)
      (DemoV3.flat_fit
         (map (fun g => Demo.same (nth g mean nan)) fitted_genes)
         (map (fun g => Demo.same (nth g var nan)) fitted_genes)
         DemoV3.span) /\
  exists norm_gene_var,
    seurat_v3_batch DemoV3.mean_var DemoV3.flat_fit Demo.same
      DemoV3.pow10_of_zero fsum 3 DemoV3.dense DemoV3.span empty_state
    = Return norm_gene_var empty_state /\
    length norm_gene_var = 3 /\
    forall g, g < 3 -> F64.gtb (nth g var nan) 0 = false ->
      ~ In g fitted_genes /\
      nth g (estimat_var_of DemoV3.flat_fit Demo.same 3 mean var DemoV3.span)
          nan = 0%float /\
      nth g norm_gene_var nan
      = norm_gene_var1 (n_obs DemoV3.dense)
          (PrimFloat.sqrt (DemoV3.pow10_of_zero 0)) (nth g mean nan)
          (fsum (map np_square
                   (clipped_counts DemoV3.flat_fit Demo.same
                      DemoV3.pow10_of_zero 3 DemoV3.dense mean var
                      DemoV3.span g)))
          (fsum (clipped_counts DemoV3.flat_fit Demo.same
                   DemoV3.pow10_of_zero 3 DemoV3.dense mean var
                   DemoV3.span g)).
Proof.
  apply (C7_zero_variance_genes DemoV3.mean_var DemoV3.flat_fit
           Demo.same DemoV3.pow10_of_zero fsum DemoV3.flat_fit_length
           3 DemoV3.dense DemoV3.span [2; 0; 4]%float [1; 0; 9]%float
           empty_state).
  - vm_compute. reflexivity.
  - reflexivity.
  - reflexivity.
  - repeat constructor.
Defined.

(** * Further properties of the code *)

(** ** Top-N mode for every N *)

Section TopNOutcome.
Local Open Scope float_scope.
Import F64.

(** The position [x[i]] reads in an array of length [len], if any. *)
Definition py_index (len i : Z) : option nat :=
  if (0 <=? i)%Z && (i <? len)%Z then Some (Z.to_nat i)
  else if (- len <=? i)%Z && (i <? 0)%Z then Some (Z.to_nat (len + i))
       else None.

Lemma py_getitem_index (x : list float) (i : Z) (s : state) :
  py_getitem x i s
  = match py_index (size x) i with
    | Some j => Return (nth j x nan) s
    | None => Raise IndexError s
    end.
Proof.
  unfold py_getitem, py_index.
  destruct ((0 <=? i)%Z && (i <? size x)%Z); [reflexivity|].
  destruct ((- size x <=? i)%Z && (i <? 0)%Z); reflexivity.
Qed.

Lemma py_index_lt (len i : Z) (j : nat) :
  py_index len i = Some j -> (Z.of_nat j < len)%Z.
Proof.
  unfold py_index.
  destruct ((0 <=? i)%Z && (i <? len)%Z) eqn:E1.
  - apply andb_true_iff in E1. intros H; inversion H; subst. lia.
  - destruct ((- len <=? i)%Z && (i <? 0)%Z) eqn:E2; [|discriminate].
    apply andb_true_iff in E2. intros H; inversion H; subst. lia.
Qed.

Lemma py_index_None (len i : Z) :
  py_index len i = None <-> (i < - len \/ len <= i /\ 0 <= i)%Z.
Proof.
  unfold py_index.
  destruct (Z.leb_spec 0 i), (Z.ltb_spec i len), (Z.leb_spec (- len) i),
    (Z.ltb_spec i 0); cbn [andb]; split; intros HN;
    try discriminate; try reflexivity; try lia.
Qed.

(** The position of the threshold among the non-NaN values sorted highest
    first, for a requested N. *)
Definition threshold_index (n_vars : Z) (d : list float) (N : Z) : option nat :=
  let m := size (filter notnan d) in
  py_index m (clamp (clamp N n_vars) m - 1).

Definition topn_diagnostics (n_vars : Z) (d : list float) (N : Z) : list event :=
  warn_if (N >? n_vars)%Z Info_n_top_genes_gt_n_var
  ++ warn_if (clamp N n_vars >? size (filter notnan d))%Z
       Warn_n_top_genes_gt_dispersions.

Lemma nth_highest_outcome (x : list float) (n : Z) (s : state) :
  let m := size (filter notnan x) in
  let s' := mkState (heap s)
              (events s ++ warn_if (n >? m)%Z Warn_n_top_genes_gt_dispersions) in
  _nth_highest x n s
  = match py_index m (clamp n m - 1) with
    | Some j => Return (nth j (sorted_desc x) nan) s'
    | None => Raise IndexError s'
    end.
Proof.
  intros m s'. unfold _nth_highest, bind. fold m.
  assert (Hsize : size (rev (np_sort (rev (filter notnan x)))) = m).
  { unfold m, size. f_equal. apply sorted_desc_length. }
  unfold clamp, warn_if in *. subst s'. destruct (n >? m)%Z eqn:E.
  - unfold emit, ret. cbn [heap events].
    rewrite py_getitem_index, Hsize. reflexivity.
  - unfold ret. rewrite py_getitem_index, Hsize.
    rewrite app_nil_r, state_eta. reflexivity.
Qed.

Lemma subset_genes_topn_outcome (n_vars : Z) (mean : list float) (dl : loc)
    (N : Z) (s : state) :
  let d := nth dl (heap s) [] in
  let s1 := mkState (heap s) (events s ++ topn_diagnostics n_vars d N) in
  _subset_genes n_vars mean dl (TopN N) s
  = match threshold_index n_vars d N with
    | Some j =>
        let t := nth j (sorted_desc d) nan in
        Return (map (fun v => geb (nan_to_num v) t) d)
          (mkState (heap s)
             (events s1 ++ [Debug_cutoff (clamp N n_vars) t]))
    | None => Raise IndexError s1
    end.
Proof.
  intros d s1. unfold _subset_genes, threshold_index, topn_diagnostics in *.
  subst s1.
  assert (EC : clamp N n_vars = if (N >? n_vars)%Z then n_vars else N)
    by reflexivity.
  unfold warn_if at 1.
  destruct (N >? n_vars)%Z eqn:EN; rewrite EC in *;
    unfold bind, emit, ret, load; cbn [heap events]; fold d;
    rewrite nth_highest_outcome; cbn [heap events];
    destruct (py_index _ _); cbn [heap events];
    rewrite <- ?app_assoc; reflexivity.
Qed.

(** X1. Top-N selection fails only with [IndexError], and exactly when no
    normalized dispersion is non-NaN or N is at most minus their number;
    otherwise it returns one flag per gene.  Either way no buffer of the
    store is written, the info message is logged exactly when N exceeds the
    gene count and the warning exactly when N, clamped to the gene count,
    exceeds the number of non-NaN values. *)
Theorem topn_outcome (n_vars : Z) (mean : list float) (dl : loc) (N : Z)
    (s : state) :
  let d := nth dl (heap s) [] in
  let m := size (filter notnan d) in
  n_vars = size d ->
  ((m = 0 \/ N <= - m)%Z ->
     _subset_genes n_vars mean dl (TopN N) s
     = Raise IndexError
         (mkState (heap s) (events s ++ topn_diagnostics n_vars d N))) /\
  (~ (m = 0 \/ N <= - m)%Z ->
     exists sel t,
       _subset_genes n_vars mean dl (TopN N) s
       = Return sel
           (mkState (heap s)
              (events s ++ topn_diagnostics n_vars d N
               ++ [Debug_cutoff (Z.min N n_vars) t]) ) /\
       length sel = length d) /\
  (In Info_n_top_genes_gt_n_var (topn_diagnostics n_vars d N)
   <-> (N > n_vars)%Z) /\
  (In Warn_n_top_genes_gt_dispersions (topn_diagnostics n_vars d N)
   <-> (Z.min N n_vars > m)%Z).
Proof.
  intros d m Hn.
  assert (Hmd : (0 <= m <= size d)%Z).
  { unfold m, size. pose proof (filter_length_le notnan d). lia. }
  pose proof (subset_genes_topn_outcome n_vars mean dl N s) as Hrun.
  cbv zeta in Hrun. fold d in Hrun.
  unfold threshold_index in Hrun. fold m in Hrun.
  rewrite !clamp_min in Hrun.
  split; [|split; [|split]].
  - intros Hbad. rewrite Hrun.
    replace (py_index m (Z.min (Z.min N n_vars) m - 1)) with (@None nat);
      [reflexivity|].
    symmetry. apply py_index_None. lia.
  - intros Hok. rewrite Hrun.
    destruct (py_index m (Z.min (Z.min N n_vars) m - 1)) as [j|] eqn:E.
    + do 2 eexists. cbn [events]. rewrite <- app_assoc.
      split; [reflexivity|]. apply length_map.
    + exfalso. apply py_index_None in E. lia.
  - unfold topn_diagnostics, warn_if. fold m.
    destruct (N >? n_vars)%Z eqn:E1;
      destruct (clamp N n_vars >? m)%Z eqn:E2; simpl; split;
      intros H; try lia; try (left; reflexivity);
      try (right; left; reflexivity);
      repeat (destruct H as [H|H]; try discriminate H); try contradiction.
  - unfold topn_diagnostics, warn_if. fold m. rewrite clamp_min.
    destruct (N >? n_vars)%Z eqn:E1;
      destruct (Z.min N n_vars >? m)%Z eqn:E2; simpl; split;
      intros H; try lia; try (left; reflexivity);
      try (right; left; reflexivity);
      repeat (destruct H as [H|H]; try discriminate H); try contradiction.
Qed.

Lemma topn_outcome_witness :
  ((2 = 0 \/ 5 <= - 2)%Z ->
     _subset_genes 3 [1; 1; 1] 0%nat (TopN 5) (mkState [[nan; 2; -1]] [])
     = Raise IndexError
         (mkState [[nan; 2; -1]] ([] ++ topn_diagnostics 3 [nan; 2; -1] 5))) /\
  (~ (2 = 0 \/ 5 <= - 2)%Z ->
     exists sel t,
       _subset_genes 3 [1; 1; 1] 0%nat (TopN 5) (mkState [[nan; 2; -1]] [])
       = Return sel
           (mkState [[nan; 2; -1]]
              ([] ++ topn_diagnostics 3 [nan; 2; -1] 5
               ++ [Debug_cutoff (Z.min 5 3) t])) /\
       length sel = 3%nat) /\
  (In Info_n_top_genes_gt_n_var (topn_diagnostics 3 [nan; 2; -1] 5)
   <-> (5 > 3)%Z) /\
  (In Warn_n_top_genes_gt_dispersions (topn_diagnostics 3 [nan; 2; -1] 5)
   <-> (Z.min 5 3 > 2)%Z).
Proof.
  apply (topn_outcome 3 [1; 1; 1] 0%nat 5 (mkState [[nan; 2; -1]] [])).
  reflexivity.
Defined.

Lemma threshold_index_In (n_vars : Z) (d : list float) (N : Z) (j : nat) :
  threshold_index n_vars d N = Some j ->
  (j < length (sorted_desc d))%nat /\
  In (nth j (sorted_desc d) nan) d /\
  isnan (nth j (sorted_desc d) nan) = false.
Proof.
  intros H. unfold threshold_index in H. apply py_index_lt in H.
  assert (Hj : (j < length (sorted_desc d))%nat)
    by (rewrite sorted_desc_length; unfold size in H; lia).
  split; [exact Hj|].
  pose proof (nth_In (sorted_desc d) nan Hj) as Hin.
  split; [|apply sorted_desc_notnan with (x := d); exact Hin].
  apply (Permutation_in _ (Permutation_sym (sorted_desc_Permutation d))) in Hin.
  apply filter_In in Hin. tauto.
Qed.

Lemma geb_nan_to_num_self (t : float) :
  isnan t = false -> (t =? infinity) = false ->
  geb (nan_to_num t) t = true.
Proof.
  intros Hn Hi. unfold geb, nan_to_num. rewrite Hn, Hi.
  destruct (t =? neg_infinity) eqn:E.
  - clear Hi. FFacts.forder.
  - apply FFacts.leb_refl. exact Hn.
Qed.

(** X2. Whenever top-N selection returns, the cutoff it logs and applies is
    one of the normalized dispersions of the input and is not NaN; unless
    that value is [+inf], the gene that holds it is itself selected, so the
    selection is not empty. *)
Theorem topn_threshold_is_a_dispersion (n_vars : Z) (mean : list float)
    (dl : loc) (N : Z) (s s' : state) (sel : list bool) :
  let d := nth dl (heap s) [] in
  _subset_genes n_vars mean dl (TopN N) s = Return sel s' ->
  exists t,
    In t d /\ isnan t = false /\
    sel = map (fun v => geb (nan_to_num v) t) d /\
    events s' = events s ++ topn_diagnostics n_vars d N
                ++ [Debug_cutoff (clamp N n_vars) t] /\
    ((t =? infinity) = false ->
     exists i, (i < length d)%nat /\ nth i d nan = t /\
               nth i sel false = true).
Proof.
  intros d Hrun.
  rewrite subset_genes_topn_outcome in Hrun. fold d in Hrun.
  destruct (threshold_index n_vars d N) as [j|] eqn:E; [|discriminate].
  cbv zeta in Hrun. inversion Hrun as [[Hsel Hs]]. clear Hrun.
  destruct (threshold_index_In _ _ _ _ E) as (Hj & Hin & Hnan).
  exists (nth j (sorted_desc d) nan).
  split; [exact Hin|]. split; [exact Hnan|]. split; [reflexivity|].
  split; [cbn [events]; rewrite <- app_assoc; reflexivity|].
  intros Hinf. destruct (In_nth d _ nan Hin) as (i & Hi & Ei).
  exists i. split; [exact Hi|]. split; [exact Ei|].
  rewrite (nth_map_lt _ d i false nan) by exact Hi. rewrite Ei.
  apply geb_nan_to_num_self; assumption.
Qed.

Lemma topn_threshold_is_a_dispersion_witness :
  exists t,
    In t [nan; 2; -1] /\ isnan t = false /\
    [true; true; true] = map (fun v => geb (nan_to_num v) t) [nan; 2; -1] /\
    [Debug_cutoff 2 (-1)]
    = [] ++ topn_diagnostics 3 [nan; 2; -1] 2 ++ [Debug_cutoff (clamp 2 3) t] /\
    ((t =? infinity) = false ->
     exists i, (i < 3)%nat /\ nth i [nan; 2; -1] nan = t /\
               nth i [true; true; true] false = true).
Proof.
  apply (topn_threshold_is_a_dispersion 3 [1; 1; 1] 0%nat 2
           (mkState [[nan; 2; -1]] [])
           (mkState [[nan; 2; -1]] [Debug_cutoff 2 (-1)])
           [true; true; true]).
  vm_compute. reflexivity.
Defined.

Lemma threshold_index_pos (n_vars : Z) (d : list float) (N : Z) :
  let m := size (filter notnan d) in
  n_vars = size d -> (1 <= N)%Z -> (1 <= m)%Z ->
  threshold_index n_vars d N
  = Some (Z.to_nat (Z.min N m - 1)).
Proof.
  intros m Hn HN Hm.
  assert (Hmd : (m <= size d)%Z).
  { unfold m, size. pose proof (filter_length_le notnan d). lia. }
  unfold threshold_index. fold m. rewrite !clamp_min.
  replace (Z.min (Z.min N n_vars) m) with (Z.min N m) by lia.
  unfold py_index.
  destruct (Z.leb_spec 0 (Z.min N m - 1)); [|lia].
  destruct (Z.ltb_spec (Z.min N m - 1) m); [|lia].
  reflexivity.
Qed.

(** X3. For N >= 1, asking for more genes never drops one: with at least
    one non-NaN normalized dispersion, both runs return, every gene
    selected for N is selected for any N' >= N, and the threshold for N'
    is not above the one for N. *)
Theorem topn_monotone_in_n (n_vars : Z) (mean : list float) (dl : loc)
    (N N' : Z) (s : state) :
  let d := nth dl (heap s) [] in
  let m := size (filter notnan d) in
  n_vars = size d -> (1 <= m)%Z -> (1 <= N <= N')%Z ->
  exists sel sel' s1 s2,
    _subset_genes n_vars mean dl (TopN N) s = Return sel s1 /\
    _subset_genes n_vars mean dl (TopN N') s = Return sel' s2 /\
    (forall i, nth i sel false = true -> nth i sel' false = true) /\
    (count_true sel <= count_true sel')%nat.
Proof.
  intros d m Hn Hm HN.
  pose proof (subset_genes_topn_outcome n_vars mean dl N s) as R1.
  pose proof (subset_genes_topn_outcome n_vars mean dl N' s) as R2.
  cbv zeta in R1, R2. fold d in R1, R2.
  rewrite (threshold_index_pos n_vars d N Hn) in R1 by (fold m; lia).
  rewrite (threshold_index_pos n_vars d N' Hn) in R2 by (fold m; lia).
  fold m in R1, R2.
  set (t := nth (Z.to_nat (Z.min N m - 1)) (sorted_desc d) nan) in *.
  set (t' := nth (Z.to_nat (Z.min N' m - 1)) (sorted_desc d) nan) in *.
  assert (Htt : (t' <=? t) = true).
  { apply sorted_desc_order; [lia|].
    rewrite sorted_desc_length. unfold m, size in *. lia. }
  assert (Himp : forall v, geb (nan_to_num v) t = true ->
                           geb (nan_to_num v) t' = true).
  { intros v. unfold geb. intros H. eapply FFacts.leb_trans; eassumption. }
  do 4 eexists. split; [exact R1|]. split; [exact R2|]. split.
  - intros i Hi.
    destruct (Nat.lt_ge_cases i (length d)) as [Hlt|Hge].
    + rewrite (nth_map_lt _ d i false nan) in Hi by exact Hlt.
      rewrite (nth_map_lt _ d i false nan) by exact Hlt.
      apply Himp. exact Hi.
    + rewrite nth_overflow in Hi by (rewrite length_map; exact Hge).
      discriminate.
  - rewrite !count_true_map. apply filter_length_impl.
    intros v _. apply Himp.
Qed.

Lemma topn_monotone_in_n_witness :
  exists sel sel' s1 s2,
    _subset_genes 3 [1; 1; 1] 0%nat (TopN 1) (mkState [[nan; 2; -1]] [])
    = Return sel s1 /\
    _subset_genes 3 [1; 1; 1] 0%nat (TopN 2) (mkState [[nan; 2; -1]] [])
    = Return sel' s2 /\
    (forall i, nth i sel false = true -> nth i sel' false = true) /\
    (count_true sel <= count_true sel')%nat.
Proof.
  apply (topn_monotone_in_n 3 [1; 1; 1] 0%nat 1 2
           (mkState [[nan; 2; -1]] []));
    vm_compute; try split; congruence.
Defined.

Lemma threshold_index_wrap (n_vars : Z) (d : list float) (N : Z) :
  let m := size (filter notnan d) in
  n_vars = size d -> (- m < N <= 0)%Z ->
  threshold_index n_vars d N = Some (Z.to_nat (m + N - 1)).
Proof.
  intros m Hn HN.
  assert (Hmd : (m <= size d)%Z).
  { unfold m, size. pose proof (filter_length_le notnan d). lia. }
  unfold threshold_index. fold m. rewrite !clamp_min.
  replace (Z.min (Z.min N n_vars) m) with N by lia.
  unfold py_index.
  destruct (Z.leb_spec 0 (N - 1)); [lia|].
  destruct (Z.leb_spec (- m) (N - 1)); [|lia].
  destruct (Z.ltb_spec (N - 1) 0); [|lia].
  cbn [andb]. f_equal. lia.
Qed.

(** X4. A non-positive N is not read as "no gene": with [m] non-NaN
    normalized dispersions and [-m < N <= 0], the threshold lookup wraps
    around and the selection is the one of N + m.  For N = 0 the
    threshold is the lowest non-NaN value and every gene with a finite
    normalized dispersion is selected. *)
Theorem topn_nonpositive_n_wraps (n_vars : Z) (mean : list float) (dl : loc)
    (N : Z) (s : state) :
  let d := nth dl (heap s) [] in
  let m := size (filter notnan d) in
  n_vars = size d -> (- m < N <= 0)%Z ->
  exists sel s1 s2,
    _subset_genes n_vars mean dl (TopN N) s = Return sel s1 /\
    _subset_genes n_vars mean dl (TopN (N + m)) s = Return sel s2 /\
    (N = 0%Z ->
     forall i, (i < length d)%nat ->
       isfinite (nth i d nan) = true -> nth i sel false = true).
Proof.
  intros d m Hn HN.
  pose proof (subset_genes_topn_outcome n_vars mean dl N s) as R1.
  pose proof (subset_genes_topn_outcome n_vars mean dl (N + m) s) as R2.
  cbv zeta in R1, R2. fold d in R1, R2.
  rewrite (threshold_index_wrap n_vars d N Hn) in R1 by (fold m; lia).
  rewrite (threshold_index_pos n_vars d (N + m) Hn) in R2 by (fold m; lia).
  fold m in R1, R2.
  replace (Z.to_nat (Z.min (N + m) m - 1)) with (Z.to_nat (m + N - 1)) in R2
    by lia.
  do 3 eexists. split; [exact R1|]. split; [exact R2|].
  intros -> i Hi Hfin.
  rewrite (nth_map_lt _ d i false nan) by exact Hi.
  apply isfinite_spec in Hfin. destruct Hfin as [Hnan Hinf].
  rewrite FFacts.nan_to_num_finite by assumption.
  unfold geb.
  replace (Z.to_nat (m + 0 - 1)) with (length (filter notnan d) - 1)%nat
    by (unfold m, size; lia).
  apply sorted_desc_last_le; [apply nth_In; exact Hi | exact Hnan].
Qed.

Lemma topn_nonpositive_n_wraps_witness :
  exists sel s1 s2,
    _subset_genes 3 [1; 1; 1] 0%nat (TopN 0) (mkState [[nan; 2; -1]] [])
    = Return sel s1 /\
    _subset_genes 3 [1; 1; 1] 0%nat (TopN (0 + 2)) (mkState [[nan; 2; -1]] [])
    = Return sel s2 /\
    (0%Z = 0%Z ->
     forall i, (i < 3)%nat ->
       isfinite (nth i [nan; 2; -1] nan) = true -> nth i sel false = true).
Proof.
  apply (topn_nonpositive_n_wraps 3 [1; 1; 1] 0%nat 0
           (mkState [[nan; 2; -1]] []));
    vm_compute; try split; congruence.
Defined.

End TopNOutcome.

(** ** Interval mode: what it writes and what it never selects *)

Section IntervalOutcome.
Local Open Scope float_scope.
Import F64.

Lemma subset_genes_interval_run (n_vars : Z) (mean : list float) (dl : loc)
    (c : _Cutoffs) (s : state) :
  let d := nth dl (heap s) [] in
  let s1 := mkState (set_nth dl (map nan_to_zero d) (heap s)) (events s) in
  _subset_genes n_vars mean dl (Interval c) s
  = match in_bounds c mean (map nan_to_zero d) with
    | Some sel => Return sel s1
    | None => Raise ValueError s1
    end.
Proof.
  intros d s1. unfold _subset_genes, bind, load, store. cbn [heap events].
  rewrite (nth_set_nth_map (map nan_to_zero) dl (heap s) eq_refl). fold d.
  destruct (in_bounds c mean (map nan_to_zero d)); reflexivity.
Qed.

Lemma set_nth_other {A} (i j : nat) (x : A) (l : list A) (d : A) :
  i <> j -> nth j (set_nth i x l) d = nth j l d.
Proof.
  revert i j. induction l as [|a l IH]; intros [|i] [|j] H; simpl;
    try reflexivity; try congruence.
  apply IH. congruence.
Qed.

Lemma set_nth_twice {A} (i : nat) (x : A) (l : list A) :
  set_nth i x (set_nth i x l) = set_nth i x l.
Proof.
  revert i. induction l as [|a l IH]; intros [|i]; simpl;
    try reflexivity. f_equal. apply IH.
Qed.

Lemma nan_to_zero_twice (d : list float) :
  map nan_to_zero (map nan_to_zero d) = map nan_to_zero d.
Proof.
  rewrite map_map. apply map_ext. intros v. unfold nan_to_zero at 1.
  rewrite FFacts.nan_to_zero_notnan. reflexivity.
Qed.

(** X5. In interval mode with a lower dispersion bound that is not below
    zero (the default 0.5 is one), a gene whose normalized dispersion is
    NaN is never selected.  The run logs nothing and writes no buffer other
    than the normalized dispersions. *)
Theorem interval_nan_genes_excluded (n_vars : Z) (mean : list float)
    (dl : loc) (c : _Cutoffs) (s : state) :
  let d := nth dl (heap s) [] in
  length mean = length d ->
  (min_disp c <? 0) = false ->
  exists sel s',
    _subset_genes n_vars mean dl (Interval c) s = Return sel s' /\
    events s' = events s /\
    (forall l, l <> dl -> nth l (heap s') [] = nth l (heap s) []) /\
    (forall i, (i < length d)%nat ->
       isnan (nth i d nan) = true -> nth i sel false = false).
Proof.
  intros d Hl Hmin.
  destruct (in_bounds_nan_to_zero c mean d Hl) as (sel & Hs & Hlen & Hsel).
  exists sel. eexists.
  rewrite subset_genes_interval_run. fold d. rewrite Hs.
  split; [reflexivity|]. cbn [heap events]. split; [reflexivity|]. split.
  - intros l Hne. apply set_nth_other. congruence.
  - intros i Hi Hnan. destruct (Hsel i Hi) as (_ & _ & Hiff).
    destruct (nth i sel false) eqn:E; [|reflexivity].
    destruct (proj1 (Hiff Hnan) eq_refl) as (_ & _ & Hlow & _).
    congruence.
Qed.

Lemma interval_nan_genes_excluded_witness :
  exists sel s',
    _subset_genes 2 [1; 1] 0%nat (Interval default_cutoffs)
      (mkState [[nan; 2]] []) = Return sel s' /\
    events s' = [] /\
    (forall l, l <> 0%nat -> nth l (heap s') [] = nth l [[nan; 2]] []) /\
    (forall i, (i < 2)%nat ->
       isnan (nth i [nan; 2] nan) = true -> nth i sel false = false).
Proof.
  apply (interval_nan_genes_excluded 2 [1; 1] 0%nat default_cutoffs
           (mkState [[nan; 2]] [])); reflexivity.
Defined.

(** X6. Interval selection is idempotent on the store: a second run on the
    state the first one left returns the same selection and leaves that
    state as it is, since the first run already turned every NaN into 0. *)
Theorem interval_selection_idempotent (n_vars : Z) (mean : list float)
    (dl : loc) (c : _Cutoffs) (s s1 : state) (sel : list bool) :
  _subset_genes n_vars mean dl (Interval c) s = Return sel s1 ->
  _subset_genes n_vars mean dl (Interval c) s1 = Return sel s1.
Proof.
  intros H. rewrite subset_genes_interval_run in H.
  destruct (in_bounds c mean (map nan_to_zero (nth dl (heap s) [])))
    as [sel0|] eqn:E; [|discriminate].
  inversion H; subst. clear H.
  rewrite subset_genes_interval_run. cbn [heap events].
  rewrite (nth_set_nth_map (map nan_to_zero) dl (heap s) eq_refl).
  rewrite nan_to_zero_twice, E, set_nth_twice. reflexivity.
Qed.

Lemma interval_selection_idempotent_witness :
  _subset_genes 2 [1; 1] 0%nat (Interval default_cutoffs)
    (mkState [[0; 2]] []) = Return [false; true] (mkState [[0; 2]] []).
Proof.
  apply (interval_selection_idempotent 2 [1; 1] 0%nat default_cutoffs
           (mkState [[nan; 2]] [])).
  vm_compute. reflexivity.
Defined.

End IntervalOutcome.

(** ** Per-bin statistics: the lookup and the fallback in full *)

Section BinStatsOutcome.
Local Open Scope float_scope.

Lemma lookup_bin_Some (stats : list bin_stat) (b : nat) (r : bin_stat) :
  lookup_bin stats b = Some r -> bin r = b /\ In r stats.
Proof.
  unfold lookup_bin. intros H. apply find_some in H.
  destruct H as [Hin Hb]. apply Nat.eqb_eq in Hb. tauto.
Qed.

Lemma unbin_returns (stats : list bin_stat) (mean_bins : list nat)
    (s : state) :
  Forall (fun b => lookup_bin stats b <> None) mean_bins ->
  exists rs,
    _unbin stats mean_bins s = Return rs s /\
    Forall2 (fun b r => lookup_bin stats b = Some r) mean_bins rs.
Proof.
  induction 1 as [|b rest Hb Hrest IH].
  - exists []. split; [reflexivity|constructor].
  - destruct IH as (rs & Hrun & Hall). simpl.
    destruct (lookup_bin stats b) as [r|] eqn:E; [|congruence].
    exists (r :: rs). unfold bind. rewrite Hrun.
    split; [reflexivity|]. constructor; assumption.
Qed.

Lemma unbin_raises (stats : list bin_stat) (mean_bins : list nat)
    (s : state) :
  Exists (fun b => lookup_bin stats b = None) mean_bins ->
  _unbin stats mean_bins s = Raise KeyError s.
Proof.
  induction 1 as [b rest Hb|b rest Hrest IH]; simpl.
  - rewrite Hb. reflexivity.
  - destruct (lookup_bin stats b); [|reflexivity].
    unfold bind. rewrite IH. reflexivity.
Qed.

(** X7. [_unbin] raises [KeyError], with the state as it was, as soon as
    the bin of one gene has no line in the table; otherwise it returns one
    line per gene, the line of that gene's bin.  On a table that [_aggregate]
    built from the same bins the lookup always succeeds, whatever the two
    aggregators are. *)
Theorem unbin_key_error (stats : list bin_stat) (mean_bins : list nat)
    (s : state) :
  (Exists (fun b => lookup_bin stats b = None) mean_bins ->
   _unbin stats mean_bins s = Raise KeyError s) /\
  (Forall (fun b => lookup_bin stats b <> None) mean_bins ->
   exists rs,
     _unbin stats mean_bins s = Return rs s /\
     length rs = length mean_bins /\
     forall i, (i < length mean_bins)%nat ->
       bin (nth i rs (mk_bin_stat 0 0 0)) = nth i mean_bins 0%nat /\
       In (nth i rs (mk_bin_stat 0 0 0)) stats) /\
  (forall f1 f2 dispersions,
     _unbin (agg2 f1 f2 mean_bins dispersions) mean_bins s
     = Return (map (bin_line f1 f2 mean_bins dispersions) mean_bins) s).
Proof.
  split; [apply unbin_raises|]. split.
  - intros Hall. destruct (unbin_returns stats mean_bins s Hall)
      as (rs & Hrun & H2).
    exists rs. split; [exact Hrun|].
    split; [symmetry; eapply Forall2_length; exact H2|].
    clear Hrun Hall. induction H2 as [|b r l rs Hbr H2 IH];
      intros i Hi; simpl in *; [lia|].
    destruct i as [|i].
    + apply lookup_bin_Some. exact Hbr.
    + apply IH. lia.
  - intros f1 f2 dispersions. apply unbin_run.
    intros b Hb. apply lookup_agg2, Hb.
Qed.

Lemma unbin_key_error_witness :
  _unbin [mk_bin_stat 0 1 2] [0%nat; 3%nat] empty_state
  = Raise KeyError empty_state.
Proof.
  apply (unbin_key_error [mk_bin_stat 0 1 2] [0%nat; 3%nat] empty_state).
  apply Exists_cons_tl, Exists_cons_hd. reflexivity.
Defined.

Lemma nanstd_ddof1_few (g : list float) :
  (length (filter F64.notnan g) <= 1)%nat ->
  F64.isnan (nanstd_ddof1 g) = true.
Proof.
  intros H. unfold nanstd_ddof1.
  destruct (Nat.leb_spec (length (filter F64.notnan g)) 1); [reflexivity|lia].
Qed.

Lemma single_bin_genes_spec (mean_bins : list nat) (dispersions : list float)
    (i : nat) :
  (i < length mean_bins)%nat ->
  In i (single_bin_genes mean_bins dispersions)
  <-> F64.isnan (dev (bin_line nanmean nanstd_ddof1 mean_bins dispersions
                        (nth i mean_bins 0%nat))) = true.
Proof.
  intros Hi.
  assert (E : nth i (map (fun r => F64.isnan (dev r))
                       (map (bin_line nanmean nanstd_ddof1 mean_bins dispersions)
                            mean_bins)) false
              = F64.isnan (dev (bin_line nanmean nanstd_ddof1 mean_bins
                                 dispersions (nth i mean_bins 0%nat)))).
  { rewrite (nth_map_lt _ _ i false (mk_bin_stat 0 0 0))
      by (rewrite length_map; exact Hi).
    rewrite (nth_map_lt _ _ i (mk_bin_stat 0 0 0) 0%nat) by exact Hi.
    reflexivity. }
  unfold single_bin_genes. split.
  - intros H. apply flatnonzero_In in H. rewrite <- E. exact H.
  - intros H. apply In_flatnonzero; [rewrite !length_map; exact Hi|].
    rewrite E. exact H.
Qed.

(** X8. The fallback of [_stats_seurat] is driven by the standard deviation
    alone.  The debug message is logged exactly when some gene sits in a
    bin whose standard deviation is NaN, and it lists exactly those genes.
    Such a gene gets location 0 and, as scale, the mean the aggregation
    computed; this covers every bin with at most one non-NaN dispersion,
    however many genes it holds.  A gene in a bin whose standard deviation
    is not NaN keeps the mean and the standard deviation of its bin and is
    not listed. *)
Theorem stats_seurat_fallback_exact (mean_bins : list nat)
    (dispersions : list float) (s : state) :
  let line := bin_line nanmean nanstd_ddof1 mean_bins dispersions in
  let gi := single_bin_genes mean_bins dispersions in
  exists stats s',
    _stats_seurat mean_bins dispersions s = Return stats s' /\
    events s' = events s ++ (if (0 <? length gi)%nat
                             then [Debug_single_bin gi] else []) /\
    ((0 < length gi)%nat <->
     exists i, (i < length mean_bins)%nat /\
               F64.isnan (dev (line (nth i mean_bins 0%nat))) = true) /\
    forall i, (i < length mean_bins)%nat ->
      let b := nth i mean_bins 0%nat in
      (In i gi <-> F64.isnan (dev (line b)) = true) /\
      (F64.isnan (dev (line b)) = true ->
       nth i stats (mk_bin_stat 0 0 0) = mk_bin_stat b 0 (avg (line b))) /\
      (F64.isnan (dev (line b)) = false ->
       nth i stats (mk_bin_stat 0 0 0) = line b) /\
      ((length (filter F64.notnan (group mean_bins dispersions b)) <= 1)%nat ->
       F64.isnan (dev (line b)) = true).
Proof.
  intros line gi.
  do 2 eexists. split; [apply stats_seurat_run|]. cbn [heap events].
  fold gi. split; [reflexivity|]. split.
  - split.
    + intros Hpos. destruct gi as [|i gi'] eqn:E; [simpl in Hpos; lia|].
      assert (Hin : In i (single_bin_genes mean_bins dispersions))
        by (fold gi; rewrite E; left; reflexivity).
      assert (Hi : (i < length mean_bins)%nat).
      { unfold single_bin_genes in Hin. apply flatnonzero_In in Hin.
        destruct (Nat.lt_ge_cases i (length mean_bins)) as [Hlt|Hge];
          [exact Hlt|].
        rewrite nth_overflow in Hin by (rewrite !length_map; exact Hge).
        discriminate. }
      exists i. split; [exact Hi|].
      apply (single_bin_genes_spec mean_bins dispersions i Hi). exact Hin.
    + intros (i & Hi & Hnan).
      apply (single_bin_genes_spec mean_bins dispersions i Hi) in Hnan.
      fold gi in Hnan. destruct gi; [destruct Hnan|simpl; lia].
  - intros i Hi. set (b := nth i mean_bins 0%nat).
    split; [apply single_bin_genes_spec; exact Hi|].
    split; [|split].
    + intros Hnan. rewrite (nth_map_lt _ _ i _ 0%nat) by exact Hi.
      fold b. fold line. unfold fallback. rewrite Hnan. reflexivity.
    + intros Hnan. rewrite (nth_map_lt _ _ i _ 0%nat) by exact Hi.
      fold b. fold line. unfold fallback. rewrite Hnan. reflexivity.
    + intros Hfew. apply nanstd_ddof1_few. exact Hfew.
Qed.

End BinStatsOutcome.

(** ** Batches: rejected flavors, filtered-out genes, the final table *)

Section BatchOutcome.
Local Open Scope float_scope.

Variable _get_mean_var : matrix -> list float * list float.
Variables np_log np_log1p np_expm1 : float -> float.
Variable pd_cut_n : list float -> Z -> list nat.
Variable pd_cut_edges : list float -> list float -> list nat.
Variable np_percentile : list float -> list float -> list float.
Variable get_mad : list float -> float.
Variable filter_genes : matrix -> list bool.
Variable series_to_array : loc -> M loc.

Local Abbreviation single_batch :=
  (_highly_variable_genes_single_batch _get_mean_var np_log np_log1p
     np_expm1 pd_cut_n pd_cut_edges np_percentile get_mad series_to_array).
Local Abbreviation batch_frame' :=
  (batch_frame _get_mean_var np_log np_log1p np_expm1 pd_cut_n pd_cut_edges
     np_percentile get_mad filter_genes series_to_array).
Local Abbreviation batched :=
  (_highly_variable_genes_batched _get_mean_var np_log np_log1p np_expm1
     pd_cut_n pd_cut_edges np_percentile get_mad filter_genes
     series_to_array).
Local Abbreviation hvg :=
  (highly_variable_genes _get_mean_var np_log np_log1p np_expm1
     pd_cut_n pd_cut_edges np_percentile get_mad filter_genes
     series_to_array).

Lemma single_batch_other_flavor (adata : AnnData) (cutoff : cutoff_t)
    (n_bins : Z) (s : state) :
  single_batch adata cutoff n_bins OtherFlavor s = Raise ValueError s.
Proof.
  unfold _highly_variable_genes_single_batch.
  destruct (_get_mean_var (X adata)) as [mean var].
  unfold bind, lift_shape.
  destruct (broadcast2 PrimFloat.div var _); reflexivity.
Qed.

(** X9. A flavor other than "seurat" and "cell_ranger" is rejected with
    [ValueError] before anything is binned, allocated or logged: by the
    single-batch computation on the state it was given, by the batched
    computation (at its first batch) as soon as there is a batch, and by
    [highly_variable_genes] right after the cutoff policy is fixed. *)
Theorem unknown_flavor_rejected (adata : AnnData) (cutoff : cutoff_t)
    (n_top_genes : option Z) (bounds : _Cutoffs) (n_bins : Z)
    (batch_key : bool) (s : state) :
  (1 <= n_categories adata)%nat ->
  single_batch adata cutoff n_bins OtherFlavor s = Raise ValueError s /\
  batched adata n_bins OtherFlavor cutoff s = Raise ValueError s /\
  exists c s1,
    validate n_top_genes bounds s = Return c s1 /\
    heap s1 = heap s /\
    hvg adata n_top_genes bounds n_bins OtherFlavor batch_key s
    = Raise ValueError s1.
Proof.
  intros HK. split; [apply single_batch_other_flavor|].
  assert (Hb : forall c s0,
             batched adata n_bins OtherFlavor c s0 = Raise ValueError s0).
  { intros c s0. unfold _highly_variable_genes_batched.
    destruct (n_categories adata) as [|K]; [lia|].
    cbn [seq for_each]. unfold bind at 1 2. unfold batch_frame.
    unfold bind at 1. rewrite single_batch_other_flavor. reflexivity. }
  split; [apply Hb|].
  assert (Hv : exists c s1, validate n_top_genes bounds s = Return c s1 /\
                            heap s1 = heap s).
  { unfold validate. destruct n_top_genes as [n|].
    - unfold bind. destruct (negb _); do 2 eexists; split; reflexivity.
    - do 2 eexists. split; reflexivity. }
  destruct Hv as (c & s1 & Hv & Hh). exists c, s1.
  split; [exact Hv|]. split; [exact Hh|].
  unfold highly_variable_genes, bind. rewrite Hv.
  destruct batch_key.
  - rewrite Hb. reflexivity.
  - rewrite single_batch_other_flavor. reflexivity.
Qed.

Lemma In_mask_select {A} (xs : list A) (mask : list bool) (i : nat) (d : A) :
  (i < length xs)%nat -> nth i mask false = true ->
  In (nth i xs d) (mask_select xs mask).
Proof.
  unfold mask_select. revert mask i.
  induction xs as [|x xs IH]; intros [|b mask] i Hi Hm; simpl in *;
    try lia; try (destruct i; discriminate).
  destruct i as [|i].
  - subst b. left. reflexivity.
  - destruct b; simpl; [right|]; apply IH; try lia; exact Hm.
Qed.

Lemma count_true_pos (mask : list bool) (i : nat) :
  nth i mask false = true -> (0 < count_true mask)%nat.
Proof.
  unfold count_true. revert i.
  induction mask as [|b mask IH]; intros [|i] H; simpl in *;
    try discriminate.
  - subst b. simpl. lia.
  - destruct b; simpl; [lia|]. eapply IH, H.
Qed.

Lemma not_selected_once (rows : list hvg_row) (r : hvg_row) :
  NoDup (map row_gene rows) -> In r rows ->
  row_highly_variable r = false ->
  selected_in (row_gene r) rows = false.
Proof.
  induction rows as [|r0 rows IH]; intros Hnd Hin Hr; [destruct Hin|].
  simpl in Hnd. inversion Hnd as [|x l Hnotin Hnd']; subst.
  unfold selected_in in *. cbn [existsb].
  destruct Hin as [->|Hin].
  - rewrite Hr, andb_false_r. simpl.
    apply (rows_of_absent rows (row_gene r) Hnotin).
  - destruct (String.eqb_spec (row_gene r0) (row_gene r)) as [E|E].
    + exfalso. apply Hnotin. rewrite E. apply in_map, Hin.
    + simpl. apply IH; assumption.
Qed.

Lemma rows_of_once (rows : list hvg_row) (r : hvg_row) :
  NoDup (map row_gene rows) -> In r rows ->
  rows_of rows (row_gene r) = [r].
Proof.
  induction rows as [|r0 l IH]; intros Hnd Hin; [destruct Hin|].
  simpl in Hnd. inversion Hnd as [|x l' Hnotin Hnd']; subst.
  unfold rows_of in *. cbn [filter]. destruct Hin as [->|Hin].
  - rewrite String.eqb_refl. f_equal.
    apply (rows_of_absent l (row_gene r) Hnotin).
  - destruct (String.eqb_spec (row_gene r0) (row_gene r)) as [E|E].
    + exfalso. apply Hnotin. rewrite E. apply in_map, Hin.
    + apply IH; assumption.
Qed.

(** X10. A gene that [filter_genes] drops from a batch (no cell of the
    batch expresses it) still has a line in that batch's frame: zero mean,
    zero dispersion, zero normalized dispersion, not selected, and this is
    the only line of the gene there, so the batch never counts towards its
    [highly_variable_nbatches]. *)
Theorem filtered_gene_gets_zero_line (adata : AnnData) (cutoff : cutoff_t)
    (n_bins : Z) (flavor : flavor_t) (batch : nat) (s s' : state)
    (rows : list hvg_row) (i : nat) :
  let filt := filter_genes (X (subset_obs adata batch)) in
  let g := nth i (var_names adata) String.EmptyString in
  NoDup (var_names adata) ->
  length filt = length (var_names adata) ->
  batch_frame' adata cutoff n_bins flavor batch s = Return rows s' ->
  (i < length (var_names adata))%nat ->
  nth i filt false = false ->
  In (missing_row g) rows /\
  rows_of rows g = [missing_row g] /\
  selected_in g rows = false.
Proof.
  intros filt g Hnd Hl Hrun Hi Hf.
  pose proof (batch_frame_genes _get_mean_var np_log np_log1p np_expm1
                pd_cut_n pd_cut_edges np_percentile get_mad filter_genes
                series_to_array adata cutoff n_bins flavor batch s rows s'
                Hl Hrun) as Hperm.
  assert (Hnd' : NoDup (map row_gene rows))
    by (apply (Permutation_NoDup (Permutation_sym Hperm) Hnd)).
  assert (Hin : In (missing_row g) rows).
  { unfold batch_frame in Hrun. minv Hrun.
    unfold load in Ha0. inversion Ha0; subst; clear Ha0.
    unfold ret in Hrun. inversion Hrun; subst; clear Hrun.
    fold filt.
    assert (Hneg : nth i (map negb filt) false = true).
    { rewrite (nth_map_lt negb filt i false false) by lia.
      rewrite Hf. reflexivity. }
    unfold filt, subset_obs in Hneg. cbn [X] in Hneg.
    rewrite (proj2 (Nat.ltb_lt _ _) (count_true_pos _ _ Hneg)).
    apply in_or_app. right. apply in_map.
    apply In_mask_select; assumption. }
  split; [exact Hin|]. split.
  - apply (rows_of_once rows (missing_row g) Hnd' Hin).
  - apply (not_selected_once rows (missing_row g) Hnd' Hin). reflexivity.
Qed.

Lemma rank_leb_trans : Transitive (fun a b => is_true (RankOrder.leb a b)).
Proof.
  intros [[na da] ia] [[nb db] ib] [[nc dc] ic].
  unfold is_true, RankOrder.leb.
  rewrite !orb_true_iff, !andb_true_iff, !orb_true_iff, !andb_true_iff,
    !negb_true_iff, !Z.ltb_lt, !Z.eqb_eq.
  intros [H1|[E1 F1]] [H2|[E2 F2]]; try (left; lia).
  right. split; [lia|].
  destruct F2 as [F2|[N2 L2]]; [left; exact F2|].
  destruct F1 as [F1|[N1 L1]]; [congruence|].
  right. split; [exact N1|]. eapply FFacts.leb_trans; eassumption.
Qed.

Lemma count_true_arange_lt (N : Z) (n : nat) :
  count_true (map (fun i => (Z.of_nat i <? N)%Z) (seq 0 n))
  = Nat.min (Z.to_nat N) n.
Proof.
  rewrite count_true_map.
  rewrite (filter_ext _ (fun k => (k <? Z.to_nat N)%nat)).
  - rewrite filter_seq_lt. apply length_seq.
  - intros k. destruct (Z.ltb_spec (Z.of_nat k) N), (Nat.ltb_spec k (Z.to_nat N));
      try reflexivity; lia.
Qed.

Lemma indexed_lines_sorted {B} (f : nat -> B) (a n : nat) :
  StronglySorted (fun x y : B * nat => snd x < snd y)
    (map (fun i => (f i, i)) (seq a n)).
Proof.
  revert a. induction n as [|n IH]; intros a; simpl; constructor.
  - apply IH.
  - apply Forall_forall. intros x Hx. apply in_map_iff in Hx.
    destruct Hx as (i & <- & Hi). apply in_seq in Hi. simpl. lia.
Qed.

(** X11. The last step of the batched computation in top-N mode always
    returns, and its table is the aggregated table with its lines
    rearranged as a stable descending sort leaves them: every column is
    the input column taken in one and the same order, a permutation of the
    line positions; a line comes before another one only if it has more
    batches, or as many and a higher normalized dispersion (NaN last), or
    ties on both and stood first in the aggregated table.  The flags mark
    the first N lines of that order and nothing else, min(N, gene count)
    genes (none if N <= 0). *)
Theorem batched_topn_table (genes : list String.string)
    (means dispersions : list float) (dn : loc) (nbatches : list Z)
    (inter : list bool) (N : Z) (s : state) :
  let d := nth dn (heap s) [] in
  let n := length genes in
  let line := fun i => (nth i nbatches 0%Z, nth i d nan, i) in
  exists order df s',
    batched_select series_to_array (TopN N) genes means dispersions dn
      nbatches inter s = Return df s' /\
    Permutation order (seq 0 n) /\
    bf_gene df = take_rows order genes String.EmptyString /\
    bf_means df = take_rows order means nan /\
    bf_dispersions df = take_rows order dispersions nan /\
    nth (bf_dispersions_norm df) (heap s') [] = take_rows order d nan /\
    bf_highly_variable_nbatches df = take_rows order nbatches 0%Z /\
    bf_highly_variable_intersection df = take_rows order inter false /\
    (forall l, (l < length (heap s))%nat ->
       nth l (heap s') [] = nth l (heap s) []) /\
    events s' = events s /\
    (forall i j, (i < j)%nat -> (j < n)%nat ->
       let a := nth i order 0%nat in
       let b := nth j order 0%nat in
       RankOrder.leb (line a) (line b) = true /\
       (RankOrder.leb (line b) (line a) = true -> (a < b)%nat) /\
       (nth b nbatches 0 <= nth a nbatches 0)%Z) /\
    count_true (bf_highly_variable df) = Nat.min (Z.to_nat N) n /\
    (forall j, (j < n)%nat ->
       (nth j (bf_highly_variable df) false = true <-> (Z.of_nat j < N)%Z)).
Proof.
  intros d n line.
  set (lines := map line (seq 0 n)).
  set (sorted := stable_sort RankOrder.leb lines).
  set (order := map snd sorted).
  assert (Hp : Permutation sorted lines) by apply stable_sort_Permutation.
  assert (Hperm : Permutation order (seq 0 n)).
  { unfold order. replace (seq 0 n) with (map snd lines).
    - apply Permutation_map, Hp.
    - unfold lines, line. rewrite map_map. simpl. apply map_id. }
  assert (Hlen : length sorted = n).
  { rewrite (Permutation_length Hp). unfold lines.
    rewrite length_map, length_seq. reflexivity. }
  assert (Hin : forall x, In x sorted -> x = line (snd x)).
  { intros x Hx. apply (Permutation_in _ Hp) in Hx.
    unfold lines in Hx. apply in_map_iff in Hx.
    destruct Hx as (k & <- & _). reflexivity. }
  assert (Hstable :
            StronglySorted
              (fun a b => RankOrder.leb a b = true /\
                          (RankOrder.leb b a = true -> (snd a < snd b)%nat))
              sorted).
  { apply stable_sort_stable.
    - apply RankOrder.leb_total.
    - intros a b c. apply rank_leb_trans.
    - apply (indexed_lines_sorted
               (fun i => (nth i nbatches 0%Z, nth i d nan)) 0 n). }
  exists order. do 2 eexists.
  split; [unfold batched_select, bind, load, alloc, ret; reflexivity|].
  cbn [bf_gene bf_means bf_dispersions bf_highly_variable
       bf_highly_variable_nbatches bf_highly_variable_intersection
       bf_dispersions_norm heap events].
  fold d. fold n. fold line. fold lines. fold sorted. fold order.
  split; [exact Hperm|]. do 3 (split; [reflexivity|]).
  split; [rewrite app_nth2 by lia; rewrite Nat.sub_diag; reflexivity|].
  do 2 (split; [reflexivity|]).
  split; [intros l Hl; apply app_nth1; exact Hl|].
  split; [reflexivity|]. split; [|split].
  - intros i j Hij Hj. cbv zeta. unfold RankOrder.t in *.
    set (dflt := (0%Z, nan, 0%nat)).
    assert (Ei : nth i order 0%nat = snd (nth i sorted dflt))
      by (unfold order; apply (nth_map_lt snd sorted i 0%nat dflt); lia).
    assert (Ej : nth j order 0%nat = snd (nth j sorted dflt))
      by (unfold order; apply (nth_map_lt snd sorted j 0%nat dflt); lia).
    pose proof (StronglySorted_nth _ _ dflt Hstable i j Hij ltac:(lia))
      as [Hle Hst].
    rewrite (Hin (nth i sorted dflt)) in Hle, Hst by (apply nth_In; lia).
    rewrite (Hin (nth j sorted dflt)) in Hle, Hst by (apply nth_In; lia).
    rewrite <- Ei, <- Ej in Hle, Hst. cbn [snd] in Hst.
    split; [exact Hle|]. split; [exact Hst|].
    clear -Hle. unfold line, RankOrder.leb in Hle.
    rewrite orb_true_iff, andb_true_iff, Z.ltb_lt, Z.eqb_eq in Hle. lia.
  - apply count_true_arange_lt.
  - intros j Hj.
    rewrite (nth_map_lt _ _ j false 0%nat) by (rewrite length_seq; exact Hj).
    rewrite seq_nth by exact Hj. simpl. apply Z.ltb_lt.
Qed.

(** X12. With at least one batch, distinct gene names and a gene filter
    that answers for every gene, the table a batched run returns has
    exactly one line per gene of the data: its gene column is a
    rearrangement of [adata.var_names], whatever the batches filtered
    out. *)
Theorem batched_one_line_per_gene (adata : AnnData) (n_bins : Z)
    (flavor : flavor_t) (cutoff : cutoff_t) (s s' : state)
    (df : batched_frame) :
  let K := n_categories adata in
  (1 <= K)%nat ->
  NoDup (var_names adata) ->
  (forall b, (b < K)%nat ->
     length (filter_genes (X (subset_obs adata b)))
     = length (var_names adata)) ->
  batched adata n_bins flavor cutoff s = Return df s' ->
  Permutation (bf_gene df) (var_names adata) /\
  length (bf_gene df) = length (var_names adata) /\
  NoDup (bf_gene df).
Proof.
  intros K HK Hnd Hfilt H.
  assert (Hp : Permutation (bf_gene df) (var_names adata))
    by (eapply batched_genes_Permutation; eassumption).
  split; [exact Hp|]. split; [apply Permutation_length, Hp|].
  apply (Permutation_NoDup (Permutation_sym Hp) Hnd).
Qed.

End BatchOutcome.

Lemma unknown_flavor_rejected_witness :
  _highly_variable_genes_batched Demo.mean_var Demo.same Demo.same Demo.same
    (fun means _ => Demo.one_bin means) (fun means _ => Demo.one_bin means)
    (fun _ q => q) statsmodels_mad Demo.detected ret Demo.adata 20
    OtherFlavor (TopN 1) empty_state
  = Raise ValueError empty_state.
Proof.
  apply (unknown_flavor_rejected Demo.mean_var Demo.same Demo.same Demo.same
           (fun means _ => Demo.one_bin means)
           (fun means _ => Demo.one_bin means) (fun _ q => q)
           statsmodels_mad Demo.detected ret Demo.adata (TopN 1) (Some 1%Z)
           default_cutoffs 20 true empty_state).
  simpl. lia.
Defined.

Lemma filtered_gene_gets_zero_line_witness :
  exists rows s',
    batch_frame Demo.mean_var Demo.same Demo.same Demo.same
      (fun means _ => Demo.one_bin means) (fun means _ => Demo.one_bin means)
      (fun _ q => q) statsmodels_mad Demo.detected ret Demo.adata (TopN 1) 20
      CellRanger 0 empty_state = Return rows s' /\
    let g := nth 1 (var_names Demo.adata) String.EmptyString in
    In (missing_row g) rows /\
    rows_of rows g = [missing_row g] /\
    selected_in g rows = false.
Proof.
  assert (E : exists rows s',
             batch_frame Demo.mean_var Demo.same Demo.same Demo.same
               (fun means _ => Demo.one_bin means)
               (fun means _ => Demo.one_bin means)
               (fun _ q => q) statsmodels_mad Demo.detected ret Demo.adata
               (TopN 1) 20 CellRanger 0 empty_state = Return rows s')
    by (vm_compute; eauto).
  destruct E as (rows & s' & E). exists rows, s'. split; [exact E|].
  apply (filtered_gene_gets_zero_line Demo.mean_var Demo.same Demo.same
           Demo.same (fun means _ => Demo.one_bin means)
           (fun means _ => Demo.one_bin means) (fun _ q => q)
           statsmodels_mad Demo.detected ret Demo.adata (TopN 1) 20
           CellRanger 0 empty_state s' rows 1).
  - repeat constructor; simpl; intuition discriminate.
  - reflexivity.
  - exact E.
  - simpl. lia.
  - vm_compute. reflexivity.
Defined.

Lemma batched_one_line_per_gene_witness :
  exists df s',
    Demo.run_batched (TopN 1) empty_state = Return df s' /\
    Permutation (bf_gene df) (var_names Demo.adata) /\
    length (bf_gene df) = length (var_names Demo.adata) /\
    NoDup (bf_gene df).
Proof.
  assert (E : exists df s', Demo.run_batched (TopN 1) empty_state = Return df s')
    by (vm_compute; eauto).
  destruct E as (df & s' & E). exists df, s'. split; [exact E|].
  apply (batched_one_line_per_gene Demo.mean_var Demo.same
           Demo.same Demo.same (fun means _ => Demo.one_bin means)
           (fun means _ => Demo.one_bin means) (fun _ q => q)
           statsmodels_mad Demo.detected ret Demo.adata 20 CellRanger
           (TopN 1) empty_state s' df).
  - simpl. lia.
  - repeat constructor; simpl; intuition discriminate.
  - intros b Hb. simpl in Hb.
    destruct b as [|[|b]]; [reflexivity|reflexivity|lia].
  - exact E.
Defined.

(** ** The Seurat v3 flavor: rank columns and final selection *)


Section SeuratV3Selection.

(** The lines the final sort works on, in the order of [adata.var_names]. *)
Definition rank_lines (var_names : list String.string) (nbatches : list Z)
    (ranks : list rank_value) : list rank_line :=
  map (fun i => (nth i ranks RankNaN, nth i nbatches 0%Z,
                 nth i var_names String.EmptyString))
      (seq 0 (length var_names)).

(** How many lines [sorted_index[: n_top_genes]] keeps out of [n]. *)
Definition prefix_length (n_top_genes : Z) (n : nat) : nat :=
  if (0 <=? n_top_genes)%Z then Nat.min (Z.to_nat n_top_genes) n
  else Z.to_nat (Z.of_nat n + n_top_genes).

Definition has_rank (x : rank_line) : bool :=
  match fst (fst x) with
  | RankNaN => false
  | _ => true
  end.

Lemma rank_line_leb_total (a b : rank_line) :
  rank_line_leb a b = true \/ rank_line_leb b a = true.
Proof.
  destruct a as [[ra na] ga], b as [[rb nb] gb]. unfold rank_line_leb.
  destruct (rank_key ra) as [x|], (rank_key rb) as [y|]; auto.
  - destruct (Nat.ltb_spec x y); [left; reflexivity|].
    destruct (Nat.ltb_spec y x); [right; reflexivity|].
    replace (x =? y)%nat with true by (symmetry; apply Nat.eqb_eq; lia).
    replace (y =? x)%nat with true by (symmetry; apply Nat.eqb_eq; lia).
    simpl. destruct (Z.leb_spec nb na); [left; reflexivity|].
    right. apply Z.leb_le. lia.
  - destruct (Z.leb_spec nb na); [left; reflexivity|].
    right. apply Z.leb_le. lia.
Qed.

Lemma rank_line_leb_trans (a b c : rank_line) :
  rank_line_leb a b = true -> rank_line_leb b c = true ->
  rank_line_leb a c = true.
Proof.
  destruct a as [[ra na] ga], b as [[rb nb] gb], c as [[rc nc] gc].
  unfold rank_line_leb.
  destruct (rank_key ra) as [x|], (rank_key rb) as [y|],
    (rank_key rc) as [z|]; try discriminate; try reflexivity;
    rewrite ?orb_true_iff, ?andb_true_iff, ?Nat.ltb_lt, ?Nat.eqb_eq,
      ?Z.leb_le; intros H1 H2; lia.
Qed.

Lemma rank_line_leb_has_rank (a b : rank_line) :
  rank_line_leb a b = true -> has_rank a = false -> has_rank b = false.
Proof.
  destruct a as [[ra na] ga], b as [[rb nb] gb].
  unfold rank_line_leb, has_rank. cbn [fst].
  destruct ra, rb; simpl; congruence.
Qed.

Lemma rank_lines_labels names nbatches ranks :
  map snd (rank_lines names nbatches ranks) = names.
Proof.
  unfold rank_lines. rewrite map_map. cbn [snd].
  apply map_nth_seq.
Qed.

Lemma rank_lines_length names nbatches ranks :
  length (rank_lines names nbatches ranks) = length names.
Proof. unfold rank_lines. rewrite length_map, length_seq. reflexivity. Qed.

Lemma rank_lines_nth names nbatches ranks i :
  (i < length names)%nat ->
  nth i (rank_lines names nbatches ranks)
    (RankNaN, 0%Z, String.EmptyString)
  = (nth i ranks RankNaN, nth i nbatches 0%Z, nth i names String.EmptyString).
Proof.
  intros Hi. unfold rank_lines.
  rewrite (nth_map_lt _ _ i _ 0%nat) by (rewrite length_seq; exact Hi).
  rewrite seq_nth by exact Hi. reflexivity.
Qed.

Lemma rank_lines_label_inj names nbatches ranks (x : rank_line) i :
  NoDup names -> (i < length names)%nat ->
  In x (rank_lines names nbatches ranks) ->
  snd x = nth i names String.EmptyString ->
  x = (nth i ranks RankNaN, nth i nbatches 0%Z,
       nth i names String.EmptyString).
Proof.
  intros Hnd Hi Hin Hx. unfold rank_lines in Hin.
  apply in_map_iff in Hin. destruct Hin as (k & <- & Hk).
  apply in_seq in Hk. cbn [snd] in Hx.
  assert (k = i)
    by (apply (proj1 (NoDup_nth names String.EmptyString) Hnd);
        [lia|lia|exact Hx]).
  subst k. reflexivity.
Qed.

Lemma firstn_min {A} (k : nat) (l : list A) :
  firstn k l = firstn (Nat.min k (length l)) l.
Proof.
  destruct (Nat.le_ge_cases k (length l)) as [H|H].
  - rewrite Nat.min_l by exact H. reflexivity.
  - rewrite Nat.min_r by exact H. rewrite firstn_all.
    apply firstn_all2. exact H.
Qed.

(** The selection flags the genes whose line is among the first lines of
    the sorted table. *)
Lemma seurat_v3_select_prefix names nbatches ranks N :
  let sorted := stable_sort rank_line_leb (rank_lines names nbatches ranks) in
  let P := prefix_length N (length names) in
  NoDup names ->
  seurat_v3_select names nbatches ranks N
  = map (fun g => existsb (String.eqb g) (map snd (firstn P sorted))) names /\
  forall i, (i < length names)%nat ->
    (nth i (seurat_v3_select names nbatches ranks N) false = true
     <-> In (nth i ranks RankNaN, nth i nbatches 0%Z,
             nth i names String.EmptyString) (firstn P sorted)).
Proof.
  intros sorted P Hnd.
  assert (Hperm : Permutation sorted (rank_lines names nbatches ranks))
    by apply stable_sort_Permutation.
  assert (Hlen : length sorted = length names)
    by (rewrite (Permutation_length Hperm); apply rank_lines_length).
  assert (E : seurat_v3_select names nbatches ranks N
              = map (fun g => existsb (String.eqb g)
                                (map snd (firstn P sorted))) names).
  { assert (Htop : py_slice_to (map snd sorted) N
                   = map snd (firstn P sorted)).
    { unfold py_slice_to, P, prefix_length, size.
      rewrite length_map.
      rewrite (Hlen : @length (rank_value * Z * String.string) sorted = _).
      destruct (0 <=? N)%Z; rewrite firstn_map; [|reflexivity].
      f_equal. rewrite <- Hlen. apply firstn_min. }
    exact (f_equal
             (fun top => map (fun g => existsb (String.eqb g) top) names)
             Htop). }
  split; [exact E|]. intros i Hi. rewrite E.
  rewrite (nth_map_lt _ names i false String.EmptyString) by exact Hi.
  rewrite existsb_exists. split.
  - intros (g & Hg & Heq). apply String.eqb_eq in Heq. subst g.
    apply in_map_iff in Hg. destruct Hg as (x & Hx & Hin).
    assert (Hx' : In x (rank_lines names nbatches ranks))
      by (apply (Permutation_in _ Hperm), (firstn_In _ P), Hin).
    rewrite <- (rank_lines_label_inj names nbatches ranks x i Hnd Hi Hx' Hx).
    exact Hin.
  - intros Hin. exists (nth i names String.EmptyString).
    split; [|apply String.eqb_refl].
    apply in_map_iff. eexists. split; [|exact Hin]. reflexivity.
Qed.

Lemma NoDup_firstn {A} (k : nat) (l : list A) : NoDup l -> NoDup (firstn k l).
Proof.
  intros H. rewrite <- (firstn_skipn k l) in H.
  apply NoDup_app_remove_r in H. exact H.
Qed.

Lemma prefix_length_le (N : Z) (n : nat) : (prefix_length N n <= n)%nat.
Proof. unfold prefix_length. destruct (0 <=? N)%Z eqn:E; lia. Qed.

(** X13. The final selection of the Seurat v3 flavor on data with distinct
    gene names: it flags min(N, gene count) genes for N >= 0 (for a
    negative N, all but the last -N lines of the sorted table), and no
    unflagged gene comes before a flagged one in the order of the sort:
    a flagged gene has a median rank that is lower, or an equal median
    rank and at least as many batches, or the unflagged gene has no rank
    at all. *)
Theorem seurat_v3_selection_order (names : list String.string)
    (nbatches : list Z) (ranks : list rank_value) (N : Z) :
  let hv := seurat_v3_select names nbatches ranks N in
  let n := length names in
  NoDup names ->
  length hv = n /\
  count_true hv = prefix_length N n /\
  ((0 <= N)%Z -> count_true hv = Nat.min (Z.to_nat N) n) /\
  forall i j, (i < n)%nat -> (j < n)%nat ->
    nth i hv false = true -> nth j hv false = false ->
    rank_line_leb
      (nth i ranks RankNaN, nth i nbatches 0%Z,
       nth i names String.EmptyString)
      (nth j ranks RankNaN, nth j nbatches 0%Z,
       nth j names String.EmptyString) = true.
Proof.
  intros hv n Hnd.
  destruct (seurat_v3_select_prefix names nbatches ranks N Hnd) as [E Hflag].
  set (sorted := stable_sort rank_line_leb (rank_lines names nbatches ranks)) in *.
  set (P := prefix_length N (length names)) in *.
  assert (Hperm : Permutation sorted (rank_lines names nbatches ranks))
    by apply stable_sort_Permutation.
  assert (Hlen : length sorted = n)
    by (rewrite (Permutation_length Hperm); apply rank_lines_length).
  assert (Hcount : count_true hv = prefix_length N n).
  { unfold hv. rewrite E, count_true_map.
    set (top := map snd (firstn P sorted)).
    assert (Hlabels : Permutation (map snd sorted) names).
    { rewrite <- (rank_lines_labels names nbatches ranks).
      apply Permutation_map, Hperm. }
    assert (Htop : NoDup top).
    { unfold top. rewrite <- firstn_map. apply NoDup_firstn.
      apply (Permutation_NoDup (Permutation_sym Hlabels) Hnd). }
    assert (Hincl : forall g, In g top -> In g names).
    { intros g Hg. apply (Permutation_in _ Hlabels).
      unfold top in Hg. rewrite <- firstn_map in Hg.
      apply (firstn_In _ P), Hg. }
    assert (Hsame : forall g,
              In g (filter (fun g => existsb (String.eqb g) top) names)
              <-> In g top).
    { intros g. rewrite filter_In, existsb_exists. split.
      - intros (_ & g' & Hg' & Heq). apply String.eqb_eq in Heq.
        subst g'. exact Hg'.
      - intros Hg. split; [apply Hincl, Hg|].
        exists g. split; [exact Hg|apply String.eqb_refl]. }
    rewrite (Permutation_length
               (NoDup_Permutation (NoDup_filter _ Hnd) Htop Hsame)).
    unfold top. rewrite length_map, length_firstn.
    pose proof (prefix_length_le N n). unfold P. fold n.
    rewrite <- Hlen in H |- *. lia. }
  split; [unfold hv; rewrite E; apply length_map|].
  split; [exact Hcount|]. split.
  - intros HN. rewrite Hcount. unfold prefix_length.
    replace (0 <=? N)%Z with true by (symmetry; apply Z.leb_le; exact HN).
    reflexivity.
  - intros i j Hi Hj Fi Fj.
    apply (Hflag i Hi) in Fi.
    assert (Hj' : In (nth j ranks RankNaN, nth j nbatches 0%Z,
                      nth j names String.EmptyString) (skipn P sorted)).
    { assert (Hin : In (nth j ranks RankNaN, nth j nbatches 0%Z,
                        nth j names String.EmptyString) sorted).
      { apply (Permutation_in _ (Permutation_sym Hperm)).
        rewrite <- (rank_lines_nth names nbatches ranks j Hj).
        apply nth_In. rewrite rank_lines_length. exact Hj. }
      rewrite <- (firstn_skipn P sorted) in Hin.
      apply in_app_or in Hin. destruct Hin as [Hin|Hin]; [|exact Hin].
      apply (Hflag j Hj) in Hin. unfold hv in Fj. congruence. }
    apply (StronglySorted_firstn_skipn
             (fun a b => rank_line_leb a b = true) sorted P _ _
             (stable_sort_sorted rank_line_leb rank_line_leb_total
                rank_line_leb_trans _) Fi Hj').
Qed.

End SeuratV3Selection.

Section SeuratV3RankColumns.
Local Open Scope float_scope.

Variable argsort_float : list float -> list nat.
Variable argsort_int : list nat -> list nat.
Hypothesis argsort_float_contract : argsort_float_ok argsort_float.
Hypothesis argsort_int_contract : argsort_int_ok argsort_int.

Local Abbreviation rank_of := (rank_row argsort_float argsort_int).
Local Abbreviation ranks_of := (seurat_v3_ranks argsort_float argsort_int).

(** Gene [j] is among the top [N] of the batch with normalized variances
    [v]. *)
Definition in_top (N : Z) (j : nat) (v : list float) : bool :=
  (Z.of_nat (nth j (rank_of v) 0%nat) <? N)%Z.

Lemma sum_b2z_count {A} (f : A -> bool) (l : list A) :
  fold_left Z.add (map (fun x => Z.b2z (f x)) l) 0%Z
  = Z.of_nat (length (filter f l)).
Proof.
  induction l as [|x l IH]; [reflexivity|].
  cbn [map fold_left filter]. rewrite fold_left_Zadd_acc, IH.
  destruct (f x); cbn [Z.b2z length]; lia.
Qed.

Lemma ma_median_nan (col : list (option nat)) :
  ma_median col = RankNaN <-> (forall o, In o col -> o = None).
Proof.
  unfold ma_median.
  set (vals := flat_map (fun o : option nat =>
                           match o with Some r => [r] | None => [] end) col).
  assert (Hlen : length (NatSort.sort vals) = length vals)
    by (symmetry; apply Permutation_length, NatSort.Permuted_sort).
  rewrite Hlen.
  assert (Hvals : vals = [] <-> (forall o, In o col -> o = None)).
  { unfold vals. clear. induction col as [|o col IH]; simpl.
    - split; [intros _ o []|reflexivity].
    - destruct o as [r|]; simpl.
      + split; [discriminate|]. intros H.
        specialize (H (Some r) (or_introl eq_refl)). discriminate.
      + rewrite IH. split.
        * intros H o [<-|Ho]; [reflexivity|apply H, Ho].
        * intros H o Ho. apply H. right. exact Ho. }
  rewrite <- Hvals.
  destruct vals as [|x vals']; [split; reflexivity|].
  cbn [length]. split; [|discriminate].
  destruct (Nat.even (S (length vals'))); [|discriminate].
  destruct (Nat.even _); discriminate.
Qed.

Lemma rank_of_length (v : list float) : length (rank_of v) = length v.
Proof.
  destruct (rank_row_facts argsort_float argsort_int argsort_float_contract
              argsort_int_contract v) as [Hp _].
  cbv zeta in Hp. rewrite (Permutation_length Hp), length_seq. reflexivity.
Qed.

Lemma rank_columns_nth (n : nat) (vs : list (list float)) (N : Z) (j : nat) :
  Forall (fun v => length v = n) vs -> (j < n)%nat ->
  nth j (fst (ranks_of n vs N)) 0%Z
  = Z.of_nat (length (filter (in_top N j) vs)) /\
  (nth j (snd (ranks_of n vs N)) RankNaN = RankNaN
   <-> filter (in_top N j) vs = []).
Proof.
  intros Hall Hj. unfold seurat_v3_ranks. cbn [fst snd]. split.
  - rewrite nth_map_seq by exact Hj. rewrite map_map.
    apply (sum_b2z_count (in_top N j)).
  - rewrite nth_map_seq by exact Hj. rewrite ma_median_nan.
    rewrite !map_map. rewrite Forall_forall in Hall. split.
    + intros H. apply filter_none. intros v Hv.
      specialize (H _ (in_map _ _ _ Hv)). cbv beta in H.
      rewrite (nth_map_lt _ (rank_of v) j None 0%nat) in H
        by (rewrite rank_of_length, (Hall v Hv); exact Hj).
      unfold in_top. rewrite Z.geb_leb in H.
      destruct (Z.leb_spec N (Z.of_nat (nth j (rank_of v) 0%nat)));
        [apply Z.ltb_ge; assumption|discriminate].
    + intros H o Ho. apply in_map_iff in Ho. destruct Ho as (v & <- & Hv).
      rewrite (nth_map_lt _ (rank_of v) j None 0%nat)
        by (rewrite rank_of_length, (Hall v Hv); exact Hj).
      assert (Hf : in_top N j v = false).
      { destruct (in_top N j v) eqn:E; [|reflexivity].
        assert (Hin : In v (filter (in_top N j) vs))
          by (apply filter_In; auto).
        rewrite H in Hin. destruct Hin. }
      unfold in_top in Hf. rewrite Z.geb_leb.
      apply Z.ltb_ge in Hf.
      replace (N <=? Z.of_nat (nth j (rank_of v) 0%nat))%Z with true
        by (symmetry; apply Z.leb_le; exact Hf).
      reflexivity.
Qed.

(** X14. The rank columns of the Seurat v3 flavor over K batches, each
    with one normalized variance per gene: [highly_variable_nbatches] of a
    gene is the number of batches in which it ranks among the top N, a
    number between 0 and K, and [highly_variable_rank] is NaN exactly for
    the genes for which that number is 0. *)
Theorem seurat_v3_rank_columns_agree (n : nat) (vs : list (list float))
    (N : Z) :
  let nbatches := fst (ranks_of n vs N) in
  let ranks := snd (ranks_of n vs N) in
  Forall (fun v => length v = n) vs ->
  length nbatches = n /\ length ranks = n /\
  forall j, (j < n)%nat ->
    nth j nbatches 0%Z = Z.of_nat (length (filter (in_top N j) vs)) /\
    (0 <= nth j nbatches 0 <= Z.of_nat (length vs))%Z /\
    (nth j ranks RankNaN = RankNaN <-> nth j nbatches 0%Z = 0%Z).
Proof.
  intros nbatches ranks Hall.
  split; [unfold nbatches, seurat_v3_ranks; cbn [fst];
          rewrite length_map, length_seq; reflexivity|].
  split; [unfold ranks, seurat_v3_ranks; cbn [snd];
          rewrite length_map, length_seq; reflexivity|].
  intros j Hj.
  destruct (rank_columns_nth n vs N j Hall Hj) as [Hnb Hr].
  fold nbatches in Hnb. fold ranks in Hr.
  pose proof (filter_length_le (in_top N j) vs) as Hle.
  split; [exact Hnb|]. split; [lia|].
  rewrite Hr, Hnb. split.
  - intros ->. reflexivity.
  - intros H. destruct (filter (in_top N j) vs); [reflexivity|].
    simpl in H. lia.
Qed.

End SeuratV3RankColumns.

Section SeuratV3Flags.
Local Open Scope float_scope.

Variable _get_mean_var : counts_t -> list float * list float.
Variable loess_fitted_values : list float -> list float -> float -> list float.
Variable np_log10 : float -> float.
Variable pow10 : float -> float.
Variable np_sum : list float -> float.
Variable argsort_float : list float -> list nat.
Variable argsort_int : list nat -> list nat.
Variable csr_select_rows : csr_matrix -> list bool -> csr_matrix.
Hypothesis argsort_float_contract : argsort_float_ok argsort_float.
Hypothesis argsort_int_contract : argsort_int_ok argsort_int.

Local Abbreviation rank_of := (rank_row argsort_float argsort_int).
Local Abbreviation ranks_of := (seurat_v3_ranks argsort_float argsort_int).
Local Abbreviation top := (in_top argsort_float argsort_int).

Definition is_ranked (r : rank_value) : bool :=
  match r with
  | RankNaN => false
  | _ => true
  end.

Lemma is_ranked_spec (r : rank_value) : is_ranked r = true <-> r <> RankNaN.
Proof. destruct r; simpl; split; congruence. Qed.

Lemma filter_map_length {A B} (p : B -> bool) (f : A -> B) (l : list A) :
  length (filter p (map f l)) = length (filter (fun x => p (f x)) l).
Proof.
  induction l as [|x l IH]; [reflexivity|].
  simpl. destruct (p (f x)); simpl; rewrite IH; reflexivity.
Qed.

(** In one batch, exactly min(N, n) genes rank among the top N. *)
Lemma in_top_count (n : nat) (v : list float) (N : Z) :
  length v = n -> (0 <= N)%Z ->
  length (filter (fun j => top N j v) (seq 0 n)) = Nat.min (Z.to_nat N) n.
Proof.
  intros Hl HN.
  destruct (rank_row_facts argsort_float argsort_int argsort_float_contract
              argsort_int_contract v) as [Hp _].
  cbv zeta in Hp. rewrite Hl in Hp.
  assert (Hlr : length (rank_of v) = n)
    by (rewrite (Permutation_length Hp), length_seq; reflexivity).
  unfold in_top.
  rewrite <- (filter_map_length (fun k => (Z.of_nat k <? N)%Z)
                (fun j => nth j (rank_of v) 0%nat) (seq 0 n)).
  rewrite <- Hlr at 1. rewrite map_nth_seq.
  rewrite (filter_length_Permutation _ _ _ Hp).
  rewrite (filter_ext _ (fun k => (k <? Z.to_nat N)%nat)).
  - rewrite filter_seq_lt. apply length_seq.
  - intros k. destruct (Z.ltb_spec (Z.of_nat k) N), (Nat.ltb_spec k (Z.to_nat N));
      try reflexivity; lia.
Qed.

Lemma flags_have_rank (names : list String.string) (vs : list (list float))
    (N : Z) :
  let n := length names in
  let nbatches := fst (ranks_of n vs N) in
  let ranks := snd (ranks_of n vs N) in
  let hv := seurat_v3_select names nbatches ranks N in
  NoDup names -> vs <> [] -> Forall (fun v => length v = n) vs ->
  (0 <= N)%Z ->
  (forall j, (j < n)%nat -> nth j hv false = true ->
     nth j ranks RankNaN <> RankNaN) /\
  (length vs = 1%nat ->
   forall j, (j < n)%nat -> nth j ranks RankNaN <> RankNaN ->
     nth j hv false = true).
Proof.
  intros n nbatches ranks hv Hnd Hvs Hall HN.
  destruct (seurat_v3_select_prefix names nbatches ranks N Hnd) as [_ Hflag].
  fold hv n in Hflag.
  set (lines := rank_lines names nbatches ranks) in *.
  set (sorted := stable_sort rank_line_leb lines) in *.
  assert (HP : prefix_length N n = Nat.min (Z.to_nat N) n).
  { unfold prefix_length.
    replace (0 <=? N)%Z with true by (symmetry; apply Z.leb_le; exact HN).
    reflexivity. }
  rewrite HP in Hflag. set (m := Nat.min (Z.to_nat N) n) in *.
  assert (Hperm : Permutation sorted lines) by apply stable_sort_Permutation.
  assert (Hsorted : StronglySorted (fun a b => rank_line_leb a b = true) sorted)
    by (apply stable_sort_sorted;
        [apply rank_line_leb_total|apply rank_line_leb_trans]).
  pose proof (sorted_prefix _ has_rank sorted rank_line_leb_has_rank Hsorted)
    as Hsplit.
  assert (HA : length (filter has_rank sorted)
               = length (filter (fun j => is_ranked (nth j ranks RankNaN))
                                (seq 0 n))).
  { rewrite (filter_length_Permutation _ _ _ Hperm).
    unfold lines, rank_lines. rewrite filter_map_length. reflexivity. }
  assert (Hranked : forall j v, (j < n)%nat -> In v vs -> top N j v = true ->
                      is_ranked (nth j ranks RankNaN) = true).
  { intros j v Hj Hv Ht. apply is_ranked_spec. intros Hnan.
    apply (rank_columns_nth argsort_float argsort_int argsort_float_contract
             argsort_int_contract n vs N j Hall Hj) in Hnan.
    assert (Hin : In v (filter (top N j) vs)) by (apply filter_In; auto).
    rewrite Hnan in Hin. destruct Hin. }
  destruct vs as [|v0 vs']; [congruence|].
  assert (Hv0 : length v0 = n) by (inversion Hall; assumption).
  assert (Hm : (m <= length (filter has_rank sorted))%nat).
  { rewrite HA. unfold m. rewrite <- (in_top_count n v0 N Hv0 HN).
    apply filter_length_impl. intros j Hj Ht. apply in_seq in Hj.
    apply (Hranked j v0); [lia|left; reflexivity|exact Ht]. }
  assert (Hline : forall j, (j < n)%nat ->
            In (nth j ranks RankNaN, nth j nbatches 0%Z,
                nth j names String.EmptyString) sorted).
  { intros j Hj. apply (Permutation_in _ (Permutation_sym Hperm)).
    unfold lines. rewrite <- (rank_lines_nth names nbatches ranks j Hj).
    apply nth_In. rewrite rank_lines_length. exact Hj. }
  split.
  - intros j Hj Fj. apply (Hflag j Hj) in Fj.
    rewrite Hsplit, firstn_app in Fj.
    replace (m - length (filter has_rank sorted))%nat with 0%nat in Fj by lia.
    rewrite firstn_O, app_nil_r in Fj.
    apply (firstn_In _ m) in Fj. apply filter_In in Fj.
    destruct Fj as [_ Fj]. unfold has_rank in Fj. cbn [fst] in Fj.
    apply is_ranked_spec. exact Fj.
  - intros Hone j Hj Hr. destruct vs' as [|v1 vs']; [|simpl in Hone; lia].
    apply (Hflag j Hj).
    assert (Hm' : length (filter has_rank sorted) = m).
    { rewrite HA. unfold m. rewrite <- (in_top_count n v0 N Hv0 HN).
      f_equal. apply filter_ext_in. intros i Hi. apply in_seq in Hi.
      destruct (top N i v0) eqn:Et.
      - apply (Hranked i v0); [lia|left; reflexivity|exact Et].
      - destruct (is_ranked (nth i ranks RankNaN)) eqn:Er; [|reflexivity].
        exfalso. apply is_ranked_spec in Er. apply Er.
        apply (rank_columns_nth argsort_float argsort_int
                 argsort_float_contract argsort_int_contract n [v0] N i Hall);
          [lia|]. simpl. rewrite Et. reflexivity. }
    rewrite Hsplit, firstn_app, <- Hm', firstn_all, Nat.sub_diag, firstn_O,
      app_nil_r.
    apply filter_In. split; [apply Hline, Hj|].
    unfold has_rank. cbn [fst]. apply is_ranked_spec. exact Hr.
Qed.

End SeuratV3Flags.

Section SeuratV3Run.
Local Open Scope float_scope.

Variable _get_mean_var : counts_t -> list float * list float.
Variable loess_fitted_values : list float -> list float -> float -> list float.
Variable np_log10 : float -> float.
Variable pow10 : float -> float.
Variable np_sum : list float -> float.
Variable argsort_float : list float -> list nat.
Variable argsort_int : list nat -> list nat.
Variable csr_select_rows : csr_matrix -> list bool -> csr_matrix.
Hypothesis argsort_float_contract : argsort_float_ok argsort_float.
Hypothesis argsort_int_contract : argsort_int_ok argsort_int.

Local Abbreviation batch_run :=
  (seurat_v3_batch _get_mean_var loess_fitted_values np_log10 pow10 np_sum).
Local Abbreviation columns_run :=
  (seurat_v3_columns _get_mean_var loess_fitted_values np_log10 pow10 np_sum
     argsort_float argsort_int csr_select_rows).

Lemma mask_assign_length (a : list float) (mask : list bool)
    (values : list float) (s s' : state) (r : list float) :
  mask_assign a mask values s = Return r s' -> length r = length a.
Proof.
  unfold mask_assign.
  destruct (Nat.eqb_spec (length mask) (length a)) as [El|El];
    cbn [negb]; [|discriminate].
  destruct (Nat.eqb (length values) (count_true mask)).
  - intros H. inversion H. apply scatter_length.
  - destruct values as [|v [|w values]]; try discriminate.
    intros H. inversion H. rewrite length_map, length_combine. lia.
Qed.

(** A batch that is processed without error yields one normalized
    variance per gene. *)
Lemma seurat_v3_batch_length (n_genes : nat) (d : counts_t) (span : float)
    (s s' : state) (v : list float) :
  batch_run n_genes d span s = Return v s' -> length v = n_genes.
Proof.
  unfold seurat_v3_batch.
  destruct (_get_mean_var d) as [mean var].
  intros H. apply bind_inv in H. destruct H as (ev & s1 & Hev & H).
  cbv beta in H.
  apply bind_inv in H. destruct H as (clip & s2 & Hclip & H). cbv beta in H.
  apply bind_inv in H. destruct H as (sums & s3 & Hsums & H). cbv beta in H.
  unfold estimate_variance in Hev. apply mask_assign_length in Hev.
  rewrite repeat_length in Hev.
  destruct (_ && _); [|discriminate].
  inversion H. rewrite length_map, length_seq, length_map. exact Hev.
Qed.

Lemma np_unique_nonempty (batch_info : list nat) :
  batch_info <> [] -> np_unique batch_info <> [].
Proof.
  destruct batch_info as [|b rest]; [congruence|]. intros _ H.
  assert (Hin : In b (np_unique (b :: rest)))
    by (apply In_observed_bins; left; reflexivity).
  rewrite H in Hin. destruct Hin.
Qed.

(** X15. When the Seurat v3 computation goes through on data with
    distinct gene names, at least one cell and N >= 0, and [np.argsort]
    keeps its contract, it flags exactly min(N, gene count) genes, and
    every flagged gene has a median rank (it is among the top N of at
    least one batch).  With a single batch the flagged genes are exactly
    the genes with a rank, that is the N genes of highest normalized
    variance. *)
Theorem seurat_v3_flags_ranked_genes (var_names : list String.string)
    (data : counts_t) (batch_info : list nat) (N : Z) (span : float)
    (s s' : state) (nbatches : list Z) (ranks : list rank_value)
    (hv : list bool) :
  let n := length var_names in
  NoDup var_names -> batch_info <> [] -> (0 <= N)%Z ->
  columns_run var_names data batch_info N span s
  = Return (nbatches, ranks, hv) s' ->
  length hv = n /\
  count_true hv = Nat.min (Z.to_nat N) n /\
  (forall j, (j < n)%nat -> nth j hv false = true ->
     nth j ranks RankNaN <> RankNaN /\ (1 <= nth j nbatches 0)%Z) /\
  (length (np_unique batch_info) = 1%nat ->
   forall j, (j < n)%nat ->
     (nth j hv false = true <-> nth j ranks RankNaN <> RankNaN)).
Proof.
  intros n Hnd Hb HN H. unfold seurat_v3_columns in H.
  apply bind_inv in H. destruct H as (cols & s1 & Hcols & H).
  cbv beta in H. unfold seurat_v3_rank_columns in Hcols.
  apply bind_inv in Hcols. destruct Hcols as (vs & s2 & Hloop & Hcols).
  cbv beta in Hcols. unfold ret in Hcols. inversion Hcols; subst cols s1.
  clear Hcols.
  destruct (for_each_inv _ _ _ _ _ Hloop) as [Hlen Hrows].
  assert (Hall : Forall (fun v => length v = n) vs).
  { apply Forall_forall. intros v Hv. apply (In_nth _ _ []) in Hv.
    destruct Hv as (i & Hi & <-).
    destruct (Hrows i [] 0%nat ltac:(lia)) as (sa & sb & Hrun).
    apply seurat_v3_batch_length in Hrun. exact Hrun. }
  assert (Hvs : vs <> []).
  { intros ->. simpl in Hlen.
    apply (np_unique_nonempty batch_info Hb).
    destruct (np_unique batch_info); [reflexivity|discriminate]. }
  fold n in H.
  destruct (seurat_v3_ranks argsort_float argsort_int n vs N)
    as [nb0 ranks0] eqn:Eranks.
  unfold ret in H. inversion H; subst nbatches ranks hv s'. clear H.
  assert (Enb : nb0 = fst (seurat_v3_ranks argsort_float argsort_int n vs N))
    by (rewrite Eranks; reflexivity).
  assert (Er : ranks0 = snd (seurat_v3_ranks argsort_float argsort_int n vs N))
    by (rewrite Eranks; reflexivity).
  destruct (seurat_v3_select_prefix var_names nb0 ranks0 N Hnd) as [Esel _].
  destruct (flags_have_rank argsort_float argsort_int argsort_float_contract
              argsort_int_contract var_names vs N Hnd Hvs Hall HN)
    as [Hfwd Hbwd].
  fold n in Hfwd, Hbwd. rewrite <- Enb, <- Er in Hfwd, Hbwd.
  assert (Hcount : count_true (seurat_v3_select var_names nb0 ranks0 N)
                   = Nat.min (Z.to_nat N) n).
  { rewrite Esel, count_true_map.
    set (sorted := stable_sort rank_line_leb (rank_lines var_names nb0 ranks0)).
    set (P := prefix_length N (length var_names)).
    set (tops := map snd (firstn P sorted)).
    assert (Hperm : Permutation sorted (rank_lines var_names nb0 ranks0))
      by apply stable_sort_Permutation.
    assert (Hlabels : Permutation (map snd sorted) var_names).
    { rewrite <- (rank_lines_labels var_names nb0 ranks0).
      apply Permutation_map, Hperm. }
    assert (Htop : NoDup tops).
    { unfold tops. rewrite <- firstn_map. apply NoDup_firstn.
      apply (Permutation_NoDup (Permutation_sym Hlabels) Hnd). }
    assert (Hsame : forall g,
              In g (filter (fun g => existsb (String.eqb g) tops) var_names)
              <-> In g tops).
    { intros g. rewrite filter_In, existsb_exists. split.
      - intros (_ & g' & Hg' & Heq). apply String.eqb_eq in Heq.
        subst g'. exact Hg'.
      - intros Hg. split.
        + apply (Permutation_in _ Hlabels).
          unfold tops in Hg. rewrite <- firstn_map in Hg.
          apply (firstn_In _ P), Hg.
        + exists g. split; [exact Hg|apply String.eqb_refl]. }
    rewrite (Permutation_length
               (NoDup_Permutation (NoDup_filter _ Hnd) Htop Hsame)).
    unfold tops. rewrite length_map, length_firstn.
    rewrite (Permutation_length Hperm), rank_lines_length.
    unfold P, prefix_length. fold n.
    replace (0 <=? N)%Z with true by (symmetry; apply Z.leb_le; exact HN).
    lia. }
  split; [rewrite Esel; apply length_map|].
  split; [exact Hcount|]. split.
  - intros j Hj Fj. pose proof (Hfwd j Hj Fj) as Hr.
    split; [exact Hr|].
    destruct (rank_columns_nth argsort_float argsort_int
                argsort_float_contract argsort_int_contract n vs N j
                Hall Hj) as [Hnb Hiff].
    rewrite <- Enb in Hnb. rewrite <- Er in Hiff. rewrite Hnb.
    destruct (filter (in_top argsort_float argsort_int N j) vs);
      [exfalso; apply Hr, Hiff; reflexivity|simpl; lia].
  - intros Hone j Hj. rewrite Hlen in Hbwd. split.
    + apply Hfwd, Hj.
    + apply (Hbwd Hone j Hj).
Qed.

End SeuratV3Run.

Lemma seurat_v3_selection_order_witness :
  let names := var_names Demo.adata in
  let nbatches := [1; 2; 0]%Z in
  let ranks := [RankInt 0; RankInt 0; RankNaN] in
  let hv := seurat_v3_select names nbatches ranks 1 in
  length hv = 3%nat /\
  count_true hv = prefix_length 1 3 /\
  ((0 <= 1)%Z -> count_true hv = Nat.min (Z.to_nat 1) 3) /\
  forall i j, (i < 3)%nat -> (j < 3)%nat ->
    nth i hv false = true -> nth j hv false = false ->
    rank_line_leb
      (nth i ranks RankNaN, nth i nbatches 0%Z,
       nth i names String.EmptyString)
      (nth j ranks RankNaN, nth j nbatches 0%Z,
       nth j names String.EmptyString) = true.
Proof.
  apply (seurat_v3_selection_order (var_names Demo.adata) [1; 2; 0]%Z
           [RankInt 0; RankInt 0; RankNaN] 1).
  repeat constructor; simpl; intuition discriminate.
Defined.

Lemma seurat_v3_rank_columns_agree_witness :
  let vs := [[2; 5; 5]; [1; 0; 3]]%float in
  let nbatches := fst (seurat_v3_ranks argsort_stable argsort_nat 3 vs 2) in
  let ranks := snd (seurat_v3_ranks argsort_stable argsort_nat 3 vs 2) in
  length nbatches = 3%nat /\ length ranks = 3%nat /\
  forall j, (j < 3)%nat ->
    nth j nbatches 0%Z
    = Z.of_nat (length (filter (in_top argsort_stable argsort_nat 2 j) vs)) /\
    (0 <= nth j nbatches 0 <= Z.of_nat (length vs))%Z /\
    (nth j ranks RankNaN = RankNaN <-> nth j nbatches 0%Z = 0%Z).
Proof.
  apply (seurat_v3_rank_columns_agree argsort_stable argsort_nat
           (argsort_with_ok (fun i => Z.of_nat i)) argsort_nat_ok
           3 [[2; 5; 5]; [1; 0; 3]]%float 2).
  repeat constructor.
Defined.

Lemma seurat_v3_flags_ranked_genes_witness :
  exists nbatches ranks hv s',
    seurat_v3_columns DemoV3.mean_var DemoV3.flat_fit Demo.same
      DemoV3.pow10_of_zero fsum argsort_stable argsort_nat (fun m _ => m)
      (var_names Demo.adata) DemoV3.dense [0; 0; 0]%nat 2 DemoV3.span
      empty_state
    = Return (nbatches, ranks, hv) s' /\
    length hv = 3%nat /\
    count_true hv = Nat.min (Z.to_nat 2) 3 /\
    (forall j, (j < 3)%nat -> nth j hv false = true ->
       nth j ranks RankNaN <> RankNaN /\ (1 <= nth j nbatches 0)%Z) /\
    (length (np_unique [0; 0; 0]%nat) = 1%nat ->
     forall j, (j < 3)%nat ->
       (nth j hv false = true <-> nth j ranks RankNaN <> RankNaN)).
Proof.
  assert (E : exists nbatches ranks hv s',
             seurat_v3_columns DemoV3.mean_var DemoV3.flat_fit Demo.same
               DemoV3.pow10_of_zero fsum argsort_stable argsort_nat
               (fun m _ => m) (var_names Demo.adata) DemoV3.dense
               [0; 0; 0]%nat 2 DemoV3.span empty_state
             = Return (nbatches, ranks, hv) s')
    by (vm_compute; do 4 eexists; reflexivity).
  destruct E as (nbatches & ranks & hv & s' & E).
  exists nbatches, ranks, hv, s'. split; [exact E|].
  apply (seurat_v3_flags_ranked_genes DemoV3.mean_var DemoV3.flat_fit
           Demo.same DemoV3.pow10_of_zero fsum argsort_stable argsort_nat
           (fun m _ => m) (argsort_with_ok (fun i => Z.of_nat i))
           argsort_nat_ok (var_names Demo.adata) DemoV3.dense [0; 0; 0]%nat
           2 DemoV3.span empty_state s' nbatches ranks hv).
  - repeat constructor; simpl; intuition discriminate.
  - discriminate.
  - lia.
  - exact E.
Defined.

(** ** The Seurat v3 flavor: what clipping does to a gene *)

Section SeuratV3Clip.
Local Open Scope float_scope.

Variable _get_mean_var : counts_t -> list float * list float.
Variable loess_fitted_values : list float -> list float -> float -> list float.
Variable np_log10 : float -> float.
Variable pow10 : float -> float.
Variable np_sum : list float -> float.
Hypothesis loess_length :
  forall x y span, length (loess_fitted_values x y span) = length x.

Local Abbreviation clip_value :=
  (clip_of loess_fitted_values np_log10 pow10).
Local Abbreviation clipped :=
  (clipped_counts loess_fitted_values np_log10 pow10).
Local Abbreviation reg_std_value :=
  (reg_std_of loess_fitted_values np_log10 pow10).

Lemma ltb_irrefl (c : float) : (c <? c) = false.
Proof.
  destruct (c <? c) eqn:E; [|reflexivity].
  apply FFacts.ltb_key in E. destruct E as (_ & _ & E).
  destruct (FFacts.fkey c) as [[a b] k]. unfold FOrder.klt in E. lia.
Qed.

Lemma clip1_capped (x c : float) : (c <? clip1 x c) = false.
Proof.
  unfold clip1, F64.gtb. destruct (c <? x) eqn:E; [apply ltb_irrefl|exact E].
Qed.

Lemma clip1_unchanged (x c : float) : (c <? x) = false -> clip1 x c = x.
Proof. unfold clip1, F64.gtb. intros ->. reflexivity. Qed.

(** X16. In a batch of the Seurat v3 flavor, after clipping no count of a
    gene exceeds the clip value of that gene; and for a gene none of whose
    counts exceeds its clip value, clipping changes nothing, so that its
    normalized variance is computed from the sums of the counts
    themselves. *)
Theorem clipping_spares_genes_without_outliers (n : nat) (d : counts_t)
    (span : float) (mean var : list float) (s : state) (g : nat) :
  let clip := clip_value n d mean var span g in
  _get_mean_var d = (mean, var) ->
  length mean = n -> length var = n -> well_shaped n d -> (g < n)%nat ->
  Forall (fun x => (clip <? x) = false) (clipped n d mean var span g) /\
  (Forall (fun x => (clip <? x) = false) (cell_counts d g) ->
   clipped n d mean var span g = cell_counts d g /\
   exists norm_gene_var,
     seurat_v3_batch _get_mean_var loess_fitted_values np_log10 pow10 np_sum
       n d span s = Return norm_gene_var s /\
     nth g norm_gene_var nan
     = norm_gene_var1 (n_obs d) (reg_std_value n mean var span g)
         (nth g mean nan)
         (np_sum (map np_square (cell_counts d g)))
         (np_sum (cell_counts d g))).
Proof.
  intros clip Hmv Hm Hv Hs Hg. split.
  - apply Forall_forall. intros x Hx. unfold clipped_counts in Hx.
    apply in_map_iff in Hx. destruct Hx as (y & <- & _).
    apply clip1_capped.
  - intros Hno.
    assert (E : clipped n d mean var span g = cell_counts d g).
    { unfold clipped_counts. rewrite <- (map_id (cell_counts d g)) at 2.
      apply map_ext_in. intros x Hx. apply clip1_unchanged.
      rewrite Forall_forall in Hno. apply Hno, Hx. }
    split; [exact E|]. eexists.
    split; [apply (seurat_v3_batch_run _get_mean_var loess_fitted_values
                     np_log10 pow10 np_sum loess_length n d span mean var s);
            assumption|].
    rewrite nth_map_seq by exact Hg. rewrite E. reflexivity.
Qed.

End SeuratV3Clip.

Lemma clipping_spares_genes_without_outliers_witness :
  let mean := [2; 0; 4]%float in
  let var := [1; 0; 9]%float in
  let clip :=
    clip_of DemoV3.flat_fit Demo.same DemoV3.pow10_of_zero 3 DemoV3.dense
      mean var DemoV3.span 0 in
  Forall (fun x => (clip <? x)%float = false)
    (clipped_counts DemoV3.flat_fit Demo.same DemoV3.pow10_of_zero 3
       DemoV3.dense mean var DemoV3.span 0) /\
  clipped_counts DemoV3.flat_fit Demo.same DemoV3.pow10_of_zero 3
    DemoV3.dense mean var DemoV3.span 0
  = cell_counts DemoV3.dense 0 /\
  exists norm_gene_var,
    seurat_v3_batch DemoV3.mean_var DemoV3.flat_fit Demo.same
      DemoV3.pow10_of_zero fsum 3 DemoV3.dense DemoV3.span empty_state
    = Return norm_gene_var empty_state /\
    nth 0 norm_gene_var nan
    = norm_gene_var1 (n_obs DemoV3.dense)
        (reg_std_of DemoV3.flat_fit Demo.same DemoV3.pow10_of_zero 3
           mean var DemoV3.span 0)
        (nth 0 mean nan)
        (fsum (map np_square (cell_counts DemoV3.dense 0)))
        (fsum (cell_counts DemoV3.dense 0)).
Proof.
  destruct (clipping_spares_genes_without_outliers DemoV3.mean_var
              DemoV3.flat_fit Demo.same DemoV3.pow10_of_zero fsum
              DemoV3.flat_fit_length 3 DemoV3.dense DemoV3.span
              [2; 0; 4]%float [1; 0; 9]%float empty_state 0) as [H1 H2].
  - vm_compute. reflexivity.
  - reflexivity.
  - reflexivity.
  - repeat constructor.
  - lia.
  - split; [exact H1|]. apply H2.
    repeat constructor; vm_compute; reflexivity.
Defined.

(** ** A single batch from end to end *)

Section SingleBatchOutcome.
Local Open Scope float_scope.

Variable _get_mean_var : matrix -> list float * list float.
Variables np_log np_log1p np_expm1 : float -> float.
Variable pd_cut_n : list float -> Z -> list nat.
Variable pd_cut_edges : list float -> list float -> list nat.
Variable np_percentile : list float -> list float -> list float.
Variable get_mad : list float -> float.
Variable series_to_array : loc -> M loc.

(** What the collaborators promise: one mean and one variance per gene,
    one bin per mean, and an array that is the column itself. *)
Hypothesis mean_var_shape :
  forall m, length (snd (_get_mean_var m)) = length (fst (_get_mean_var m)).
Hypothesis pd_cut_n_length :
  forall means k, length (pd_cut_n means k) = length means.
Hypothesis pd_cut_edges_length :
  forall means edges, length (pd_cut_edges means edges) = length means.
Hypothesis series_to_array_view :
  forall l s, series_to_array l s = Return l s.

Local Abbreviation single_batch :=
  (_highly_variable_genes_single_batch _get_mean_var np_log np_log1p
     np_expm1 pd_cut_n pd_cut_edges np_percentile get_mad series_to_array).

Definition is_single_bin_message (e : event) : Prop :=
  exists gen_indices, e = Debug_single_bin gen_indices.

(** Up to the selection, a run of a recognised flavor cannot fail: it
    leaves the normalized dispersions in a fresh buffer and hands the means
    and that buffer to [_subset_genes]. *)
Lemma single_batch_run (adata : AnnData) (n_bins : Z) (flavor : flavor_t)
    (s : state) :
  flavor <> OtherFlavor ->
  exists mean dispersion mean_bin dn evs,
    length dispersion = length mean /\
    length mean_bin = length mean /\
    length dn = length mean /\
    Forall is_single_bin_message evs /\
    forall cutoff,
      single_batch adata cutoff n_bins flavor s
      = bind (_subset_genes (n_vars adata) mean (length (heap s)) cutoff)
          (fun hv => ret (mk_hvg_frame (var_names adata) mean dispersion
                            mean_bin (length (heap s)) hv))
          (mkState (heap s ++ [dn]) (events s ++ evs)).
Proof.
  intros Hflavor. unfold _highly_variable_genes_single_batch.
  destruct flavor; [| |congruence];
    match goal with
    | |- context [_get_mean_var ?d] =>
        pose proof (mean_var_shape d) as Hshape;
        destruct (_get_mean_var d) as [mean var]
    end;
    cbn [fst snd] in Hshape;
    set (mean0 := map (fun m => if m =? 0 then 0x1.19799812dea11p-40 else m)
                      mean);
    assert (Hm0 : length mean0 = length mean) by apply length_map;
    rewrite (broadcast2_same_length PrimFloat.div var mean0) by congruence;
    set (disp0 := map (fun p => fst p / snd p) (combine var mean0));
    assert (Hd0 : length disp0 = length mean)
      by (unfold disp0; rewrite length_map, length_combine; lia).
  - set (dispersion :=
           map np_log (map (fun d => if d =? 0 then nan else d) disp0)).
    set (mean1 := map np_log1p mean0).
    assert (Hd : length dispersion = length mean1)
      by (unfold dispersion, mean1; rewrite !length_map; congruence).
    set (mean_bin := pd_cut_n mean1 n_bins).
    assert (Hb : length mean_bin = length mean1) by apply pd_cut_n_length.
    set (stats := map (fun b => fallback (bin_line nanmean nanstd_ddof1
                                            mean_bin dispersion b)) mean_bin).
    set (dn := map (fun p => (fst p - avg (snd p)) / dev (snd p))
                   (combine dispersion stats)).
    exists mean1, dispersion, mean_bin, dn.
    exists (if (0 <? length (single_bin_genes mean_bin dispersion))%nat
            then [Debug_single_bin (single_bin_genes mean_bin dispersion)]
            else []).
    split; [exact Hd|]. split; [exact Hb|]. split.
    { unfold dn, stats. rewrite length_map, length_combine, length_map. lia. }
    split.
    { destruct (0 <? _)%nat; repeat constructor. eexists. reflexivity. }
    intros cutoff. unfold lift_shape, _get_mean_bins.
    unfold bind at 1 2 3. unfold ret at 1 2. fold mean_bin.
    rewrite stats_seurat_run. fold stats.
    unfold bind at 1.
    rewrite (broadcast2_same_length _ dispersion stats)
      by (unfold stats; rewrite length_map; congruence).
    fold dn. unfold ret at 1, bind at 1, alloc. cbn [heap events].
    unfold bind at 1. rewrite series_to_array_view. reflexivity.
  - set (mean_bin :=
           pd_cut_edges mean0
             (neg_infinity :: np_percentile mean0 percentile_points
              ++ [infinity])).
    assert (Hb : length mean_bin = length mean0)
      by apply pd_cut_edges_length.
    set (stats := map (bin_line nanmedian get_mad mean_bin disp0) mean_bin).
    set (dn := map (fun p => (fst p - avg (snd p)) / dev (snd p))
                   (combine disp0 stats)).
    exists mean0, disp0, mean_bin, dn, [].
    split; [congruence|]. split; [exact Hb|]. split.
    { unfold dn, stats. rewrite length_map, length_combine, length_map. lia. }
    split; [constructor|].
    intros cutoff. unfold lift_shape, _get_mean_bins.
    unfold bind at 1 2 3. unfold ret at 1 2. fold mean_bin.
    unfold _stats_cell_ranger.
    rewrite (unbin_run _ (bin_line nanmedian get_mad mean_bin disp0))
      by (intros b Hb'; apply lookup_agg2, Hb').
    fold stats. unfold bind at 1.
    rewrite (broadcast2_same_length _ disp0 stats)
      by (unfold stats; rewrite length_map; congruence).
    fold dn. unfold ret at 1, bind at 1, alloc. cbn [heap events].
    unfold bind at 1. rewrite series_to_array_view.
    rewrite app_nil_r. reflexivity.
Qed.

Lemma nth_app_last {A} (h : list A) (x d : A) : nth (length h) (h ++ [x]) d = x.
Proof. rewrite app_nth2 by lia. rewrite Nat.sub_diag. reflexivity. Qed.

(** X17. With collaborators that keep their shapes (one mean and one
    variance per gene, one bin per mean, [series_to_array] returning the
    column itself), a single-batch run of flavor "seurat" or "cell_ranger"
    cannot fail in interval mode: it returns a frame indexed by
    [adata.var_names] whose columns all have the same length, whose
    normalized dispersions contain no NaN any more, and it logs nothing
    but the single-bin debug message.  In top-N mode the only possible
    failure is the [IndexError] of the threshold lookup. *)
Theorem single_batch_interval_returns (adata : AnnData) (c : _Cutoffs)
    (n_bins : Z) (flavor : flavor_t) (s : state) :
  flavor <> OtherFlavor ->
  (exists f s' evs,
     single_batch adata (Interval c) n_bins flavor s = Return f s' /\
     hvg_gene f = var_names adata /\
     length (hvg_dispersions f) = length (hvg_means f) /\
     length (hvg_mean_bin f) = length (hvg_means f) /\
     length (hvg_highly_variable f) = length (hvg_means f) /\
     length (nth (hvg_dispersions_norm f) (heap s') [])
     = length (hvg_means f) /\
     (forall v, In v (nth (hvg_dispersions_norm f) (heap s') []) ->
        F64.isnan v = false) /\
     events s' = events s ++ evs /\
     Forall is_single_bin_message evs) /\
  (forall N,
     (exists f s', single_batch adata (TopN N) n_bins flavor s = Return f s')
     \/ (exists s', single_batch adata (TopN N) n_bins flavor s
                    = Raise IndexError s')).
Proof.
  intros Hflavor.
  destruct (single_batch_run adata n_bins flavor s Hflavor)
    as (mean & dispersion & mean_bin & dn & evs & Hd & Hb & Hdn & Hevs & Hrun).
  split.
  - rewrite Hrun. unfold bind. rewrite subset_genes_interval_run.
    cbn [heap events]. rewrite nth_app_last.
    destruct (in_bounds_same_length c mean (map F64.nan_to_zero dn))
      as (sel & Hsel & Hlen & _); [rewrite length_map; congruence|].
    rewrite Hsel. unfold ret.
    do 3 eexists. split; [reflexivity|].
    cbn [hvg_gene hvg_dispersions hvg_means hvg_mean_bin hvg_highly_variable
         hvg_dispersions_norm heap events].
    assert (Hbuf : nth (length (heap s))
                     (set_nth (length (heap s)) (map F64.nan_to_zero dn)
                        (heap s ++ [dn])) []
                   = map F64.nan_to_zero dn).
    { pose proof (nth_set_nth_map (map F64.nan_to_zero) (length (heap s))
                    (heap s ++ [dn]) eq_refl) as K.
      rewrite nth_app_last in K. exact K. }
    rewrite Hbuf.
    split; [reflexivity|]. split; [exact Hd|]. split; [exact Hb|].
    split; [exact Hlen|]. split; [rewrite length_map; exact Hdn|].
    split; [|split; [reflexivity|exact Hevs]].
    intros v Hv. apply in_map_iff in Hv. destruct Hv as (x & <- & _).
    apply FFacts.nan_to_zero_notnan.
  - intros N. rewrite Hrun. unfold bind.
    rewrite subset_genes_topn_outcome.
    destruct (threshold_index _ _ _);
      [left; do 2 eexists; reflexivity|right; eexists; reflexivity].
Qed.

End SingleBatchOutcome.

Lemma single_batch_interval_returns_witness :
  exists f s' evs,
    _highly_variable_genes_single_batch Demo.mean_var Demo.same Demo.same
      Demo.same (fun means _ => Demo.one_bin means)
      (fun means _ => Demo.one_bin means) (fun _ q => q) statsmodels_mad ret
      Demo.adata (Interval default_cutoffs) 20 CellRanger empty_state
    = Return f s' /\
    hvg_gene f = var_names Demo.adata /\
    length (hvg_dispersions f) = length (hvg_means f) /\
    length (hvg_mean_bin f) = length (hvg_means f) /\
    length (hvg_highly_variable f) = length (hvg_means f) /\
    length (nth (hvg_dispersions_norm f) (heap s') [])
    = length (hvg_means f) /\
    (forall v, In v (nth (hvg_dispersions_norm f) (heap s') []) ->
       F64.isnan v = false) /\
    events s' = events empty_state ++ evs /\
    Forall is_single_bin_message evs.
Proof.
  apply (single_batch_interval_returns Demo.mean_var Demo.same Demo.same
           Demo.same (fun means _ => Demo.one_bin means)
           (fun means _ => Demo.one_bin means) (fun _ q => q)
           statsmodels_mad ret).
  - intros m. unfold Demo.mean_var. cbn [fst snd].
    rewrite !length_map. reflexivity.
  - intros means k. apply length_map.
  - intros means edges. apply length_map.
  - reflexivity.
  - discriminate.
Defined.

(** ** The Seurat v3 flavor: the batch counts add up *)

Section SeuratV3Total.
Local Open Scope float_scope.

Variable argsort_float : list float -> list nat.
Variable argsort_int : list nat -> list nat.
Hypothesis argsort_float_contract : argsort_float_ok argsort_float.
Hypothesis argsort_int_contract : argsort_int_ok argsort_int.

Definition zsum (l : list Z) : Z := fold_left Z.add l 0%Z.

Lemma zsum_cons (x : Z) (l : list Z) : zsum (x :: l) = (x + zsum l)%Z.
Proof. unfold zsum. simpl. apply fold_left_Zadd_acc. Qed.

Lemma zsum_map_add {A} (f g : A -> Z) (l : list A) :
  zsum (map (fun x => (f x + g x)%Z) l)
  = (zsum (map f l) + zsum (map g l))%Z.
Proof.
  induction l as [|x l IH]; [reflexivity|].
  cbn [map]. rewrite !zsum_cons, IH. lia.
Qed.

Lemma zsum_b2z {A} (f : A -> bool) (l : list A) :
  zsum (map (fun x => Z.b2z (f x)) l) = Z.of_nat (length (filter f l)).
Proof. apply sum_b2z_count. Qed.

(** Counting the pairs (gene, batch) gene by gene or batch by batch. *)
Lemma count_pairs {A B} (f : A -> B -> bool) (genes : list A)
    (batches : list B) :
  zsum (map (fun j => Z.of_nat (length (filter (f j) batches))) genes)
  = zsum (map (fun v => Z.of_nat (length (filter (fun j => f j v) genes)))
              batches).
Proof.
  induction batches as [|v batches IH].
  - cbn [filter length map]. induction genes as [|j genes IHg];
      [reflexivity|]. cbn [map]. rewrite zsum_cons, IHg. reflexivity.
  - cbn [map]. rewrite zsum_cons, <- IH, <- zsum_b2z, <- zsum_map_add.
    f_equal. apply map_ext. intros j. cbn [filter].
    destruct (f j v); cbn [length Z.b2z]; lia.
Qed.

(** X18. Over K batches with one normalized variance per gene and
    N >= 0, the column [highly_variable_nbatches] of the Seurat v3 flavor
    adds up to K * min(N, gene count): every batch contributes exactly its
    top min(N, gene count) genes. *)
Theorem seurat_v3_nbatches_total (n : nat) (vs : list (list float)) (N : Z) :
  Forall (fun v => length v = n) vs -> (0 <= N)%Z ->
  zsum (fst (seurat_v3_ranks argsort_float argsort_int n vs N))
  = Z.of_nat (length vs * Nat.min (Z.to_nat N) n).
Proof.
  intros Hall HN.
  assert (E : fst (seurat_v3_ranks argsort_float argsort_int n vs N)
              = map (fun j => Z.of_nat
                       (length (filter (in_top argsort_float argsort_int N j)
                                  vs)))
                    (seq 0 n)).
  { unfold seurat_v3_ranks. cbn [fst]. apply map_ext. intros j.
    rewrite map_map. apply (sum_b2z_count (in_top argsort_float argsort_int N j)). }
  rewrite E, (count_pairs (in_top argsort_float argsort_int N)).
  clear E. induction vs as [|v vs IH]; [reflexivity|].
  inversion Hall as [|? ? Hv Hvs]; subst.
  cbn [map length]. rewrite zsum_cons, IH by exact Hvs.
  rewrite (in_top_count argsort_float argsort_int argsort_float_contract
             argsort_int_contract (length v) v N eq_refl HN).
  lia.
Qed.

End SeuratV3Total.

Lemma seurat_v3_nbatches_total_witness :
  zsum (fst (seurat_v3_ranks argsort_stable argsort_nat 3
               [[2; 5; 5]; [1; 0; 3]]%float 2))
  = Z.of_nat (2 * Nat.min (Z.to_nat 2) 3).
Proof.
  apply (seurat_v3_nbatches_total argsort_stable argsort_nat
           (argsort_with_ok (fun i => Z.of_nat i)) argsort_nat_ok
           3 [[2; 5; 5]; [1; 0; 3]]%float 2).
  - repeat constructor.
  - lia.
Defined.

(** ** The order of the batched table in interval mode *)

Lemma string_compare_le_trans (a b c : String.string) :
  String.compare a b <> Gt -> String.compare b c <> Gt ->
  String.compare a c <> Gt.
Proof.
  revert b c. induction a as [|x a IH]; intros [|y b] [|z c]; simpl;
    try congruence.
  destruct (Ascii.compare x y) eqn:Exy; [| |congruence].
  - apply Ascii.compare_eq_iff in Exy. subst y.
    destruct (Ascii.compare x z); try congruence. apply IH.
  - intros _. destruct (Ascii.compare y z) eqn:Eyz; [| |congruence]; intros _.
    + apply Ascii.compare_eq_iff in Eyz. subst z. rewrite Exy. congruence.
    + unfold Ascii.compare in *. rewrite N.compare_lt_iff in Exy, Eyz.
      replace (Ascii.N_of_ascii x ?= Ascii.N_of_ascii z)%N with Lt;
        [congruence|].
      symmetry. apply N.compare_lt_iff. lia.
Qed.

Lemma string_leb_trans (a b c : String.string) :
  String.leb a b = true -> String.leb b c = true -> String.leb a c = true.
Proof.
  unfold String.leb. intros Hab Hbc.
  pose proof (string_compare_le_trans a b c) as H.
  destruct (String.compare a b), (String.compare b c), (String.compare a c);
    try reflexivity; try discriminate; exfalso; apply H; congruence.
Qed.

(** Two sorted rearrangements of the same entries are the same list. *)
Lemma sorted_Permutation_unique {A} (R : A -> A -> Prop) (l1 l2 : list A) :
  (forall a b, R a b -> R b a -> a = b) ->
  StronglySorted R l1 -> StronglySorted R l2 ->
  Permutation l1 l2 -> l1 = l2.
Proof.
  intros Hanti H1. revert l2.
  induction H1 as [|a l1 Hs1 IH Hall1]; intros l2 H2 Hp.
  - apply Permutation_nil in Hp. congruence.
  - destruct l2 as [|b l2];
      [apply Permutation_sym, Permutation_nil in Hp; discriminate|].
    inversion H2 as [|? ? Hs2 Hall2]; subst.
    rewrite Forall_forall in Hall1, Hall2.
    assert (E : a = b).
    { assert (Ha : In a (b :: l2))
        by (apply (Permutation_in _ Hp); left; reflexivity).
      assert (Hb : In b (a :: l1))
        by (apply (Permutation_in _ (Permutation_sym Hp)); left; reflexivity).
      destruct Ha as [Ha|Ha]; [congruence|].
      destruct Hb as [Hb|Hb]; [congruence|].
      apply Hanti; [apply Hall1, Hb|apply Hall2, Ha]. }
    subst b. f_equal. apply IH; [exact Hs2|].
    apply Permutation_cons_inv in Hp. exact Hp.
Qed.

Section BatchedIntervalOrder.

Variable _get_mean_var : matrix -> list float * list float.
Variables np_log np_log1p np_expm1 : float -> float.
Variable pd_cut_n : list float -> Z -> list nat.
Variable pd_cut_edges : list float -> list float -> list nat.
Variable np_percentile : list float -> list float -> list float.
Variable get_mad : list float -> float.
Variable filter_genes : matrix -> list bool.
Variable series_to_array : loc -> M loc.

Local Abbreviation batched :=
  (_highly_variable_genes_batched _get_mean_var np_log np_log1p np_expm1
     pd_cut_n pd_cut_edges np_percentile get_mad filter_genes
     series_to_array).

(** In interval mode nothing re-sorts the grouped table. *)
Lemma batched_interval_keeps_group_order (adata : AnnData) (n_bins : Z)
    (flavor : flavor_t) (c : _Cutoffs) (s s' : state) (df : batched_frame) :
  batched adata n_bins flavor (Interval c) s = Return df s' ->
  Sorted (fun a b => String.leb a b = true) (bf_gene df).
Proof.
  intros H.
  destruct (batched_run_inv _ _ _ _ _ _ _ _ _ _ _ _ _ _ _ _ _ H)
    as (dfs & s0 & dn & s1 & _ & _ & _ & _ & Hsel).
  cbv zeta in Hsel. unfold batched_select in Hsel. minv Hsel.
  unfold ret in Hsel. inversion Hsel; subst; clear Hsel. cbn [bf_gene].
  apply StringSort.Sorted_sort.
Qed.

(** X19. In interval mode, on data with distinct gene names and a gene
    filter that answers for every gene, the table of a batched run lists
    the genes of [adata.var_names], each once, in strictly increasing order
    of their names, as [groupby("gene")] leaves them: the table is in the
    order of [adata.var_names] if and only if [adata.var_names] is itself
    in increasing order, and a gene that comes after a greater one in
    [adata.var_names] has another position in the table. *)
Theorem batched_interval_sorted_by_gene (adata : AnnData) (n_bins : Z)
    (flavor : flavor_t) (c : _Cutoffs) (s s' : state) (df : batched_frame) :
  let names := var_names adata in
  NoDup names ->
  (forall b, (b < n_categories adata)%nat ->
     length (filter_genes (X (subset_obs adata b))) = length names) ->
  batched adata n_bins flavor (Interval c) s = Return df s' ->
  Permutation (bf_gene df) names /\
  (forall i j, (i < j)%nat -> (j < length names)%nat ->
     let a := nth i (bf_gene df) String.EmptyString in
     let b := nth j (bf_gene df) String.EmptyString in
     String.leb a b = true /\ a <> b) /\
  (bf_gene df = names
   <-> Sorted (fun a b => String.leb a b = true) names) /\
  (forall i j, (i < j)%nat -> (j < length names)%nat ->
     String.leb (nth i names String.EmptyString)
                (nth j names String.EmptyString) = false ->
     bf_gene df <> names).
Proof.
  intros names Hnd Hfilt H.
  assert (Hp : Permutation (bf_gene df) names)
    by (eapply batched_genes_Permutation; eassumption).
  assert (Hs : Sorted (fun a b => String.leb a b = true) (bf_gene df))
    by (eapply batched_interval_keeps_group_order; exact H).
  assert (Htr : Relations_1.Transitive (fun a b => String.leb a b = true))
    by (intros x y z; apply string_leb_trans).
  assert (Hss : StronglySorted (fun a b => String.leb a b = true) (bf_gene df))
    by (apply Sorted_StronglySorted; assumption).
  assert (Hlen : length (bf_gene df) = length names)
    by (apply Permutation_length, Hp).
  assert (Hnd' : NoDup (bf_gene df))
    by (apply (Permutation_NoDup (Permutation_sym Hp) Hnd)).
  split; [exact Hp|]. split; [|split].
  - intros i j Hij Hj. cbv zeta. split.
    + apply (StronglySorted_nth _ _ String.EmptyString Hss i j Hij). lia.
    + intros E.
      apply (proj1 (NoDup_nth _ String.EmptyString) Hnd') in E; lia.
  - split.
    + intros E. rewrite <- E. exact Hs.
    + intros Hsn.
      apply (sorted_Permutation_unique (fun a b => String.leb a b = true)).
      * intros a b. apply String.leb_antisym.
      * exact Hss.
      * apply Sorted_StronglySorted; assumption.
      * exact Hp.
  - intros i j Hij Hj Hgt E. rewrite E in Hss.
    pose proof (StronglySorted_nth _ _ String.EmptyString Hss i j Hij Hj)
      as Hle.
    congruence.
Qed.

End BatchedIntervalOrder.

(** Three genes whose names are not in increasing order. *)
Module DemoOrder.
Import String.StringSyntax.
Delimit Scope string_scope with string.
Local Open Scope float_scope.

Definition adata : AnnData :=
  mk_AnnData
    [[1; 0; 4]; [3; 0; 1]; [0; 2; 2]; [0; 4; 5]]
    ["g2"%string; "g3"%string; "g1"%string]
    [0%nat; 0%nat; 1%nat; 1%nat]
    2
    None.

(** The same names in increasing order. *)
Definition sorted_names : list String.string :=
  ["g1"%string; "g2"%string; "g3"%string].

Definition run_batched (cutoff : cutoff_t) : M batched_frame :=
  _highly_variable_genes_batched Demo.mean_var Demo.same Demo.same Demo.same
    (fun means _ => Demo.one_bin means) (fun means _ => Demo.one_bin means)
    (fun _ q => q) statsmodels_mad Demo.detected ret adata 20 CellRanger
    cutoff.

End DemoOrder.

Lemma batched_interval_sorted_by_gene_witness :
  exists df s',
    let names := var_names DemoOrder.adata in
    DemoOrder.run_batched (Interval default_cutoffs) empty_state
    = Return df s' /\
    bf_gene df = DemoOrder.sorted_names /\
    String.leb (nth 1 names String.EmptyString)
               (nth 2 names String.EmptyString) = false /\
    Permutation (bf_gene df) names /\
    (forall i j, (i < j)%nat -> (j < length names)%nat ->
       let a := nth i (bf_gene df) String.EmptyString in
       let b := nth j (bf_gene df) String.EmptyString in
       String.leb a b = true /\ a <> b) /\
    (bf_gene df = names
     <-> Sorted (fun a b => String.leb a b = true) names) /\
    (forall i j, (i < j)%nat -> (j < length names)%nat ->
       String.leb (nth i names String.EmptyString)
                  (nth j names String.EmptyString) = false ->
       bf_gene df <> names).
Proof.
  assert (E : exists df s',
             DemoOrder.run_batched (Interval default_cutoffs) empty_state
             = Return df s' /\ bf_gene df = DemoOrder.sorted_names)
    by (vm_compute; eauto).
  destruct E as (df & s' & E & Eg). exists df, s'. cbv zeta.
  split; [exact E|]. split; [exact Eg|]. split; [reflexivity|].
  apply (batched_interval_sorted_by_gene Demo.mean_var Demo.same
           Demo.same Demo.same (fun means _ => Demo.one_bin means)
           (fun means _ => Demo.one_bin means) (fun _ q => q)
           statsmodels_mad Demo.detected ret DemoOrder.adata 20 CellRanger
           default_cutoffs empty_state s' df).
  - repeat constructor; simpl; intuition discriminate.
  - intros b Hb. simpl in Hb.
    destruct b as [|[|b]]; [reflexivity|reflexivity|lia].
  - exact E.
Defined.

Lemma stats_seurat_fallback_exact_witness :
  let mean_bins := [0; 1; 1]%nat in
  let dispersions := [2; 3; 5]%float in
  let line := bin_line nanmean nanstd_ddof1 mean_bins dispersions in
  let gi := single_bin_genes mean_bins dispersions in
  exists stats s',
    _stats_seurat mean_bins dispersions empty_state = Return stats s' /\
    events s' = events empty_state
                ++ (if (0 <? length gi)%nat
                    then [Debug_single_bin gi] else []) /\
    ((0 < length gi)%nat <->
     exists i, (i < length mean_bins)%nat /\
               F64.isnan (dev (line (nth i mean_bins 0%nat))) = true) /\
    forall i, (i < length mean_bins)%nat ->
      let b := nth i mean_bins 0%nat in
      (In i gi <-> F64.isnan (dev (line b)) = true) /\
      (F64.isnan (dev (line b)) = true ->
       nth i stats (mk_bin_stat 0 0 0) = mk_bin_stat b 0 (avg (line b))) /\
      (F64.isnan (dev (line b)) = false ->
       nth i stats (mk_bin_stat 0 0 0) = line b) /\
      ((length (filter F64.notnan (group mean_bins dispersions b)) <= 1)%nat ->
       F64.isnan (dev (line b)) = true).
Proof.
  exact (stats_seurat_fallback_exact [0; 1; 1]%nat [2; 3; 5]%float
           empty_state).
Defined.

Lemma batched_topn_table_witness :
  exists order df s',
    batched_select ret (TopN 1) (var_names Demo.adata) [1; 2; 3]%float
      [4; 5; 6]%float 0 [2; 2; 2]%Z [true; true; true]
      (mkState [[7; 7; 7]%float] [])
    = Return df s' /\
    Permutation order (seq 0 3) /\
    bf_gene df = take_rows order (var_names Demo.adata) String.EmptyString /\
    count_true (bf_highly_variable df) = Nat.min (Z.to_nat 1) 3.
Proof.
  destruct (batched_topn_table ret (var_names Demo.adata) [1; 2; 3]%float
              [4; 5; 6]%float 0 [2; 2; 2]%Z [true; true; true] 1
              (mkState [[7; 7; 7]%float] []))
    as (order & df & s' & Hrun & Hp & Hg & _ & _ & _ & _ & _ & _ & _ & _
        & Hc & _).
  exists order, df, s'. split; [exact Hrun|]. split; [exact Hp|].
  split; [exact Hg|exact Hc].
Defined.
